(** * SENSAI: retry, fallback and persistence of the AI insight calls

    A shallow embedding of

      - [src/lib/inngest/function.js]: the weekly batch job
        [generateIndustryInsights] and its [retryWithBackoff];
      - the dashboard action: [retryWithBackoff], [getFallbackInsights],
        [generateAIInsights], [getIndustryInsights];
      - the resume action: [improveWithAI].

    JavaScript strings are sequences of UTF-16 code units, numbers that the
    code computes with (retry counters, delays, timestamps) are integers.
    Asynchronous code runs sequentially (every promise is awaited), so it is
    written in a monad that threads the observable world (clock, remote
    calls, sleeps, database writes, console) and carries thrown errors. *)

From Stdlib Require Import List ZArith NArith Bool Lia String Ascii DecimalString.
Import ListNotations.

Set Implicit Arguments.

(** ** JavaScript strings *)

Module JsString.

Definition code_unit := N.
Definition jsstring := list code_unit.

(** A string literal of the source, as code units. *)
Definition js (s : string) : jsstring :=
  map N_of_ascii (list_ascii_of_string s).

Definition in_range (lo hi c : N) : bool := (N.leb lo c && N.leb c hi)%bool.

Local Open Scope N_scope.

(** WhiteSpace and LineTerminator of ECMAScript: what [String.prototype.trim]
    removes. *)
Definition is_whitespace (c : code_unit) : bool :=
  (in_range 9 13 c || N.eqb c 32 || N.eqb c 160 || N.eqb c 5760
   || in_range 8192 8202 c || N.eqb c 8232 || N.eqb c 8233 || N.eqb c 8239
   || N.eqb c 8287 || N.eqb c 12288 || N.eqb c 65279)%bool.

Fixpoint trim_start (s : jsstring) : jsstring :=
  match s with
  | [] => []
  | c :: s' => if is_whitespace c then trim_start s' else s
  end.

Definition trim_end (s : jsstring) : jsstring := rev (trim_start (rev s)).

(** [s.trim()] *)
Definition trim (s : jsstring) : jsstring := trim_start (trim_end s).

Fixpoint starts_with (p s : jsstring) : bool :=
  match p, s with
  | [], _ => true
  | _ :: _, [] => false
  | a :: p', b :: s' => (N.eqb a b && starts_with p' s')%bool
  end.

(** [s.includes(p)] *)
Fixpoint includes (s p : jsstring) : bool :=
  (starts_with p s ||
   match s with
   | [] => false
   | _ :: s' => includes s' p
   end)%bool.

(** [m?.includes(p)] on a message that may be undefined: undefined is falsy
    in the [||] and [if] that consume it. *)
Definition opt_includes (m : option jsstring) (p : jsstring) : bool :=
  match m with
  | Some s => includes s p
  | None => false
  end.

Definition backtick : code_unit := 96.
Definition LF : code_unit := 10.
Definition fence : jsstring := [backtick; backtick; backtick].

(** Length of the match of the regular expression [```(?:json)?\n?] at the
    head of [s], if it matches there. Both optional parts are greedy and
    nothing follows them, so no backtracking takes place. *)
Definition fence_match_length (s : jsstring) : option nat :=
  if starts_with fence s then
    let r1 := skipn 3 s in
    let n1 := if starts_with (js "json") r1 then 4%nat else 0%nat in
    let r2 := skipn n1 r1 in
    let n2 := if starts_with [LF] r2 then 1%nat else 0%nat in
    Some (3 + n1 + n2)%nat
  else None.

(** [s.replace(/```(?:json)?\n?/g, "")]: a left-to-right scan; [skip] counts
    the code units of the current match that are still to be dropped. *)
Fixpoint strip_fences_from (skip : nat) (s : jsstring) : jsstring :=
  match s with
  | [] => []
  | c :: s' =>
      match skip with
      | S k => strip_fences_from k s'
      | O =>
          match fence_match_length s with
          | Some (S k) => strip_fences_from k s'
          | _ => c :: strip_fences_from 0%nat s'
          end
      end
  end.

Definition strip_fences (s : jsstring) : jsstring := strip_fences_from 0%nat s.

(** [text.replace(/```(?:json)?\n?/g, "").trim()], the [cleanedText] of both
    insight generators. *)
Definition cleanText (text : jsstring) : jsstring := trim (strip_fences text).

(** A text inside a [```json] markdown fence. *)
Definition fenced (t : jsstring) : jsstring :=
  js "```json" ++ [LF] ++ t ++ [LF] ++ fence.

(** Three consecutive backticks somewhere in [s]. *)
Fixpoint has_fence (s : jsstring) : bool :=
  (starts_with fence s ||
   match s with
   | [] => false
   | _ :: s' => has_fence s'
   end)%bool.

Definition all_whitespace (w : jsstring) : Prop :=
  Forall (fun c => is_whitespace c = true) w.

Fixpoint jsstring_eqb (a b : jsstring) : bool :=
  match a, b with
  | [], [] => true
  | x :: a', y :: b' => (N.eqb x y && jsstring_eqb a' b')%bool
  | _, _ => false
  end.

End JsString.
Export JsString.

(** ** Objects

    An object is its own enumerable properties in insertion order. Defining
    a property that exists replaces its value and keeps its position, as an
    object literal and the spread syntax do. *)

Module JsObject.

Definition obj (V : Type) := list (jsstring * V).

Fixpoint obj_set {V} (k : jsstring) (v : V) (o : obj V) : obj V :=
  match o with
  | [] => [(k, v)]
  | (k', v') :: o' =>
      if jsstring_eqb k' k then (k', v) :: o' else (k', v') :: obj_set k v o'
  end.

Fixpoint obj_get {V} (k : jsstring) (o : obj V) : option V :=
  match o with
  | [] => None
  | (k', v') :: o' => if jsstring_eqb k' k then Some v' else obj_get k o'
  end.

(** [{...o, ...more}]: the properties of [more] are defined in order. *)
Definition obj_assign {V} (o more : obj V) : obj V :=
  fold_left (fun acc kv => obj_set (fst kv) (snd kv) acc) more o.

End JsObject.
Export JsObject.

(** ** JSON.parse

    [JSON.parse] is the engine's, not the repository's. It is modelled after
    the JSON grammar (ECMA-404) so that response texts can be evaluated: a
    lexer that reads one code unit at a time, and a parser of the token
    list. A number is kept as its literal: the double it denotes is a
    function of the literal, and nothing below depends on its rounding. *)

Module Json.

Local Open Scope N_scope.

#[warnings="-register-all"] Inductive json :=
| JNull
| JBool (b : bool)
| JNum (literal : jsstring)
| JStr (s : jsstring)
| JArr (elements : list json)
| JObj (members : obj json).

Inductive token :=
| TLBrace | TRBrace | TLBracket | TRBracket | TColon | TComma
| TString (s : jsstring)
| TNumber (literal : jsstring)
| TTrue | TFalse | TNull.

Definition is_digit (c : code_unit) : bool := in_range 48 57 c.

Definition is_hex (c : code_unit) : bool :=
  (is_digit c || in_range 65 70 c || in_range 97 102 c)%bool.

Definition hex_value (c : code_unit) : N :=
  if is_digit c then c - 48
  else if in_range 65 70 c then c - 55
  else c - 87.

(** The four whitespace characters of the JSON grammar. *)
Definition is_json_ws (c : code_unit) : bool :=
  (N.eqb c 32 || N.eqb c 9 || N.eqb c 10 || N.eqb c 13)%bool.

Definition structural (c : code_unit) : option token :=
  if N.eqb c 123 then Some TLBrace
  else if N.eqb c 125 then Some TRBrace
  else if N.eqb c 91 then Some TLBracket
  else if N.eqb c 93 then Some TRBracket
  else if N.eqb c 58 then Some TColon
  else if N.eqb c 44 then Some TComma
  else None.

Fixpoint drop_digits (s : jsstring) : jsstring :=
  match s with
  | [] => []
  | c :: s' => if is_digit c then drop_digits s' else s
  end.

Definition is_nil (s : jsstring) : bool :=
  match s with [] => true | _ => false end.

(** [e] or [E], an optional sign, digits; or nothing. *)
Definition valid_exponent (s : jsstring) : bool :=
  match s with
  | [] => true
  | e :: r =>
      if (N.eqb e 101 || N.eqb e 69)%bool then
        let r' := match r with
                  | c :: r2 => if (N.eqb c 43 || N.eqb c 45)%bool then r2 else r
                  | [] => r
                  end in
        match r' with
        | d :: r3 => (is_digit d && is_nil (drop_digits r3))%bool
        | [] => false
        end
      else false
  end.

Definition valid_fraction (s : jsstring) : bool :=
  match s with
  | c :: r =>
      if N.eqb c 46 then
        match r with
        | d :: r2 => (is_digit d && valid_exponent (drop_digits r2))%bool
        | [] => false
        end
      else valid_exponent s
  | [] => true
  end.

(** An optional minus, then 0 or a digit sequence without leading zero,
    then an optional fraction and an optional exponent. *)
Definition valid_number (s : jsstring) : bool :=
  let s1 := match s with
            | c :: r => if N.eqb c 45 then r else s
            | [] => s
            end in
  match s1 with
  | c :: r =>
      if N.eqb c 48 then valid_fraction r
      else if in_range 49 57 c then valid_fraction (drop_digits r)
      else false
  | [] => false
  end.

Definition is_number_char (c : code_unit) : bool :=
  (is_digit c || N.eqb c 45 || N.eqb c 43 || N.eqb c 46
   || N.eqb c 101 || N.eqb c 69)%bool.

Definition is_letter (c : code_unit) : bool := in_range 97 122 c.

Inductive lex_state :=
| Idle
| InNumber (acc : jsstring)          (* reversed *)
| InWord (acc : jsstring)            (* reversed *)
| InString (acc : jsstring)          (* reversed *)
| InEscape (acc : jsstring)
| InUnicode (acc : jsstring) (digits : list N).

(** The tokens a state completes when the input ends or a delimiter comes. *)
Definition flush (st : lex_state) : option (list token) :=
  match st with
  | Idle => Some []
  | InNumber acc =>
      if valid_number (rev acc) then Some [TNumber (rev acc)] else None
  | InWord acc =>
      if jsstring_eqb (rev acc) (js "true") then Some [TTrue]
      else if jsstring_eqb (rev acc) (js "false") then Some [TFalse]
      else if jsstring_eqb (rev acc) (js "null") then Some [TNull]
      else None
  | _ => None
  end.

Definition escape (c : code_unit) : option code_unit :=
  if N.eqb c 34 then Some 34
  else if N.eqb c 92 then Some 92
  else if N.eqb c 47 then Some 47
  else if N.eqb c 98 then Some 8
  else if N.eqb c 102 then Some 12
  else if N.eqb c 110 then Some 10
  else if N.eqb c 114 then Some 13
  else if N.eqb c 116 then Some 9
  else None.

Definition lex_step (st : lex_state) (c : code_unit)
  : option (lex_state * list token) :=
  match st with
  | InString acc =>
      if N.eqb c 34 then Some (Idle, [TString (rev acc)])
      else if N.eqb c 92 then Some (InEscape acc, [])
      else if N.ltb c 32 then None
      else Some (InString (c :: acc), [])
  | InEscape acc =>
      if N.eqb c 117 then Some (InUnicode acc [], [])
      else match escape c with
           | Some u => Some (InString (u :: acc), [])
           | None => None
           end
  | InUnicode acc ds =>
      if is_hex c then
        match ds with
        | [d3; d2; d1] =>
            Some (InString ((((d1 * 16 + d2) * 16 + d3) * 16 + hex_value c)
                            :: acc), [])
        | _ => Some (InUnicode acc (hex_value c :: ds), [])
        end
      else None
  | _ =>
      if is_json_ws c then
        match flush st with
        | Some ts => Some (Idle, ts)
        | None => None
        end
      else match structural c with
      | Some t =>
          match flush st with
          | Some ts => Some (Idle, ts ++ [t])
          | None => None
          end
      | None =>
          match st with
          | Idle =>
              if N.eqb c 34 then Some (InString [], [])
              else if (is_digit c || N.eqb c 45)%bool then Some (InNumber [c], [])
              else if is_letter c then Some (InWord [c], [])
              else None
          | InNumber acc =>
              if is_number_char c then Some (InNumber (c :: acc), []) else None
          | InWord acc =>
              if is_letter c then Some (InWord (c :: acc), []) else None
          | _ => None
          end
      end
  end.

Fixpoint lex (st : lex_state) (acc : list token) (s : jsstring)
  : option (list token) :=
  match s with
  | [] =>
      match flush st with
      | Some ts => Some (acc ++ ts)
      | None => None
      end
  | c :: s' =>
      match lex_step st c with
      | Some (st', ts) => lex st' (acc ++ ts) s'
      | None => None
      end
  end.

Definition tokenize (s : jsstring) : option (list token) := lex Idle [] s.

Fixpoint parse_value (fuel : nat) (ts : list token)
  : option (json * list token) :=
  match fuel with
  | O => None
  | S f =>
      match ts with
      | TNull :: r => Some (JNull, r)
      | TTrue :: r => Some (JBool true, r)
      | TFalse :: r => Some (JBool false, r)
      | TNumber n :: r => Some (JNum n, r)
      | TString s :: r => Some (JStr s, r)
      | TLBracket :: TRBracket :: r => Some (JArr [], r)
      | TLBracket :: r => parse_elements f r []
      | TLBrace :: TRBrace :: r => Some (JObj [], r)
      | TLBrace :: r => parse_members f r []
      | _ => None
      end
  end
with parse_elements (fuel : nat) (ts : list token) (acc : list json)
  : option (json * list token) :=
  match fuel with
  | O => None
  | S f =>
      match parse_value f ts with
      | Some (v, TComma :: r) => parse_elements f r (v :: acc)
      | Some (v, TRBracket :: r) => Some (JArr (rev (v :: acc)), r)
      | _ => None
      end
  end
with parse_members (fuel : nat) (ts : list token) (acc : obj json)
  : option (json * list token) :=
  match fuel with
  | O => None
  | S f =>
      match ts with
      | TString k :: TColon :: r =>
          match parse_value f r with
          | Some (v, TComma :: r') => parse_members f r' (obj_set k v acc)
          | Some (v, TRBrace :: r') => Some (JObj (obj_set k v acc), r')
          | _ => None
          end
      | _ => None
      end
  end.

(** [JSON.parse(text)]: [None] stands for the SyntaxError it throws. *)
Definition JSON_parse (text : jsstring) : option json :=
  match tokenize text with
  | Some ts =>
      match parse_value (2 * List.length ts + 2) ts with
      | Some (v, []) => Some v
      | _ => None
      end
  | None => None
  end.

End Json.
Export Json.

(** ** Errors, the world and the monad of asynchronous code *)

Module Js.

Inductive error_name := Error_ | TypeError_ | SyntaxError_.

(** A thrown value: the properties that the code reads from it. An error of
    the remote client carries the HTTP status; [new Error(m)] has none. *)
Record JsError := mkJsError {
  name : error_name;
  status : option Z;
  message : option jsstring
}.

(** [new Error(m)] *)
Definition new_Error (m : string) : JsError :=
  mkJsError Error_ None (Some (js m)).

(** The TypeError of reading property [p] of undefined (V8's wording; the
    routes run on Node.js). *)
Definition TypeError_undefined (p : string) : JsError :=
  mkJsError TypeError_ None
    (Some (js "Cannot read properties of undefined (reading '"
           ++ js p ++ js "')")).

(** The decimal digits of a status code, as they appear in a message. *)
Definition decimal (n : Z) : jsstring :=
  js (NilZero.string_of_uint (N.to_uint (Z.to_N n))).

(** A failure of HTTP status [s] as the client of the model throws it
    (GoogleGenerativeAIFetchError): the status is a property of the error,
    and the message names it, as in
    "[503 Service Unavailable] The model is overloaded.". *)
Definition http_error (s : Z) (e : JsError) : Prop :=
  status e = Some s /\ opt_includes (message e) (decimal s) = true.

(** The prompt sent to the model: which template, and what is spliced in. *)
Inductive Prompt :=
| InsightsPrompt (industry : option jsstring)
| ImprovePrompt (type : option jsstring) (industry : option jsstring)
                (current : jsstring).

(** What [model.generateContent] resolves to, as far as the code reads it.
    [None] is undefined throughout. *)
Record Part := mkPart { part_text : option jsstring }.
Record Content := mkContent { parts : option (list Part) }.
Record Candidate := mkCandidate {
  finishReason : option jsstring;
  content : option Content
}.
Record Response := mkResponse {
  candidates : option (list Candidate);
  (** [response.text()]: the client throws, or returns a string (or
      undefined) *)
  text : JsError + option jsstring
}.
Record GenerateContentResult := mkResult { response : option Response }.

Inductive RemoteOutcome :=
| Rejects (e : JsError)
| Resolves (r : GenerateContentResult).

(** A value handed to the database client. *)
Inductive field :=
| FJson (j : json)
| FDate (ms : Z).

Inductive Event :=
| EvCall (p : Prompt)                               (* model.generateContent *)
| EvSleep (ms : Z)                                  (* setTimeout(resolve, ms) *)
| EvDbCreate (at_ms : Z) (data : obj field)         (* db.industryInsight.create *)
| EvDbUpdate (at_ms : Z) (industry : jsstring) (data : obj field).
                                                    (* db.industryInsight.update *)

Inductive LogLine :=
| LogRetry (n maxRetries delay : Z)
| LogAttempt (attempt : Z)
| LogAttemptFailed (attempt : Z) (m : option jsstring)
| LogImproved
| LogAllFailed (m : jsstring)
| LogGenerateFailed (m : option jsstring)
| LogFallback (industry : jsstring).

Record World := mkWorld {
  clock : Z;                (* Date.now() *)
  calls : nat;              (* remote calls made so far *)
  trace : list Event;       (* oldest first *)
  console : list LogLine    (* oldest first *)
}.

Definition init (now : Z) : World := mkWorld now 0 [] [].

Record User := mkUser {
  user_industry : option jsstring;
  industryInsight : option (obj field)
}.

(** The collaborators, which the code does not control. *)
Record Env := mkEnv {
  (** outcome of the k-th call of [model.generateContent] *)
  remote : nat -> RemoteOutcome;
  (** message of the SyntaxError that [JSON.parse] throws on a text *)
  syntaxErrorMessage : jsstring -> jsstring;
  (** [(await auth()).userId] *)
  auth_userId : option jsstring;
  (** [db.user.findUnique] for that user id *)
  db_user : option User;
  (** [db.industryInsight.findMany({select: {industry: true}})] *)
  db_industries : list jsstring
}.

(** How a computation ends. [OutOfFuel] is no outcome of the code: it
    marks a loop of the model that was given too few iterations, and the
    loops below are shown to be given enough. *)
Inductive Outcome (A : Type) :=
| Return (a : A)
| Throw (e : JsError)
| OutOfFuel.
Arguments Return {A} a.
Arguments Throw {A} e.
Arguments OutOfFuel {A}.

Definition M (A : Type) := Env -> World -> Outcome A * World.

Definition ret {A} (a : A) : M A := fun _ w => (Return a, w).
Definition throw {A} (e : JsError) : M A := fun _ w => (Throw e, w).

Definition bind {A B} (m : M A) (k : A -> M B) : M B :=
  fun env w =>
    match m env w with
    | (Return a, w') => k a env w'
    | (Throw e, w') => (Throw e, w')
    | (OutOfFuel, w') => (OutOfFuel, w')
    end.

(** [try { m } catch (error) { h error }] *)
Definition try_catch {A} (m : M A) (h : JsError -> M A) : M A :=
  fun env w =>
    match m env w with
    | (Throw e, w') => h e env w'
    | r => r
    end.

Definition ask : M Env := fun env w => (Return env, w).

(** The world after an event, a console line, a sleep. *)
Definition recorded (ev : Event) (w : World) : World :=
  mkWorld (clock w) (calls w) (trace w ++ [ev]) (console w).

Definition logged (l : LogLine) (w : World) : World :=
  mkWorld (clock w) (calls w) (trace w) (console w ++ [l]).

Definition slept (ms : Z) (w : World) : World :=
  mkWorld (clock w + ms) (calls w) (trace w ++ [EvSleep ms]) (console w).

Definition emit (ev : Event) : M unit :=
  fun _ w => (Return tt, recorded ev w).

Definition console_log (l : LogLine) : M unit :=
  fun _ w => (Return tt, logged l w).

(** [Date.now()] *)
Definition Date_now : M Z := fun _ w => (Return (clock w), w).

(** [await new Promise(resolve => setTimeout(resolve, ms))] *)
Definition sleep (ms : Z) : M unit :=
  fun _ w => (Return tt, slept ms w).

(** The world after one more remote call. *)
Definition called (p : Prompt) (w : World) : World :=
  mkWorld (clock w) (S (calls w)) (trace w ++ [EvCall p]) (console w).

(** The world after the log line and the sleep that precede a retry. *)
Definition backed_off (n maxRetries delay : Z) (w : World) : World :=
  slept delay (logged (LogRetry n maxRetries delay) w).

(** [await model.generateContent(prompt)] *)
Definition generateContent (p : Prompt) : M GenerateContentResult :=
  fun env w =>
    match remote env (calls w) with
    | Rejects e => (Throw e, called p w)
    | Resolves r => (Return r, called p w)
    end.

(** [JSON.parse(text)] as a computation. *)
Definition JSON_parse_M (t : jsstring) : M json :=
  fun env w =>
    match JSON_parse t with
    | Some v => (Return v, w)
    | None =>
        (Throw (mkJsError SyntaxError_ None (Some (syntaxErrorMessage env t))), w)
    end.

End Js.
Export Js.

Declare Scope js_scope.
Delimit Scope js_scope with js.
Notation "x <- m ;; k" := (bind m (fun x => k))
  (at level 61, m at next level, right associativity) : js_scope.
Notation "m ;;; k" := (bind m (fun _ => k))
  (at level 61, right associativity) : js_scope.
Open Scope js_scope.

(** ** What both insight generators share *)

Module Insights.

(** Decimal text of an array index, as a property key. *)
Definition index_key (n : N) : jsstring :=
  js (NilZero.string_of_uint (N.to_uint n)).

Fixpoint indexed_from {V} (i : N) (l : list V) : obj V :=
  match l with
  | [] => []
  | v :: l' => (index_key i, v) :: indexed_from (i + 1) l'
  end.

(** The own enumerable properties that [...insights] copies: the members of
    an object, the elements of an array and the code units of a string under
    their indices, nothing for null, booleans, numbers and undefined. *)
Definition spread (insights : option json) : obj field :=
  match insights with
  | Some (JObj members) => map (fun kv => (fst kv, FJson (snd kv))) members
  | Some (JArr elements) => indexed_from 0 (map FJson elements)
  | Some (JStr s) => indexed_from 0 (map (fun c => FJson (JStr [c])) s)
  | _ => []
  end.

(** [7 * 24 * 60 * 60 * 1000] *)
Definition refresh_interval : Z := 7 * 24 * 60 * 60 * 1000.

Definition industry_field (industry : option jsstring) : field :=
  match industry with
  | Some s => FJson (JStr s)
  | None => FJson JNull
  end.

(** The database calls. The client and the schema are collaborators: a call
    is recorded with the clock at which it is issued and taken to succeed. *)
Definition db_industryInsight_create (data : obj field) : M (obj field) :=
  now <- Date_now ;;
  emit (EvDbCreate now data) ;;;
  ret data.

Definition db_industryInsight_update (industry : jsstring) (data : obj field)
  : M unit :=
  now <- Date_now ;;
  emit (EvDbUpdate now industry data).

(** A database write whose [nextUpdate] is the clock of the write plus
    seven days; every other event passes. *)
Definition refresh_ok (ev : Event) : Prop :=
  match ev with
  | EvDbCreate at_ms data | EvDbUpdate at_ms _ data =>
      obj_get (js "nextUpdate") data
      = Some (FDate (at_ms + 7 * 24 * 60 * 60 * 1000))
  | _ => True
  end.

(** A computation that extends a trace of such writes by such writes. *)
Definition keeps_refresh {A} (m : M A) : Prop :=
  forall env w,
    Forall refresh_ok (trace w) -> Forall refresh_ok (trace (snd (m env w))).

End Insights.
Export Insights.

(** ** src/lib/inngest/function.js *)

Module Batch.

(** The [for] loop of [retryWithBackoff], from counter [i] on. The result is
    [None] (undefined) when the loop ends without returning. *)
Fixpoint retry_loop {A} (fuel : nat) (fn : M A) (maxRetries initialDelay i : Z)
  : M (option A) :=
  match fuel with
  | O => fun _ w => (OutOfFuel, w)
  | S fuel' =>
      if i <? maxRetries then
        try_catch (a <- fn ;; ret (Some a))
          (fun error =>
             if i =? maxRetries - 1 then throw error
             else
               match status error with
               | Some s =>
                   if ((s =? 503) || (s =? 429))%bool then
                     let delay := initialDelay * 2 ^ i in
                     console_log (LogRetry (i + 1) maxRetries delay) ;;;
                     sleep delay ;;;
                     retry_loop fuel' fn maxRetries initialDelay (i + 1)
                   else throw error
               | None => throw error
               end)
      else ret None
  end%Z.

Definition retryWithBackoff {A} (fn : M A) (maxRetries initialDelay : Z)
  : M (option A) :=
  retry_loop (S (Z.to_nat maxRetries)) fn maxRetries initialDelay 0.

(** The errors that the helper retries: [error.status === 503 ||
    error.status === 429]. *)
Definition rate_or_overload (e : JsError) : Prop :=
  status e = Some 503%Z \/ status e = Some 429%Z.

Definition undefined_at {A} (p : string) : M A := throw (TypeError_undefined p).

(** [res.response.candidates[0].content.parts[0].text || ""] *)
Definition response_text_of (res : option GenerateContentResult) : M jsstring :=
  match res with
  | None => undefined_at "response"
  | Some r =>
  match response r with
  | None => undefined_at "candidates"
  | Some resp =>
  match candidates resp with
  | None => undefined_at "0"
  | Some [] => undefined_at "content"
  | Some (c :: _) =>
  match content c with
  | None => undefined_at "parts"
  | Some ct =>
  match parts ct with
  | None => undefined_at "0"
  | Some [] => undefined_at "text"
  | Some (p :: _) =>
  match part_text p with
  | Some t => ret t
  | None => ret []
  end end end end end end.

(** The callback of [step.run(`generate-insights-${industry}`, ...)]. *)
Definition generate_insights_step (industry : jsstring)
  : M (jsstring * jsstring) :=
  res <- retryWithBackoff (generateContent (InsightsPrompt (Some industry))) 3 2000 ;;
  text <- response_text_of res ;;
  let cleanedText := cleanText text in
  insights <- JSON_parse_M cleanedText ;;
  lastUpdated <- Date_now ;;
  now <- Date_now ;;
  db_industryInsight_update industry
    (obj_set (js "nextUpdate") (FDate (now + refresh_interval))
       (obj_set (js "lastUpdated") (FDate lastUpdated)
          (obj_assign [] (spread (Some insights))))) ;;;
  ret (industry, js "updated").

(** [step.run(id, callback)]: the scheduling runtime runs the callback and
    hands back what it returns or throws. *)
Definition step_run {A} (callback : M A) : M A := callback.

Fixpoint for_each (industries : list jsstring) (body : jsstring -> M (jsstring * jsstring))
  : M unit :=
  match industries with
  | [] => ret tt
  | industry :: rest => body industry ;;; for_each rest body
  end.

(** The handler of the cron function. *)
Definition generateIndustryInsights : M (jsstring * Z) :=
  industries <- step_run (env <- ask ;; ret (db_industries env)) ;;
  for_each industries (fun industry => step_run (generate_insights_step industry)) ;;;
  ret (js "Industry insights generated successfully",
       Z.of_nat (List.length industries)).

End Batch.

(** ** The dashboard action *)

Module Dashboard.

(** The [for] loop of this module's [retryWithBackoff]. *)
Fixpoint retry_loop {A} (fuel : nat) (fn : M A) (maxRetries baseDelay i : Z)
  : M (option A) :=
  match fuel with
  | O => fun _ w => (OutOfFuel, w)
  | S fuel' =>
      if i <? maxRetries then
        try_catch (a <- fn ;; ret (Some a))
          (fun error =>
             let isLastRetry := i =? maxRetries - 1 in
             let isOverloaded :=
               (opt_includes (message error) (js "overloaded")
                || opt_includes (message error) (js "503"))%bool in
             if (isLastRetry || negb isOverloaded)%bool then throw error
             else
               let delay := baseDelay * 2 ^ i in
               console_log (LogRetry (i + 1) maxRetries delay) ;;;
               sleep delay ;;;
               retry_loop fuel' fn maxRetries baseDelay (i + 1))
      else ret None
  end%Z.

Definition retryWithBackoff {A} (fn : M A) (maxRetries baseDelay : Z)
  : M (option A) :=
  retry_loop (S (Z.to_nat maxRetries)) fn maxRetries baseDelay 0.

(** The errors that the helper retries: the message mentions the overload
    or the status 503. *)
Definition overloaded (e : JsError) : Prop :=
  opt_includes (message e) (js "overloaded") = true
  \/ opt_includes (message e) (js "503") = true.

Definition salaryRange (role : string) (min max median : string) : json :=
  JObj [(js "role", JStr (js role)); (js "min", JNum (js min));
        (js "max", JNum (js max)); (js "median", JNum (js median));
        (js "location", JStr (js "Global"))].

Definition strings (l : list string) : json :=
  JArr (map (fun s => JStr (js s)) l).

Local Open Scope string_scope.

(** The static record; the argument is not used. *)
Definition getFallbackInsights (industry : option jsstring) : json :=
  JObj [
    (js "salaryRanges", JArr [
       salaryRange "Entry Level" "40000" "60000" "50000";
       salaryRange "Mid Level" "60000" "90000" "75000";
       salaryRange "Senior Level" "90000" "130000" "110000";
       salaryRange "Lead/Manager" "110000" "160000" "135000";
       salaryRange "Director/VP" "140000" "200000" "170000"]);
    (js "growthRate", JNum (js "5"));
    (js "demandLevel", JStr (js "MEDIUM"));
    (js "topSkills", strings ["Communication"; "Problem Solving";
       "Technical Skills"; "Teamwork"; "Adaptability"]);
    (js "marketOutlook", JStr (js "POSITIVE"));
    (js "keyTrends", strings ["Digital Transformation"; "Remote Work";
       "AI Integration"; "Sustainability"; "Data-Driven Decision Making"]);
    (js "recommendedSkills", strings ["Leadership"; "Project Management";
       "Data Analysis"; "Cloud Computing"; "Agile Methodologies"])
  ].

(** The function handed to [retryWithBackoff]: one remote call, then the
    cleaning and the parsing of its text. *)
Definition generate_once (industry : option jsstring) : M json :=
  result <- generateContent (InsightsPrompt industry) ;;
  match response result with
  | None => throw (TypeError_undefined "text")
  | Some response =>
      match text response with
      | inl e => throw e
      | inr None => throw (TypeError_undefined "replace")
      | inr (Some text) =>
          let cleanedText := cleanText text in
          JSON_parse_M cleanedText
      end
  end.

(** [v] is what the cleaned text of some remote response parses to. *)
Definition parsed_from_remote (env : Env) (v : json) : Prop :=
  exists k r resp t,
    remote env k = Resolves r /\ response r = Some resp
    /\ text resp = inr (Some t) /\ JSON_parse (cleanText t) = Some v.

(** [retryWithBackoff] is called with its defaults, 3 and 1000. *)
Definition generateAIInsights (industry : option jsstring) : M (option json) :=
  try_catch (retryWithBackoff (generate_once industry) 3 1000)
    (fun error =>
       console_log (LogGenerateFailed (message error)) ;;;
       console_log (LogFallback (match industry with Some s => s | None => js "null" end)) ;;;
       ret (Some (getFallbackInsights industry))).

Definition getIndustryInsights : M (obj field) :=
  env <- ask ;;
  match auth_userId env with
  | None => throw (new_Error "Unauthorized")
  | Some userId =>
  match db_user env with
  | None => throw (new_Error "User not found")
  | Some user =>
      match industryInsight user with
      | None =>
          insights <- generateAIInsights (user_industry user) ;;
          now <- Date_now ;;
          db_industryInsight_create
            (obj_set (js "nextUpdate") (FDate (now + refresh_interval))
               (obj_assign [(js "industry", industry_field (user_industry user))]
                  (spread insights)))
      | Some insight => ret insight
      end
  end end.

End Dashboard.

(** ** The resume action *)

Module Resume.

(** [candidates && candidates[0]?.finishReason === "SAFETY"] *)
Definition safety_blocked (r : Response) : bool :=
  match candidates r with
  | Some (c :: _) =>
      match finishReason c with
      | Some reason => jsstring_eqb reason (js "SAFETY")
      | None => false
      end
  | _ => false
  end.

Definition blocked_error : JsError :=
  new_Error "Content was blocked by safety filters. Please try rephrasing.".

(** The body of the [try] block of one attempt. *)
Definition improve_attempt (prompt : Prompt) (attempt : Z) : M jsstring :=
  console_log (LogAttempt attempt) ;;;
  result <- generateContent prompt ;;
  match response result with
  | None => throw (new_Error "No response received from AI")
  | Some response =>
      if safety_blocked response then throw blocked_error
      else
        match text response with
        | inl e => throw e
        | inr t =>
            match option_map trim t with
            | Some (c :: improvedContent) =>
                console_log LogImproved ;;;
                ret (c :: improvedContent)
            | _ => throw (new_Error "AI returned empty response")
            end
        end
  end.

(** How the [for] loop is left: by [return], or by falling out of it (the
    [break], or the loop test) with [lastError]. *)
Inductive LoopExit :=
| Returned (improvedContent : jsstring)
| Left (lastError : option JsError).

Fixpoint improve_loop (fuel : nat) (prompt : Prompt) (maxRetries attempt : Z)
    (lastError : option JsError) : M LoopExit :=
  match fuel with
  | O => fun _ w => (OutOfFuel, w)
  | S fuel' =>
      if attempt <=? maxRetries then
        try_catch (c <- improve_attempt prompt attempt ;; ret (Returned c))
          (fun error =>
             console_log (LogAttemptFailed attempt (message error)) ;;;
             if attempt =? maxRetries then ret (Left (Some error))
             else
               sleep (1000 * attempt) ;;;
               improve_loop fuel' prompt maxRetries (attempt + 1) (Some error))
      else ret (Left lastError)
  end%Z.

(** [lastError?.message || "Unknown error"] *)
Definition errorMessage_of (lastError : option JsError) : jsstring :=
  match lastError with
  | Some e =>
      match message e with
      | Some (c :: m) => c :: m
      | _ => js "Unknown error"
      end
  | None => js "Unknown error"
  end.

(** What follows the loop when it is left without a result: the last error
    mapped to the error that the user sees. *)
Definition fail_with (lastError : option JsError) : M jsstring :=
  let errorMessage := errorMessage_of lastError in
  console_log (LogAllFailed errorMessage) ;;;
  if includes errorMessage (js "safety filters") then
    throw (new_Error "Content was flagged by safety filters. Please rephrase your description.")
  else if (includes errorMessage (js "quota")
           || includes errorMessage (js "rate limit"))%bool then
    throw (new_Error "API rate limit reached. Please wait a moment and try again.")
  else if (includes errorMessage (js "network")
           || includes errorMessage (js "fetch"))%bool then
    throw (new_Error "Network error. Please check your connection and try again.")
  else
    throw (new_Error "Failed to improve content. Please try again.").

Definition after_loop (exit : LoopExit) : M jsstring :=
  match exit with
  | Returned improvedContent => ret improvedContent
  | Left lastError => fail_with lastError
  end.

Definition improveWithAI (current type : option jsstring) : M jsstring :=
  env <- ask ;;
  match auth_userId env with
  | None => throw (new_Error "Unauthorized")
  | Some userId =>
  match db_user env with
  | None => throw (new_Error "User not found")
  | Some user =>
      match current with
      | None => throw (new_Error "Please provide content to improve")
      | Some current =>
      if (is_nil current || is_nil (trim current))%bool then
        throw (new_Error "Please provide content to improve")
      else
        let prompt := ImprovePrompt type (user_industry user) current in
        let maxRetries := 3%Z in
        exit <- improve_loop (S (Z.to_nat maxRetries)) prompt maxRetries 1 None ;;
        after_loop exit
      end
  end end.

End Resume.

(** ** Concrete collaborators, for running the code *)

Module Scenarios.

(** The JSON text of a string that holds three backticks. *)
Definition quoted_fence : jsstring := 34%N :: fence ++ [34%N].

Definition remote_error (st : Z) (m : string) : JsError :=
  mkJsError Error_ (Some st) (Some (js m)).

Definition e429 : JsError :=
  remote_error 429
    "[429 Too Many Requests] Resource has been exhausted (e.g. check quota).".

Definition e503 : JsError :=
  remote_error 503
    "[503 Service Unavailable] The model is overloaded. Please try again later.".

(** A generation that completed with the given text. *)
Definition completed (t : jsstring) : GenerateContentResult :=
  mkResult (Some (mkResponse
    (Some [mkCandidate (Some (js "STOP"))
             (Some (mkContent (Some [mkPart (Some t)])))])
    (inr (Some t)))).

(** A generation stopped by the safety policy. *)
Definition blocked : GenerateContentResult :=
  mkResult (Some (mkResponse
    (Some [mkCandidate (Some (js "SAFETY")) None])
    (inr None))).

Definition tech : jsstring := js "tech".

Definition a_user : User := mkUser (Some tech) None.

Definition env_of (r : nat -> RemoteOutcome) : Env :=
  mkEnv r (fun _ => js "Unexpected end of JSON input")
        (Some (js "user_1")) (Some a_user) [tech].

Definition always (o : RemoteOutcome) : nat -> RemoteOutcome := fun _ => o.

(** The outcomes of [l] in turn, then [o] for ever. *)
Definition in_turn (l : list RemoteOutcome) (o : RemoteOutcome)
  : nat -> RemoteOutcome :=
  fun k => nth k l o.

Definition empty_object : jsstring := js "{}".

Definition tech_prompt : Prompt := InsightsPrompt (Some tech).

Definition env_rate_limited : Env := env_of (always (Rejects e429)).

Definition env_overloaded : Env := env_of (always (Rejects e503)).

Definition env_third_time_lucky : Env :=
  env_of (in_turn [Rejects e503; Rejects e503]
            (Resolves (completed empty_object))).

(** A first answer that is no JSON, then answers that are. *)
Definition env_malformed_once : Env :=
  env_of (in_turn [Resolves (completed (js "Sure! Here are the insights."))]
            (Resolves (completed empty_object))).

Definition env_always_blocked : Env := env_of (always (Resolves blocked)).

(** A signed-in visitor of whom the database has no row. *)
Definition env_unknown_user : Env :=
  mkEnv (always (Resolves (completed empty_object)))
        (fun _ => js "Unexpected end of JSON input")
        (Some (js "user_2")) None [tech].

End Scenarios.

(** ** The shape of a retried call *)

Module Backoff.

(** The events of [n] attempts, the first numbered [i]: a remote call per
    attempt and, between two attempts, the sleep that the number of the
    earlier one gives. *)
Fixpoint attempts (p : Prompt) (delay : Z -> Z) (i : Z) (n : nat) : list Event :=
  match n with
  | O => []
  | S n' =>
      EvCall p ::
      match n' with
      | O => []
      | S _ => EvSleep (delay i) :: attempts p delay (i + 1) n'
      end
  end.

(** [baseDelay * Math.pow(2, i)] *)
Definition exponential (baseDelay : Z) : Z -> Z := fun i => (baseDelay * 2 ^ i)%Z.

(** [1000 * attempt] *)
Definition linear : Z -> Z := fun attempt => (1000 * attempt)%Z.

(** The milliseconds slept in a trace. *)
Fixpoint total_sleep (t : list Event) : Z :=
  match t with
  | [] => 0
  | EvSleep ms :: t' => ms + total_sleep t'
  | _ :: t' => total_sleep t'
  end%Z.

(** [setTimeout] takes a delay of 1 to 2^31 - 1 ms as it is; Node replaces
    any other by 1 ms. An event passes when it is no sleep outside of that
    range. *)
Definition within_timer (ev : Event) : Prop :=
  match ev with
  | EvSleep ms => (1 <= ms <= 2147483647)%Z
  | _ => True
  end.

(** The subjects of the update writes of a trace, oldest first. *)
Fixpoint updated_industries (t : list Event) : list jsstring :=
  match t with
  | [] => []
  | EvDbUpdate _ industry _ :: t' => industry :: updated_industries t'
  | _ :: t' => updated_industries t'
  end.

(** The tests by which the two helpers decide to retry, as booleans. *)
Definition status_retryable (e : JsError) : bool :=
  match status e with
  | Some s => ((s =? 503) || (s =? 429))%bool%Z
  | None => false
  end.

Definition message_retryable (e : JsError) : bool :=
  (opt_includes (message e) (js "overloaded")
   || opt_includes (message e) (js "503"))%bool.

(** The loop that the two helpers have in common, with the test that
    decides what is retried as a parameter. It is used to reason about
    both at once; each helper is shown to be an instance of it. *)
Fixpoint retry_loop {A} (retryable : JsError -> bool) (fuel : nat) (fn : M A)
    (maxRetries baseDelay i : Z) : M (option A) :=
  match fuel with
  | O => fun _ w => (OutOfFuel, w)
  | S fuel' =>
      if i <? maxRetries then
        try_catch (a <- fn ;; ret (Some a))
          (fun error =>
             if ((i =? maxRetries - 1) || negb (retryable error))%bool
             then throw error
             else
               console_log (LogRetry (i + 1) maxRetries (baseDelay * 2 ^ i)) ;;;
               sleep (baseDelay * 2 ^ i) ;;;
               retry_loop retryable fuel' fn maxRetries baseDelay (i + 1))
      else ret None
  end%Z.

(** A function that makes one remote call with prompt [p] and whose outcome
    is decided by the number of that call: [outcome k] at the k-th call. *)
Definition calls_once {A} (fn : M A) (env : Env) (p : Prompt)
    (outcome : nat -> Outcome A) : Prop :=
  forall w, fn env w = (outcome (calls w), called p w).

(** The outcome of the k-th [model.generateContent]. *)
Definition remote_outcome (env : Env) (k : nat) : Outcome GenerateContentResult :=
  match remote env k with
  | Rejects e => Throw e
  | Resolves r => Return r
  end.

(** The outcome of the k-th remote call as [Dashboard.generate_once] reads
    it: the text of the response, cleaned and parsed. *)
Definition generate_outcome (env : Env) (k : nat) : Outcome json :=
  match remote env k with
  | Rejects e => Throw e
  | Resolves r =>
      match response r with
      | None => Throw (TypeError_undefined "text")
      | Some resp =>
          match text resp with
          | inl e => Throw e
          | inr None => Throw (TypeError_undefined "replace")
          | inr (Some t) =>
              match JSON_parse (cleanText t) with
              | Some v => Return v
              | None =>
                  Throw (mkJsError SyntaxError_ None
                           (Some (syntaxErrorMessage env (cleanText t))))
              end
          end
      end
  end.

(** The outcome of the k-th remote call as one attempt of [improveWithAI]
    reads it. *)
Definition improve_outcome (env : Env) (k : nat) : Outcome jsstring :=
  match remote env k with
  | Rejects e => Throw e
  | Resolves r =>
      match response r with
      | None => Throw (new_Error "No response received from AI")
      | Some resp =>
          if Resume.safety_blocked resp then Throw Resume.blocked_error
          else
            match text resp with
            | inl e => Throw e
            | inr t =>
                match option_map trim t with
                | Some (c :: improvedContent) => Return (c :: improvedContent)
                | _ => Throw (new_Error "AI returned empty response")
                end
            end
      end
  end.

End Backoff.
Export Backoff.

(** ** What the calls return and write, in the words of the properties *)

Module Outcomes.

(** The errors that [improveWithAI] itself makes. *)
Definition improve_errors : list JsError :=
  map new_Error
    ["Unauthorized"%string; "User not found"%string;
     "Please provide content to improve"%string;
     "Content was flagged by safety filters. Please rephrase your description."%string;
     "API rate limit reached. Please wait a moment and try again."%string;
     "Network error. Please check your connection and try again."%string;
     "Failed to improve content. Please try again."%string].

(** [c] is the trimmed, non-empty text of a remote response that the safety
    policy did not block. *)
Definition improved_from_remote (env : Env) (c : jsstring) : Prop :=
  c <> []
  /\ exists k r resp t,
      remote env k = Resolves r /\ response r = Some resp
      /\ Resume.safety_blocked resp = false
      /\ text resp = inr (Some t) /\ c = trim t.

(** The k-th remote call resolves with a response whose first candidate
    has a text that parses once cleaned. *)
Definition parsable_response (env : Env) (k : nat) : Prop :=
  exists r t v,
    remote env k = Resolves r
    /\ (forall w, Batch.response_text_of (Some r) env w = (Return t, w))
    /\ JSON_parse (cleanText t) = Some v.

(** [({...insights})[k]] *)
Definition own_property (insights : option json) (k : jsstring) : option field :=
  obj_get k (obj_assign [] (spread insights)).

End Outcomes.
Export Outcomes.

(** ** The resume actions: saveResume, getResume

    These two use the database only. The tables are kept as lists of rows;
    [db.resume.upsert] with [where: {userId}] updates the row of that user or
    creates it, [findUnique] returns the row with the key or null. Whether
    the database or the revalidation of the page fails is up to the
    collaborators. *)

Module ResumeStore.

Record UserRow := mkUserRow {
  row_id : jsstring;
  row_clerkUserId : jsstring
}.

Record ResumeRow := mkResumeRow {
  resume_userId : jsstring;
  resume_content : jsstring
}.

Record Ctx := mkCtx {
  (** [(await auth()).userId] *)
  session : option jsstring;
  (** the table of users *)
  users : list UserRow;
  (** the error with which [db.resume.upsert] rejects, if it does *)
  upsert_fails : option JsError;
  (** the error that [revalidatePath] throws, if it does *)
  revalidate_fails : option JsError
}.

Record Store := mkStore {
  resumes : list ResumeRow;          (* the table of resumes *)
  revalidated : list jsstring;       (* paths revalidated, oldest first *)
  logged_errors : list JsError       (* console.error, oldest first *)
}.

(** [db.user.findUnique({where: {clerkUserId: userId}})] *)
Definition find_user (userId : jsstring) (us : list UserRow) : option UserRow :=
  find (fun u => jsstring_eqb (row_clerkUserId u) userId) us.

(** [db.resume.findUnique({where: {userId}})] *)
Definition find_resume (userId : jsstring) (rows : list ResumeRow)
  : option ResumeRow :=
  find (fun r => jsstring_eqb (resume_userId r) userId) rows.

(** [db.resume.upsert({where: {userId}, update: {content},
    create: {userId, content}})] on the table. *)
Fixpoint upsert (userId content : jsstring) (rows : list ResumeRow)
  : list ResumeRow :=
  match rows with
  | [] => [mkResumeRow userId content]
  | r :: rows' =>
      if jsstring_eqb (resume_userId r) userId
      then mkResumeRow (resume_userId r) content :: rows'
      else r :: upsert userId content rows'
  end.

Definition save_failed (error : JsError) (s : Store) : Outcome ResumeRow * Store :=
  (Throw (new_Error "Failed to save resume"),
   mkStore (resumes s) (revalidated s) (logged_errors s ++ [error])).

Definition saveResume (content : jsstring) (ctx : Ctx) (s : Store)
  : Outcome ResumeRow * Store :=
  match session ctx with
  | None => (Throw (new_Error "Unauthorized"), s)
  | Some userId =>
  match find_user userId (users ctx) with
  | None => (Throw (new_Error "User not found"), s)
  | Some user =>
      (* try *)
      match upsert_fails ctx with
      | Some error => save_failed error s
      | None =>
          let resume := mkResumeRow (row_id user) content in
          let s1 := mkStore (upsert (row_id user) content (resumes s))
                      (revalidated s) (logged_errors s) in
          match revalidate_fails ctx with
          | Some error => save_failed error s1
          | None =>
              (Return resume,
               mkStore (resumes s1) (revalidated s1 ++ [js "/resume"])
                 (logged_errors s1))
          end
      end
  end end.

Definition getResume (ctx : Ctx) (s : Store)
  : Outcome (option ResumeRow) * Store :=
  match session ctx with
  | None => (Throw (new_Error "Unauthorized"), s)
  | Some userId =>
  match find_user userId (users ctx) with
  | None => (Throw (new_Error "User not found"), s)
  | Some user => (Return (find_resume (row_id user) (resumes s)), s)
  end end.

(** At most one resume per user: the unique key of the table. *)
Fixpoint unique_users (rows : list ResumeRow) : Prop :=
  match rows with
  | [] => True
  | r :: rows' => find_resume (resume_userId r) rows' = None /\ unique_users rows'
  end.

End ResumeStore.

(** ** The database as a collaborator that can fail

    The sections above take every call of the database to resolve. The calls
    of the client return promises, which the job and the dashboard action
    await outside of any [try]: a rejection is thrown on to the caller. Here
    the outcome of each call is given by a [Database]; the job and the action
    are the same code over it, and the page calls the action. The session
    check is the one of the source, [!userId], which the empty string fails
    too. *)

Module WithDatabase.

Record Database := mkDatabase {
  (** [db.industryInsight.findMany({select: {industry: true}})] *)
  findMany_result : JsError + list jsstring;
  (** [db.industryInsight.update({where: {industry}, data})] *)
  update_result : jsstring -> obj field -> JsError + unit;
  (** [db.industryInsight.create({data})]: the row as stored *)
  create_result : obj field -> JsError + obj field;
  (** [db.user.findUnique({where: {clerkUserId}, include})] *)
  findUnique_result : jsstring -> JsError + option User
}.

(** Awaiting a promise that has settled. *)
Definition settle {A} (r : JsError + A) : M A :=
  match r with
  | inl e => throw e
  | inr a => ret a
  end.

(** A write is recorded when it is issued, whether it resolves or not. *)
Definition db_industryInsight_create (db : Database) (data : obj field)
  : M (obj field) :=
  now <- Date_now ;;
  emit (EvDbCreate now data) ;;;
  settle (create_result db data).

Definition db_industryInsight_update (db : Database) (industry : jsstring)
    (data : obj field) : M unit :=
  now <- Date_now ;;
  emit (EvDbUpdate now industry data) ;;;
  settle (update_result db industry data).

Definition generate_insights_step (db : Database) (industry : jsstring)
  : M (jsstring * jsstring) :=
  res <- Batch.retryWithBackoff
           (generateContent (InsightsPrompt (Some industry))) 3 2000 ;;
  text <- Batch.response_text_of res ;;
  let cleanedText := cleanText text in
  insights <- JSON_parse_M cleanedText ;;
  lastUpdated <- Date_now ;;
  now <- Date_now ;;
  db_industryInsight_update db industry
    (obj_set (js "nextUpdate") (FDate (now + refresh_interval))
       (obj_set (js "lastUpdated") (FDate lastUpdated)
          (obj_assign [] (spread (Some insights))))) ;;;
  ret (industry, js "updated").

Definition generateIndustryInsights (db : Database) : M (jsstring * Z) :=
  industries <- Batch.step_run (settle (findMany_result db)) ;;
  Batch.for_each industries
    (fun industry => Batch.step_run (generate_insights_step db industry)) ;;;
  ret (js "Industry insights generated successfully",
       Z.of_nat (List.length industries)).

Definition getIndustryInsights (db : Database) : M (obj field) :=
  env <- ask ;;
  match auth_userId env with
  | None | Some [] => throw (new_Error "Unauthorized")
  | Some userId =>
      user <- settle (findUnique_result db userId) ;;
      match user with
      | None => throw (new_Error "User not found")
      | Some user =>
          match industryInsight user with
          | None =>
              insights <- Dashboard.generateAIInsights (user_industry user) ;;
              now <- Date_now ;;
              db_industryInsight_create db
                (obj_set (js "nextUpdate") (FDate (now + refresh_interval))
                   (obj_assign
                      [(js "industry", industry_field (user_industry user))]
                      (spread insights)))
          | Some insight => ret insight
          end
      end
  end.

(** The database of the sections above: what the environment holds, and
    writes that resolve, a create with the data it was given. *)
Definition reliable (env : Env) : Database :=
  mkDatabase (inr (db_industries env)) (fun _ _ => inr tt)
             (fun data => inr data) (fun _ => inr (db_user env)).

End WithDatabase.

(** ** The dashboard page *)

Module Page.

Inductive View :=
| DashboardView (insights : obj field).

(** [redirect(path)] of the framework does not return: it throws the
    signal that carries the path. *)
Definition redirect {A} (path : string) : M A :=
  throw (mkJsError Error_ None (Some (js "NEXT_REDIRECT;" ++ js path))).

(** [getUserOnboardingStatus] belongs to another file of the actions; the
    page is given it. It resolves to [isOnboarded]. *)
Definition DashboardPage (db : WithDatabase.Database)
    (getUserOnboardingStatus : M bool) : M View :=
  env <- ask ;;
  match auth_userId env with
  | None | Some [] => redirect "/sign-in"
  | Some (_ :: _) =>
      isOnboarded <- getUserOnboardingStatus ;;
      if isOnboarded then
        insights <- WithDatabase.getIndustryInsights db ;;
        ret (DashboardView insights)
      else redirect "/onboarding"
  end.

End Page.

(** ** More concrete collaborators *)

Module Runs.

Import Scenarios ResumeStore.

Definition e403 : JsError := remote_error 403 "[403 Forbidden] API key not valid.".

(** Three failures that the batch helper retries, then a success. *)
Definition env_flaky : Env :=
  env_of (in_turn [Rejects e503; Rejects e429; Rejects e503]
            (Resolves (completed empty_object))).

(** An overload, then a refusal of the key. *)
Definition env_forbidden_second : Env :=
  env_of (in_turn [Rejects e503] (Rejects e403)).

Definition finance : jsstring := js "finance".

(** Two subjects, and responses that parse at once. *)
Definition env_two_subjects : Env :=
  mkEnv (always (Resolves (completed empty_object)))
        (fun _ => js "Unexpected end of JSON input")
        (Some (js "user_1")) (Some a_user) [tech; finance].

Definition improved_text : jsstring := js " Led a team of five. ".

(** Two rejections of different kinds, then an improved text. *)
Definition env_improves_third : Env :=
  env_of (in_turn [Rejects e429; Rejects e403]
            (Resolves (completed improved_text))).

Definition draft : jsstring := js "led team".

Definition draft_prompt : Prompt :=
  ImprovePrompt (Some (js "experience")) (Some tech) draft.

(** A stored insight. *)
Definition stored_insight : obj field := [(js "industry", FJson (JStr tech))].

(** A database whose writes resolve; a created row gets an id. *)
Definition db_up : WithDatabase.Database :=
  WithDatabase.mkDatabase (inr [tech; finance]) (fun _ _ => inr tt)
    (fun data => inr (obj_set (js "id") (FJson (JStr (js "insight_1"))) data))
    (fun _ => inr (Some a_user)).

(** The same with the insight of the user stored. *)
Definition db_stored : WithDatabase.Database :=
  WithDatabase.mkDatabase (inr [tech; finance]) (fun _ _ => inr tt)
    (fun data => inr data)
    (fun _ => inr (Some (mkUser (Some tech) (Some stored_insight)))).

Definition record_not_found : JsError :=
  new_Error "An operation failed because it depends on one or more records that were required but not found.".

(** The row of the second subject has been deleted since it was listed. *)
Definition db_finance_deleted : WithDatabase.Database :=
  WithDatabase.mkDatabase (inr [tech; finance; js "health"])
    (fun industry _ =>
       if jsstring_eqb industry finance then inl record_not_found else inr tt)
    (fun data => inr data) (fun _ => inr (Some a_user)).

Definition unique_constraint : JsError :=
  new_Error "Unique constraint failed on the fields: (industry)".

(** The user has no insight yet, and another user of the same industry has
    had it created: [industry] is unique among the insights. *)
Definition db_industry_taken : WithDatabase.Database :=
  WithDatabase.mkDatabase (inr [tech]) (fun _ _ => inr tt)
    (fun _ => inl unique_constraint) (fun _ => inr (Some a_user)).

(** A signed-in user, and responses that parse at once. *)
Definition env_parsable : Env :=
  env_of (always (Resolves (completed empty_object))).

(** A visitor without a session. *)
Definition env_signed_out : Env :=
  mkEnv (always (Resolves (completed empty_object)))
        (fun _ => js "Unexpected end of JSON input") None None [tech].

Definition alice : UserRow := mkUserRow (js "u1") (js "clerk_a").
Definition bob : UserRow := mkUserRow (js "u2") (js "clerk_b").

Definition ctx_alice : Ctx := mkCtx (Some (js "clerk_a")) [alice; bob] None None.

Definition ctx_alice_db_down : Ctx :=
  mkCtx (Some (js "clerk_a")) [alice; bob]
        (Some (new_Error "Can't reach database server")) None.

Definition ctx_alice_revalidation_down : Ctx :=
  mkCtx (Some (js "clerk_a")) [alice; bob] None
        (Some (new_Error "Invariant: static generation store missing")).

Definition store_bob : Store :=
  mkStore [mkResumeRow (js "u2") (js "Bob's resume")] [] [].

End Runs.

(** * Properties *)

(** ** Strings and JSON texts *)

Section StringFacts.

Local Open Scope N_scope.

Lemma whitespace_range c :
  is_whitespace c = true -> c <= 32 \/ 160 <= c.
Proof.
  unfold is_whitespace, in_range.
  rewrite !orb_true_iff, !andb_true_iff, !N.eqb_eq, !N.leb_le. lia.
Qed.

Lemma whitespace_not_quote c : is_whitespace c = true -> N.eqb c 34 = false.
Proof. intros H. apply whitespace_range in H. apply N.eqb_neq. lia. Qed.

Lemma whitespace_not_structural c :
  is_whitespace c = true -> structural c = None.
Proof.
  intros H. apply whitespace_range in H. unfold structural.
  repeat match goal with
         | |- context [N.eqb c ?k] =>
             destruct (N.eqb_spec c k); [exfalso; lia|]
         end.
  reflexivity.
Qed.

Lemma whitespace_not_digit c : is_whitespace c = true -> is_digit c = false.
Proof.
  intros H. apply whitespace_range in H. unfold is_digit, in_range.
  apply andb_false_iff. rewrite !N.leb_gt. lia.
Qed.

Lemma whitespace_not_letter c : is_whitespace c = true -> is_letter c = false.
Proof.
  intros H. apply whitespace_range in H. unfold is_letter, in_range.
  apply andb_false_iff. rewrite !N.leb_gt. lia.
Qed.

Lemma whitespace_not_number_char c :
  is_whitespace c = true -> is_number_char c = false.
Proof.
  intros H. unfold is_number_char. rewrite (whitespace_not_digit _ H).
  apply whitespace_range in H. simpl.
  repeat match goal with
         | |- context [N.eqb c ?k] =>
             destruct (N.eqb_spec c k); [exfalso; lia|]
         end.
  reflexivity.
Qed.

Lemma trim_start_split s :
  exists w, all_whitespace w /\ s = w ++ trim_start s.
Proof.
  induction s as [|c s [w [Hw Hs]]].
  - exists []. split; [constructor | reflexivity].
  - simpl. destruct (is_whitespace c) eqn:Hc.
    + exists (c :: w). split; [constructor; assumption|].
      simpl. congruence.
    + exists []. split; [constructor | reflexivity].
Qed.

Lemma trim_end_split s :
  exists w, all_whitespace w /\ s = trim_end s ++ w.
Proof.
  destruct (trim_start_split (rev s)) as [w [Hw Hs]].
  exists (rev w). split.
  - apply Forall_rev. assumption.
  - unfold trim_end. rewrite <- rev_app_distr, <- Hs, rev_involutive.
    reflexivity.
Qed.

Lemma trim_end_LF t : trim_end (t ++ [LF]) = trim_end t.
Proof. unfold trim_end. rewrite rev_app_distr. reflexivity. Qed.

Lemma trim_LF t : trim (t ++ [LF]) = trim t.
Proof. unfold trim. rewrite trim_end_LF. reflexivity. Qed.

Lemma starts_with_fence_app t r :
  starts_with fence (t ++ LF :: r) = starts_with fence t.
Proof.
  destruct t as [|a [|b [|c t]]]; simpl;
    repeat match goal with
           | |- context [N.eqb ?x ?y] => destruct (N.eqb x y); simpl
           end; reflexivity.
Qed.

Lemma strip_fences_closing t :
  has_fence t = false ->
  strip_fences_from 0 (t ++ LF :: fence) = t ++ [LF].
Proof.
  induction t as [|c t IH]; intros H.
  - reflexivity.
  - change (has_fence (c :: t))
      with (starts_with fence (c :: t) || has_fence t)%bool in H.
    apply orb_false_iff in H. destruct H as [Hc Ht].
    change ((c :: t) ++ LF :: fence) with (c :: (t ++ LF :: fence)).
    cbn [strip_fences_from]. unfold fence_match_length.
    change (c :: (t ++ LF :: fence)) with ((c :: t) ++ LF :: fence).
    rewrite starts_with_fence_app, Hc. rewrite IH by assumption.
    reflexivity.
Qed.

Lemma cleanText_fenced t :
  has_fence t = false -> cleanText (fenced t) = trim t.
Proof.
  intros H. unfold cleanText, strip_fences.
  change (strip_fences_from 0 (fenced t))
    with (strip_fences_from 0 (t ++ LF :: fence)).
  rewrite strip_fences_closing by assumption. apply trim_LF.
Qed.

End StringFacts.

Section LexerFacts.

Local Open Scope N_scope.

(** A whitespace character either closes the pending token, exactly as the
    end of the input would, or leaves the lexer inside a string. *)
Lemma lex_step_whitespace st c st' ts :
  is_whitespace c = true ->
  lex_step st c = Some (st', ts) ->
  match st with
  | Idle | InNumber _ | InWord _ => st' = Idle /\ flush st = Some ts
  | _ => flush st' = None
  end.
Proof.
  intros Hc Hstep.
  assert (Hws : (if is_json_ws c then
                   match flush st with Some r => Some (Idle, r) | None => None end
                 else None) = Some (st', ts) ->
                st' = Idle /\ flush st = Some ts).
  { intros H. destruct (is_json_ws c); [|discriminate].
    destruct (flush st); inversion H; subst. split; reflexivity. }
  destruct st as [|a|a|a|a|a ds]; simpl in Hstep.
  - apply Hws.
    destruct (is_json_ws c); [exact Hstep|].
    rewrite (whitespace_not_structural _ Hc), (whitespace_not_quote _ Hc),
      (whitespace_not_digit _ Hc), (whitespace_not_letter _ Hc) in Hstep.
    simpl in Hstep.
    destruct (N.eqb_spec c 45) as [E|E];
      [apply whitespace_range in Hc; lia | exact Hstep].
  - apply Hws.
    destruct (is_json_ws c); [exact Hstep|].
    rewrite (whitespace_not_structural _ Hc),
      (whitespace_not_number_char _ Hc) in Hstep. exact Hstep.
  - apply Hws.
    destruct (is_json_ws c); [exact Hstep|].
    rewrite (whitespace_not_structural _ Hc),
      (whitespace_not_letter _ Hc) in Hstep. exact Hstep.
  - rewrite (whitespace_not_quote _ Hc) in Hstep.
    destruct (N.eqb c 92); [inversion Hstep; reflexivity|].
    destruct (N.ltb c 32); [discriminate|].
    inversion Hstep; reflexivity.
  - destruct (N.eqb c 117); [inversion Hstep; reflexivity|].
    destruct (escape c); [|discriminate]. inversion Hstep; reflexivity.
  - destruct (is_hex c); [|discriminate].
    destruct ds as [|d3 [|d2 [|d1 [|d0 ds]]]]; inversion Hstep; reflexivity.
Qed.

Lemma lex_whitespace_end w :
  all_whitespace w ->
  forall st acc ts, lex st acc w = Some ts -> lex st acc [] = Some ts.
Proof.
  induction 1 as [|c w Hc Hw IH]; intros st acc ts H.
  - exact H.
  - simpl in H. destruct (lex_step st c) as [[st' tsx]|] eqn:Hstep;
      [|discriminate].
    apply IH in H. simpl in H |- *.
    pose proof (lex_step_whitespace _ _ Hc Hstep) as Hf.
    destruct st; try (rewrite Hf in H; discriminate);
      destruct Hf as [-> Hf]; rewrite Hf; simpl in H;
      rewrite app_nil_r in H; exact H.
Qed.

Lemma lex_trailing_whitespace core w :
  all_whitespace w ->
  forall st acc ts, lex st acc (core ++ w) = Some ts -> lex st acc core = Some ts.
Proof.
  intros Hw. induction core as [|c core IH]; intros st acc ts H.
  - apply (lex_whitespace_end Hw). exact H.
  - simpl in H |- *. destruct (lex_step st c) as [[st' tsx]|];
      [apply IH; exact H | discriminate].
Qed.

Lemma lex_leading_whitespace w :
  all_whitespace w ->
  forall acc r ts, lex Idle acc (w ++ r) = Some ts -> lex Idle acc r = Some ts.
Proof.
  induction 1 as [|c w Hc Hw IH]; intros acc r ts H.
  - exact H.
  - simpl app in H. cbn [lex] in H.
    destruct (lex_step Idle c) as [[st' tsx]|] eqn:Hstep; [|discriminate].
    destruct (lex_step_whitespace _ _ Hc Hstep) as [-> Hf].
    simpl in Hf. inversion Hf; subst. rewrite app_nil_r in H.
    apply IH. exact H.
Qed.

Lemma tokenize_trim s ts : tokenize s = Some ts -> tokenize (trim s) = Some ts.
Proof.
  unfold tokenize, trim. intros H.
  destruct (trim_end_split s) as [w2 [Hw2 Hs]].
  destruct (trim_start_split (trim_end s)) as [w1 [Hw1 He]].
  rewrite Hs in H. apply (lex_trailing_whitespace _ Hw2) in H.
  rewrite He in H. apply (lex_leading_whitespace Hw1) in H. exact H.
Qed.

Lemma JSON_parse_trim s v : JSON_parse s = Some v -> JSON_parse (trim s) = Some v.
Proof.
  unfold JSON_parse. intros H.
  destruct (tokenize s) as [ts|] eqn:Hts; [|discriminate].
  rewrite (tokenize_trim _ Hts). exact H.
Qed.

End LexerFacts.

(** ** The monad *)

Section MonadFacts.

Lemma generateContent_rejects p env w e :
  remote env (calls w) = Rejects e ->
  generateContent p env w = (Throw e, called p w).
Proof. intros H. unfold generateContent. rewrite H. reflexivity. Qed.

Lemma generateContent_resolves p env w r :
  remote env (calls w) = Resolves r ->
  generateContent p env w = (Return r, called p w).
Proof. intros H. unfold generateContent. rewrite H. reflexivity. Qed.

Lemma jsstring_eqb_refl k : jsstring_eqb k k = true.
Proof.
  induction k as [|c k IH]; [reflexivity|].
  simpl. rewrite N.eqb_refl. exact IH.
Qed.

Lemma obj_get_set V k (v : V) o : obj_get k (obj_set k v o) = Some v.
Proof.
  induction o as [|[k' v'] o IH]; simpl.
  - rewrite jsstring_eqb_refl. reflexivity.
  - destruct (jsstring_eqb k' k) eqn:E; simpl; rewrite E; [reflexivity | exact IH].
Qed.

End MonadFacts.

(** ** The retry helpers *)

Section RetryFacts.

Import Scenarios.

(** C9: for every maxRetries <= 0 the batch retry helper resolves to
    undefined and its function is never called (the world, which records
    every remote call, is unchanged); reading [.response] of that result, as
    the batch step does next, throws a TypeError. *)
Theorem batch_retry_without_attempts :
  forall (A : Type) (fn : M A) (maxRetries initialDelay : Z) env w,
    (maxRetries <= 0)%Z ->
    Batch.retryWithBackoff fn maxRetries initialDelay env w = (Return None, w)
    /\ Batch.response_text_of None env w
       = (Throw (TypeError_undefined "response"), w).
Proof.
  intros A fn maxRetries initialDelay env w H. split; [|reflexivity].
  unfold Batch.retryWithBackoff. cbn [Batch.retry_loop].
  destruct (Z.ltb_spec 0 maxRetries); [lia | reflexivity].
Qed.

Lemma batch_retry_without_attempts_witness :
  Batch.retryWithBackoff (generateContent (InsightsPrompt (Some tech))) 0 2000
    (env_of (always (Resolves (completed empty_object)))) (init 0)
  = (Return None, init 0)
  /\ Batch.response_text_of None
       (env_of (always (Resolves (completed empty_object)))) (init 0)
     = (Throw (TypeError_undefined "response"), init 0).
Proof.
  apply (@batch_retry_without_attempts _
           (generateContent (InsightsPrompt (Some tech))) 0 2000). lia.
Defined.

(** The equations of the batch loop, one per way through its body. *)

Lemma batch_loop_done A fuel (fn : M A) maxRetries d i env w :
  (maxRetries <= i)%Z ->
  Batch.retry_loop (S fuel) fn maxRetries d i env w = (Return None, w).
Proof.
  intros H. cbn [Batch.retry_loop].
  destruct (Z.ltb_spec i maxRetries); [lia | reflexivity].
Qed.

Lemma batch_loop_return A fuel (fn : M A) maxRetries d i env w a w1 :
  (i < maxRetries)%Z ->
  fn env w = (Return a, w1) ->
  Batch.retry_loop (S fuel) fn maxRetries d i env w = (Return (Some a), w1).
Proof.
  intros H Hfn. cbn [Batch.retry_loop].
  destruct (Z.ltb_spec i maxRetries); [|lia].
  unfold try_catch, bind. rewrite Hfn. reflexivity.
Qed.

Lemma batch_loop_last A fuel (fn : M A) maxRetries d i env w e w1 :
  (i = maxRetries - 1)%Z ->
  fn env w = (Throw e, w1) ->
  Batch.retry_loop (S fuel) fn maxRetries d i env w = (Throw e, w1).
Proof.
  intros H Hfn. cbn [Batch.retry_loop].
  destruct (Z.ltb_spec i maxRetries); [|lia].
  unfold try_catch, bind. rewrite Hfn.
  destruct (Z.eqb_spec i (maxRetries - 1)); [reflexivity | lia].
Qed.

Lemma batch_loop_fatal A fuel (fn : M A) maxRetries d i env w e w1 :
  (i < maxRetries)%Z ->
  fn env w = (Throw e, w1) ->
  ~ Batch.rate_or_overload e ->
  Batch.retry_loop (S fuel) fn maxRetries d i env w = (Throw e, w1).
Proof.
  intros H Hfn He. cbn [Batch.retry_loop].
  destruct (Z.ltb_spec i maxRetries); [|lia].
  unfold try_catch, bind. rewrite Hfn.
  destruct (Z.eqb_spec i (maxRetries - 1)); [reflexivity|].
  unfold Batch.rate_or_overload in He.
  destruct (status e) as [s|]; [|reflexivity].
  destruct (Z.eqb_spec s 503); [subst; tauto|].
  destruct (Z.eqb_spec s 429); [subst; tauto|]. reflexivity.
Qed.

Lemma batch_loop_retry A fuel (fn : M A) maxRetries d i env w e w1 :
  (i < maxRetries - 1)%Z ->
  fn env w = (Throw e, w1) ->
  Batch.rate_or_overload e ->
  Batch.retry_loop (S fuel) fn maxRetries d i env w =
  Batch.retry_loop fuel fn maxRetries d (i + 1) env
    (backed_off (i + 1) maxRetries (d * 2 ^ i) w1).
Proof.
  intros H Hfn He. cbn [Batch.retry_loop].
  destruct (Z.ltb_spec i maxRetries); [|lia].
  unfold try_catch at 1. unfold bind at 1. rewrite Hfn.
  destruct (Z.eqb_spec i (maxRetries - 1)); [lia|].
  assert (Hs : match status e with
               | Some s => ((s =? 503) || (s =? 429))%bool%Z = true
               | None => False
               end).
  { destruct He as [-> | ->]; reflexivity. }
  destruct (status e) as [s|]; [|contradiction]. rewrite Hs.
  reflexivity.
Qed.

(** The same for the loop of the dashboard action. *)

Lemma dashboard_loop_return A fuel (fn : M A) maxRetries d i env w a w1 :
  (i < maxRetries)%Z ->
  fn env w = (Return a, w1) ->
  Dashboard.retry_loop (S fuel) fn maxRetries d i env w = (Return (Some a), w1).
Proof.
  intros H Hfn. cbn [Dashboard.retry_loop].
  destruct (Z.ltb_spec i maxRetries); [|lia].
  unfold try_catch, bind. rewrite Hfn. reflexivity.
Qed.

Lemma dashboard_loop_last A fuel (fn : M A) maxRetries d i env w e w1 :
  (i = maxRetries - 1)%Z ->
  fn env w = (Throw e, w1) ->
  Dashboard.retry_loop (S fuel) fn maxRetries d i env w = (Throw e, w1).
Proof.
  intros H Hfn. cbn [Dashboard.retry_loop].
  destruct (Z.ltb_spec i maxRetries); [|lia].
  unfold try_catch, bind. rewrite Hfn.
  destruct (Z.eqb_spec i (maxRetries - 1)); [reflexivity | lia].
Qed.

Lemma dashboard_loop_fatal A fuel (fn : M A) maxRetries d i env w e w1 :
  (i < maxRetries)%Z ->
  fn env w = (Throw e, w1) ->
  opt_includes (message e) (js "overloaded") = false ->
  opt_includes (message e) (js "503") = false ->
  Dashboard.retry_loop (S fuel) fn maxRetries d i env w = (Throw e, w1).
Proof.
  intros H Hfn H1 H2. cbn [Dashboard.retry_loop].
  destruct (Z.ltb_spec i maxRetries); [|lia].
  unfold try_catch, bind. rewrite Hfn, H1, H2.
  rewrite orb_true_r. reflexivity.
Qed.

Lemma dashboard_loop_retry A fuel (fn : M A) maxRetries d i env w e w1 :
  (i < maxRetries - 1)%Z ->
  fn env w = (Throw e, w1) ->
  Dashboard.overloaded e ->
  Dashboard.retry_loop (S fuel) fn maxRetries d i env w =
  Dashboard.retry_loop fuel fn maxRetries d (i + 1) env
    (backed_off (i + 1) maxRetries (d * 2 ^ i) w1).
Proof.
  intros H Hfn He. cbn [Dashboard.retry_loop].
  destruct (Z.ltb_spec i maxRetries); [|lia].
  unfold try_catch at 1. unfold bind at 1. rewrite Hfn.
  destruct (Z.eqb_spec i (maxRetries - 1)); [lia|].
  assert (Hs : (opt_includes (message e) (js "overloaded")
                || opt_includes (message e) (js "503"))%bool = true).
  { apply orb_true_iff. exact He. }
  rewrite Hs. reflexivity.
Qed.

Lemma generate_once_rejects industry env w e :
  remote env (calls w) = Rejects e ->
  Dashboard.generate_once industry env w
  = (Throw e, called (InsightsPrompt industry) w).
Proof.
  intros H. unfold Dashboard.generate_once, bind.
  rewrite (generateContent_rejects _ _ _ H). reflexivity.
Qed.

(** The traces of three attempts with two sleeps in between. *)
Lemma three_attempts_trace (t : list Event) p d1 d2 :
  ((((t ++ [EvCall p]) ++ [EvSleep d1]) ++ [EvCall p]) ++ [EvSleep d2])
    ++ [EvCall p]
  = t ++ [EvCall p; EvSleep d1; EvCall p; EvSleep d2; EvCall p].
Proof. rewrite <- !app_assoc. reflexivity. Qed.

Lemma batch_retry_third_attempt p d env w e1 e2 :
  Batch.rate_or_overload e1 -> Batch.rate_or_overload e2 ->
  remote env (calls w) = Rejects e1 ->
  remote env (S (calls w)) = Rejects e2 ->
  Batch.retryWithBackoff (generateContent p) 3 d env w =
  Batch.retry_loop 2 (generateContent p) 3 d 2 env
    (backed_off 2 3 (d * 2) (called p (backed_off 1 3 (d * 1) (called p w)))).
Proof.
  intros H1 H2 R1 R2. unfold Batch.retryWithBackoff.
  change (S (Z.to_nat 3)) with 4%nat.
  rewrite (@batch_loop_retry _ _ _ _ _ _ _ _ e1 (called p w));
    [| lia | apply generateContent_rejects; exact R1 | exact H1].
  rewrite (@batch_loop_retry _ _ _ _ _ _ _ _ e2
             (called p (backed_off 1 3 (d * 1) (called p w))));
    [| lia | apply generateContent_rejects; exact R2 | exact H2].
  reflexivity.
Qed.

Lemma dashboard_retry_third_attempt A (fn : M A) p d env w e1 e2 :
  Dashboard.overloaded e1 -> Dashboard.overloaded e2 ->
  fn env w = (Throw e1, called p w) ->
  fn env (backed_off 1 3 (d * 1) (called p w))
  = (Throw e2, called p (backed_off 1 3 (d * 1) (called p w))) ->
  Dashboard.retryWithBackoff fn 3 d env w =
  Dashboard.retry_loop 2 fn 3 d 2 env
    (backed_off 2 3 (d * 2) (called p (backed_off 1 3 (d * 1) (called p w)))).
Proof.
  intros H1 H2 R1 R2. unfold Dashboard.retryWithBackoff.
  change (S (Z.to_nat 3)) with 4%nat.
  rewrite (@dashboard_loop_retry _ _ _ _ _ _ _ _ e1 (called p w));
    [| lia | exact R1 | exact H1].
  rewrite (@dashboard_loop_retry _ _ _ _ _ _ _ _ e2
             (called p (backed_off 1 3 (d * 1) (called p w))));
    [| lia | exact R2 | exact H2].
  reflexivity.
Qed.

(** C6: when the remote call fails with status 503 on the first two
    attempts and succeeds on the third, each of the two retry helpers, called
    with maxRetries = 3, returns the successful result after exactly three
    remote calls, with sleeps of baseDelay * 1 and baseDelay * 2 in between.
    The failures are those of the client ([http_error]): the batch helper
    reads their status, the dashboard helper reads the "503" of their
    message. *)
Theorem retry_succeeds_on_third_attempt :
  forall p d env w e1 e2 r,
    remote env (calls w) = Rejects e1 ->
    remote env (S (calls w)) = Rejects e2 ->
    remote env (S (S (calls w))) = Resolves r ->
    http_error 503 e1 ->
    http_error 503 e2 ->
    (let out := Batch.retryWithBackoff (generateContent p) 3 d env w in
     fst out = Return (Some r)
     /\ trace (snd out)
        = trace w ++ [EvCall p; EvSleep (d * 1); EvCall p; EvSleep (d * 2);
                      EvCall p])
    /\ (let out := Dashboard.retryWithBackoff (generateContent p) 3 d env w in
        fst out = Return (Some r)
        /\ trace (snd out)
           = trace w ++ [EvCall p; EvSleep (d * 1); EvCall p; EvSleep (d * 2);
                         EvCall p]).
Proof.
  intros p d env w e1 e2 r R1 R2 R3 [S1 M1] [S2 M2]. split.
  - intros out. subst out.
    rewrite (@batch_retry_third_attempt p d env w e1 e2);
      [| left; exact S1 | left; exact S2 | exact R1 | exact R2].
    erewrite batch_loop_return;
      [| lia | apply generateContent_resolves; exact R3].
    split; [reflexivity | apply three_attempts_trace].
  - intros out. subst out.
    rewrite (@dashboard_retry_third_attempt _ _ p d env w e1 e2);
      [| right; exact M1 | right; exact M2
       | apply generateContent_rejects; exact R1
       | apply generateContent_rejects; exact R2].
    erewrite dashboard_loop_return;
      [| lia | apply generateContent_resolves; exact R3].
    split; [reflexivity | apply three_attempts_trace].
Qed.

Lemma generate_once_parse_failure industry env w r resp t :
  remote env (calls w) = Resolves r ->
  response r = Some resp ->
  text resp = inr (Some t) ->
  JSON_parse (cleanText t) = None ->
  Dashboard.generate_once industry env w
  = (Throw (mkJsError SyntaxError_ None
              (Some (syntaxErrorMessage env (cleanText t)))),
     called (InsightsPrompt industry) w).
Proof.
  intros R Hr Ht Hp. unfold Dashboard.generate_once, bind.
  rewrite (generateContent_resolves _ _ _ R), Hr, Ht.
  unfold JSON_parse_M. rewrite Hp. reflexivity.
Qed.

Lemma generateAIInsights_falls_back industry env w e w1 :
  Dashboard.retryWithBackoff (Dashboard.generate_once industry) 3 1000 env w
  = (Throw e, w1) ->
  let out := Dashboard.generateAIInsights industry env w in
  fst out = Return (Some (Dashboard.getFallbackInsights industry))
  /\ trace (snd out) = trace w1 /\ clock (snd out) = clock w1.
Proof.
  intros H out. subst out. unfold Dashboard.generateAIInsights, try_catch.
  rewrite H. repeat split; reflexivity.
Qed.

Lemma generateAIInsights_returns industry env w a w1 :
  Dashboard.retryWithBackoff (Dashboard.generate_once industry) 3 1000 env w
  = (Return a, w1) ->
  Dashboard.generateAIInsights industry env w = (Return a, w1).
Proof.
  intros H. unfold Dashboard.generateAIInsights, try_catch.
  rewrite H. reflexivity.
Qed.

(** The first failure that the dashboard helper does not take for an
    overload ends [generateAIInsights] with the fallback, after one call. *)
Lemma generateAIInsights_first_failure_fatal industry env w e :
  Dashboard.generate_once industry env w
  = (Throw e, called (InsightsPrompt industry) w) ->
  opt_includes (message e) (js "overloaded") = false ->
  opt_includes (message e) (js "503") = false ->
  let out := Dashboard.generateAIInsights industry env w in
  fst out = Return (Some (Dashboard.getFallbackInsights industry))
  /\ trace (snd out) = trace w ++ [EvCall (InsightsPrompt industry)].
Proof.
  intros Hfn H1 H2.
  assert (Hretry :
    Dashboard.retryWithBackoff (Dashboard.generate_once industry) 3 1000 env w
    = (Throw e, called (InsightsPrompt industry) w)).
  { unfold Dashboard.retryWithBackoff. change (S (Z.to_nat 3)) with 4%nat.
    apply dashboard_loop_fatal; [lia | exact Hfn | exact H1 | exact H2]. }
  destruct (generateAIInsights_falls_back _ _ _ Hretry) as [Hv [Ht _]].
  split; [exact Hv | exact Ht].
Qed.

(** C3, amended: when every remote call fails with status 429 (and a
    message that mentions neither "overloaded" nor "503"), the batch retry
    helper called with maxRetries = 3 and a base delay of 1000 makes exactly
    three attempts with sleeps of 1000 and 2000 in between and throws the 429
    error, while [generateAIInsights] makes exactly one attempt, does not
    sleep, and returns the static fallback. *)
Theorem rate_limited_outcomes :
  forall industry env w e,
    (forall k, remote env k = Rejects e) ->
    status e = Some 429%Z ->
    opt_includes (message e) (js "overloaded") = false ->
    opt_includes (message e) (js "503") = false ->
    let p := InsightsPrompt industry in
    (let out := Batch.retryWithBackoff (generateContent p) 3 1000 env w in
     fst out = Throw e
     /\ trace (snd out)
        = trace w ++ [EvCall p; EvSleep 1000; EvCall p; EvSleep 2000; EvCall p])
    /\ (let out := Dashboard.generateAIInsights industry env w in
        fst out = Return (Some (Dashboard.getFallbackInsights industry))
        /\ trace (snd out) = trace w ++ [EvCall p]).
Proof.
  intros industry env w e R S429 H1 H2 p. split.
  - intros out. subst out.
    rewrite (@batch_retry_third_attempt p 1000 env w e e);
      [| right; exact S429 | right; exact S429 | apply R | apply R].
    erewrite batch_loop_last;
      [| reflexivity | apply generateContent_rejects; apply R].
    split; [reflexivity | apply three_attempts_trace].
  - apply generateAIInsights_first_failure_fatal with (e := e);
      [apply generate_once_rejects; apply R | exact H1 | exact H2].
Qed.

Lemma rate_limited_outcomes_witness :
  (fst (Batch.retryWithBackoff (generateContent tech_prompt) 3 1000
          env_rate_limited (init 0)) = Throw e429
   /\ trace (snd (Batch.retryWithBackoff (generateContent tech_prompt) 3 1000
                    env_rate_limited (init 0)))
      = [EvCall tech_prompt; EvSleep 1000; EvCall tech_prompt; EvSleep 2000;
         EvCall tech_prompt])
  /\ (fst (Dashboard.generateAIInsights (Some tech) env_rate_limited (init 0))
      = Return (Some (Dashboard.getFallbackInsights (Some tech)))
      /\ trace (snd (Dashboard.generateAIInsights (Some tech) env_rate_limited
                       (init 0)))
         = [EvCall tech_prompt]).
Proof.
  exact (@rate_limited_outcomes (Some tech) env_rate_limited (init 0) e429
           (fun _ => eq_refl) eq_refl eq_refl eq_refl).
Defined.

(** Every remote call is rate limited, and [generateAIInsights] does not
    make three attempts with sleeps of 1000 and 2000. *)
Lemma rate_limited_dashboard_single_attempt :
  (forall k, remote env_rate_limited k = Rejects e429)
  /\ status e429 = Some 429%Z
  /\ trace (snd (Dashboard.generateAIInsights (Some tech) env_rate_limited
                   (init 0)))
     <> [EvCall tech_prompt; EvSleep 1000; EvCall tech_prompt; EvSleep 2000;
         EvCall tech_prompt].
Proof.
  split; [reflexivity|]. split; [reflexivity|]. vm_compute. discriminate.
Qed.

Lemma retry_succeeds_on_third_attempt_witness :
  (fst (Batch.retryWithBackoff (generateContent tech_prompt) 3 1000
          env_third_time_lucky (init 0))
   = Return (Some (completed empty_object))
   /\ trace (snd (Batch.retryWithBackoff (generateContent tech_prompt) 3 1000
                    env_third_time_lucky (init 0)))
      = [EvCall tech_prompt; EvSleep (1000 * 1); EvCall tech_prompt;
         EvSleep (1000 * 2); EvCall tech_prompt])
  /\ (fst (Dashboard.retryWithBackoff (generateContent tech_prompt) 3 1000
             env_third_time_lucky (init 0))
      = Return (Some (completed empty_object))
      /\ trace (snd (Dashboard.retryWithBackoff (generateContent tech_prompt) 3
                       1000 env_third_time_lucky (init 0)))
         = [EvCall tech_prompt; EvSleep (1000 * 1); EvCall tech_prompt;
            EvSleep (1000 * 2); EvCall tech_prompt]).
Proof.
  exact (@retry_succeeds_on_third_attempt tech_prompt 1000
           env_third_time_lucky (init 0) e503 e503 (completed empty_object)
           eq_refl eq_refl eq_refl (conj eq_refl eq_refl)
           (conj eq_refl eq_refl)).
Defined.

(** *** The batch job *)

Lemma for_each_throws body done industry rest env e w1 :
  forall w0 w,
    Batch.for_each done body env w0 = (Return tt, w) ->
    body industry env w = (Throw e, w1) ->
    Batch.for_each (done ++ industry :: rest) body env w0 = (Throw e, w1).
Proof.
  induction done as [|d done IH]; intros w0 w Hdone Hstep.
  - inversion Hdone; subst. cbn [app Batch.for_each]. unfold bind.
    rewrite Hstep. reflexivity.
  - cbn [app Batch.for_each] in Hdone |- *. unfold bind in Hdone |- *.
    destruct (body d env w0) as [[x|e'|] w'];
      [| discriminate | discriminate].
    fold (bind (body industry) (fun _ => Batch.for_each rest body)).
    apply (IH w' w Hdone Hstep).
Qed.

(** The job stops at the first step that throws, with what it threw. *)
Lemma job_step_throws env w0 w done industry rest e w1 :
  db_industries env = done ++ industry :: rest ->
  Batch.for_each done Batch.generate_insights_step env w0 = (Return tt, w) ->
  Batch.generate_insights_step industry env w = (Throw e, w1) ->
  Batch.generateIndustryInsights env w0 = (Throw e, w1).
Proof.
  intros Hdb Hdone Hstep.
  unfold Batch.generateIndustryInsights, Batch.step_run.
  unfold bind at 1 2. unfold ask, ret. rewrite Hdb.
  unfold bind.
  change (fun industry0 : jsstring => Batch.generate_insights_step industry0)
    with Batch.generate_insights_step.
  erewrite for_each_throws; [reflexivity | exact Hdone | exact Hstep].
Qed.

Lemma step_exhausts industry env w e1 e2 e3 :
  Batch.rate_or_overload e1 -> Batch.rate_or_overload e2 ->
  remote env (calls w) = Rejects e1 ->
  remote env (S (calls w)) = Rejects e2 ->
  remote env (S (S (calls w))) = Rejects e3 ->
  let p := InsightsPrompt (Some industry) in
  Batch.generate_insights_step industry env w
  = (Throw e3,
     called p (backed_off 2 3 (2000 * 2)
                 (called p (backed_off 1 3 (2000 * 1) (called p w))))).
Proof.
  intros H1 H2 R1 R2 R3 p. subst p.
  unfold Batch.generate_insights_step. unfold bind at 1.
  rewrite (@batch_retry_third_attempt _ 2000 env w e1 e2 H1 H2 R1 R2).
  erewrite batch_loop_last;
    [| reflexivity | apply generateContent_rejects; exact R3].
  reflexivity.
Qed.

Lemma step_parse_failure industry env w r t :
  remote env (calls w) = Resolves r ->
  (forall w', Batch.response_text_of (Some r) env w' = (Return t, w')) ->
  JSON_parse (cleanText t) = None ->
  Batch.generate_insights_step industry env w
  = (Throw (mkJsError SyntaxError_ None
              (Some (syntaxErrorMessage env (cleanText t)))),
     called (InsightsPrompt (Some industry)) w).
Proof.
  intros R Ht Hp.
  unfold Batch.generate_insights_step. unfold bind at 1.
  unfold Batch.retryWithBackoff. change (S (Z.to_nat 3)) with 4%nat.
  erewrite batch_loop_return;
    [| lia | apply generateContent_resolves; exact R].
  unfold bind at 1. rewrite Ht.
  unfold bind at 1. unfold JSON_parse_M. rewrite Hp. reflexivity.
Qed.

(** C1, amended: in the batch job nothing catches what a step throws and
    there is no fallback. For every subject that the job comes to (the steps
    of the subjects before it have completed), when the remote call exhausts
    the three attempts of the retry helper (two retried failures of status
    503 or 429, then a third failure), the step of that subject throws the
    last error and so does the job; when the text of the response fails to
    parse, the step and the job throw the SyntaxError after that single
    remote call. In both cases nothing is written for the subject. *)
Theorem batch_job_propagates_failure :
  forall env w0 w done industry rest,
    db_industries env = done ++ industry :: rest ->
    Batch.for_each done Batch.generate_insights_step env w0 = (Return tt, w) ->
    let p := InsightsPrompt (Some industry) in
    (forall e1 e2 e3,
        Batch.rate_or_overload e1 -> Batch.rate_or_overload e2 ->
        remote env (calls w) = Rejects e1 ->
        remote env (S (calls w)) = Rejects e2 ->
        remote env (S (S (calls w))) = Rejects e3 ->
        let out := Batch.generateIndustryInsights env w0 in
        fst out = Throw e3
        /\ trace (snd out)
           = trace w ++ [EvCall p; EvSleep 2000; EvCall p; EvSleep 4000;
                         EvCall p])
    /\ (forall r t,
          remote env (calls w) = Resolves r ->
          (forall w', Batch.response_text_of (Some r) env w' = (Return t, w')) ->
          JSON_parse (cleanText t) = None ->
          let out := Batch.generateIndustryInsights env w0 in
          fst out = Throw (mkJsError SyntaxError_ None
                             (Some (syntaxErrorMessage env (cleanText t))))
          /\ trace (snd out) = trace w ++ [EvCall p]).
Proof.
  intros env w0 w done industry rest Hdb Hdone p. split.
  - intros e1 e2 e3 H1 H2 R1 R2 R3 out. subst out.
    erewrite job_step_throws;
      [| exact Hdb | exact Hdone
       | exact (@step_exhausts industry env w e1 e2 e3 H1 H2 R1 R2 R3)].
    split; [reflexivity | apply three_attempts_trace].
  - intros r t R Ht Hp out. subst out.
    erewrite job_step_throws;
      [| exact Hdb | exact Hdone
       | exact (@step_parse_failure industry env w r t R Ht Hp)].
    split; reflexivity.
Qed.

Lemma batch_job_propagates_failure_witness :
  (fst (Batch.generateIndustryInsights env_overloaded (init 0)) = Throw e503
   /\ trace (snd (Batch.generateIndustryInsights env_overloaded (init 0)))
      = [EvCall tech_prompt; EvSleep 2000; EvCall tech_prompt; EvSleep 4000;
         EvCall tech_prompt])
  /\ (fst (Batch.generateIndustryInsights env_malformed_once (init 0))
      = Throw (mkJsError SyntaxError_ None
                 (Some (js "Unexpected end of JSON input")))
      /\ trace (snd (Batch.generateIndustryInsights env_malformed_once (init 0)))
         = [EvCall tech_prompt]).
Proof.
  split.
  - apply (proj1 (@batch_job_propagates_failure env_overloaded (init 0) (init 0)
                    [] tech [] eq_refl eq_refl) e503 e503 e503);
      solve [left; reflexivity | reflexivity].
  - apply (proj2 (@batch_job_propagates_failure env_malformed_once (init 0)
                    (init 0) [] tech [] eq_refl eq_refl)
             (completed (js "Sure! Here are the insights."))
             (js "Sure! Here are the insights."));
      solve [reflexivity | intros; reflexivity].
Defined.

(** Every remote call fails with status 503: the job does not complete and
    no fallback record is written. *)
Lemma batch_job_fails_on_exhaustion :
  (forall k, remote env_overloaded k = Rejects e503)
  /\ ~ (exists result,
          fst (Batch.generateIndustryInsights env_overloaded (init 0))
          = Return result)
  /\ ~ (exists at_ms industry data,
          In (EvDbUpdate at_ms industry data)
             (trace (snd (Batch.generateIndustryInsights env_overloaded
                            (init 0))))).
Proof.
  split; [reflexivity|]. split.
  - intros [result H]. vm_compute in H. discriminate.
  - intros [at_ms [industry [data H]]]. vm_compute in H.
    repeat (destruct H as [H|H]; [discriminate|]). exact H.
Qed.

(** *** The dashboard action *)

(** C5, amended: a response text that fails to parse is not retried. In
    [generateAIInsights] the SyntaxError (with a message that mentions
    neither "overloaded" nor "503") is rethrown by the retry helper at the
    first attempt, although two attempts remain, and the fallback is
    returned after that single remote call and without a sleep. In the
    batch step the text is parsed after the retry helper has returned: the
    SyntaxError leaves the step after that single remote call. *)
Theorem parse_failure_not_retried :
  forall industry env w r t,
    remote env (calls w) = Resolves r ->
    JSON_parse (cleanText t) = None ->
    (forall resp,
        response r = Some resp ->
        text resp = inr (Some t) ->
        includes (syntaxErrorMessage env (cleanText t)) (js "overloaded") = false ->
        includes (syntaxErrorMessage env (cleanText t)) (js "503") = false ->
        let out := Dashboard.generateAIInsights industry env w in
        fst out = Return (Some (Dashboard.getFallbackInsights industry))
        /\ trace (snd out) = trace w ++ [EvCall (InsightsPrompt industry)])
    /\ (forall subject,
          (forall w', Batch.response_text_of (Some r) env w' = (Return t, w')) ->
          let out := Batch.generate_insights_step subject env w in
          fst out = Throw (mkJsError SyntaxError_ None
                             (Some (syntaxErrorMessage env (cleanText t))))
          /\ trace (snd out) = trace w ++ [EvCall (InsightsPrompt (Some subject))]).
Proof.
  intros industry env w r t R Hp. split.
  - intros resp Hr Ht H1 H2.
    eapply generateAIInsights_first_failure_fatal;
      [ apply (generate_once_parse_failure industry _ _ R Hr Ht Hp)
      | exact H1 | exact H2 ].
  - intros subject Ht out. subst out.
    rewrite (step_parse_failure subject _ _ R Ht Hp). split; reflexivity.
Qed.

Lemma parse_failure_not_retried_witness :
  (fst (Dashboard.generateAIInsights (Some tech) env_malformed_once (init 0))
   = Return (Some (Dashboard.getFallbackInsights (Some tech)))
   /\ trace (snd (Dashboard.generateAIInsights (Some tech) env_malformed_once
                    (init 0)))
      = [EvCall tech_prompt])
  /\ (fst (Batch.generate_insights_step tech env_malformed_once (init 0))
      = Throw (mkJsError SyntaxError_ None
                 (Some (js "Unexpected end of JSON input")))
      /\ trace (snd (Batch.generate_insights_step tech env_malformed_once
                       (init 0)))
         = [EvCall tech_prompt]).
Proof.
  destruct (@parse_failure_not_retried (Some tech) env_malformed_once (init 0)
              (completed (js "Sure! Here are the insights."))
              (js "Sure! Here are the insights.") eq_refl eq_refl)
    as [Hd Hb].
  split.
  - eapply Hd; reflexivity.
  - apply Hb. intros w'. reflexivity.
Defined.

(** The first answer is no JSON and two attempts remain, the next answer
    would parse: no second attempt is made. *)
Lemma malformed_output_single_attempt :
  remote env_malformed_once 0
  = Resolves (completed (js "Sure! Here are the insights."))
  /\ JSON_parse (cleanText (js "Sure! Here are the insights.")) = None
  /\ remote env_malformed_once 1 = Resolves (completed empty_object)
  /\ JSON_parse (cleanText empty_object) = Some (JObj [])
  /\ calls (snd (Dashboard.generateAIInsights (Some tech) env_malformed_once
                   (init 0))) = 1%nat
  /\ ~ (exists rest,
          trace (snd (Dashboard.generateAIInsights (Some tech)
                        env_malformed_once (init 0)))
          = EvCall tech_prompt :: EvSleep 1000 :: EvCall tech_prompt :: rest).
Proof.
  repeat (split; [reflexivity|]).
  intros [rest H]. vm_compute in H. discriminate.
Qed.

Lemma generate_once_outcome industry env w :
  match Dashboard.generate_once industry env w with
  | (Return v, _) => Dashboard.parsed_from_remote env v
  | (Throw _, _) => True
  | (OutOfFuel, _) => False
  end.
Proof.
  unfold Dashboard.generate_once, bind, generateContent.
  destruct (remote env (calls w)) as [e|r] eqn:R; [exact I|].
  destruct (response r) as [resp|] eqn:Hr; [|exact I].
  destruct (text resp) as [e|[t|]] eqn:Ht; try exact I.
  unfold JSON_parse_M.
  destruct (JSON_parse (cleanText t)) as [v|] eqn:Hp; [|exact I].
  exists (calls w), r, resp, t. auto.
Qed.

(** What the loop of the dashboard helper can end with, given what its
    function can end with; the fuel is enough for the iterations left. *)
Lemma dashboard_loop_outcome A (fn : M A) (P : A -> Prop) env maxRetries d :
  (forall w, match fn env w with
             | (Return a, _) => P a
             | (Throw _, _) => True
             | (OutOfFuel, _) => False
             end) ->
  forall fuel i w,
    (Z.to_nat (maxRetries - i) < fuel)%nat ->
    match Dashboard.retry_loop fuel fn maxRetries d i env w with
    | (Return (Some a), _) => P a
    | (Return None, _) => (maxRetries <= i)%Z
    | (Throw _, _) => True
    | (OutOfFuel, _) => False
    end.
Proof.
  intros Hfn. induction fuel as [|fuel IH]; intros i w Hfuel; [lia|].
  cbn [Dashboard.retry_loop].
  destruct (Z.ltb_spec i maxRetries) as [Hi|Hi]; [|exact Hi].
  unfold try_catch at 1. unfold bind at 1.
  specialize (Hfn w). destruct (fn env w) as [[a|e|] w1].
  - exact Hfn.
  - destruct (Z.eqb_spec i (maxRetries - 1)) as [Hlast|Hlast]; [exact I|].
    cbn [orb].
    match goal with
    | |- context [if negb ?b then _ else _] => destruct b
    end; [|exact I].
    cbn [negb]. unfold bind, console_log, sleep.
    match goal with
    | |- context [Dashboard.retry_loop fuel fn maxRetries d (i + 1) env ?w'] =>
        specialize (IH (i + 1)%Z w')
    end.
    destruct (Dashboard.retry_loop fuel fn maxRetries d (i + 1) env _)
      as [[[a|]|e'|] w2]; try (apply IH; lia).
    assert (maxRetries <= i + 1)%Z by (apply IH; lia). lia.
  - exact Hfn.
Qed.

(** The batch helper likewise: with the fuel that [retryWithBackoff] gives
    it, the loop ends by itself for every maxRetries. *)
Lemma batch_loop_outcome A (fn : M A) (P : A -> Prop) env maxRetries d :
  (forall w, match fn env w with
             | (Return a, _) => P a
             | (Throw _, _) => True
             | (OutOfFuel, _) => False
             end) ->
  forall fuel i w,
    (Z.to_nat (maxRetries - i) < fuel)%nat ->
    match Batch.retry_loop fuel fn maxRetries d i env w with
    | (Return (Some a), _) => P a
    | (Return None, _) => (maxRetries <= i)%Z
    | (Throw _, _) => True
    | (OutOfFuel, _) => False
    end.
Proof.
  intros Hfn. induction fuel as [|fuel IH]; intros i w Hfuel; [lia|].
  cbn [Batch.retry_loop].
  destruct (Z.ltb_spec i maxRetries) as [Hi|Hi]; [|exact Hi].
  unfold try_catch at 1. unfold bind at 1.
  specialize (Hfn w). destruct (fn env w) as [[a|e|] w1].
  - exact Hfn.
  - destruct (Z.eqb_spec i (maxRetries - 1)) as [Hlast|Hlast]; [exact I|].
    destruct (status e) as [s|]; [|exact I].
    destruct ((s =? 503) || (s =? 429))%bool%Z; [|exact I].
    unfold bind, console_log, sleep.
    match goal with
    | |- context [Batch.retry_loop fuel fn maxRetries d (i + 1) env ?w'] =>
        specialize (IH (i + 1)%Z w')
    end.
    destruct (Batch.retry_loop fuel fn maxRetries d (i + 1) env _)
      as [[[a|]|e'|] w2]; try (apply IH; lia).
    assert (maxRetries <= i + 1)%Z by (apply IH; lia). lia.
  - exact Hfn.
Qed.

Lemma batch_retry_terminates p maxRetries d env w :
  fst (Batch.retryWithBackoff (generateContent p) maxRetries d env w)
  <> OutOfFuel.
Proof.
  pose proof (@batch_loop_outcome _ (generateContent p) (fun _ => True) env
                maxRetries d) as H.
  unfold Batch.retryWithBackoff.
  specialize (fun Hfn => H Hfn (S (Z.to_nat maxRetries)) 0%Z w).
  destruct (Batch.retry_loop (S (Z.to_nat maxRetries)) (generateContent p)
              maxRetries d 0 env w) as [[a|e|] w1]; try discriminate.
  intros _. apply H.
  - intros w'. unfold generateContent. destruct (remote env (calls w')); exact I.
  - rewrite Z.sub_0_r. lia.
Qed.

(** C2: for every industry and whatever the remote calls do,
    [generateAIInsights] returns a value, which is either what the cleaned
    text of a remote response parsed to or the static fallback record; it
    never throws. *)
Theorem generateAIInsights_never_throws :
  forall industry env w,
  exists v,
    fst (Dashboard.generateAIInsights industry env w) = Return (Some v)
    /\ (Dashboard.parsed_from_remote env v
        \/ v = Dashboard.getFallbackInsights industry).
Proof.
  intros industry env w.
  pose proof (@dashboard_loop_outcome _ (Dashboard.generate_once industry)
                (Dashboard.parsed_from_remote env) env 3 1000
                (generate_once_outcome industry env) 4%nat 0%Z w) as H.
  assert (Hfuel : (Z.to_nat (3 - 0) < 4)%nat) by (simpl; lia).
  specialize (H Hfuel). clear Hfuel.
  unfold Dashboard.generateAIInsights, try_catch, Dashboard.retryWithBackoff.
  change (S (Z.to_nat 3)) with 4%nat.
  destruct (Dashboard.retry_loop 4 (Dashboard.generate_once industry) 3 1000 0
              env w) as [[[v|]|e|] w1].
  - exists v. split; [reflexivity | left; exact H].
  - exfalso. lia.
  - exists (Dashboard.getFallbackInsights industry).
    split; [reflexivity | right; reflexivity].
  - contradiction.
Qed.

End RetryFacts.

(** ** The resume action *)

Section ResumeFacts.

Import Scenarios.

Lemma trim_start_all_whitespace s : all_whitespace s -> trim_start s = [].
Proof.
  induction 1 as [|c s Hc Hs IH]; [reflexivity|].
  simpl. rewrite Hc. exact IH.
Qed.

Lemma trim_all_whitespace s : all_whitespace s -> trim s = [].
Proof.
  intros H. unfold trim, trim_end.
  rewrite (trim_start_all_whitespace (Forall_rev H)). reflexivity.
Qed.

(** C10, amended: for a signed-in user ([auth()] gives an id, which is not
    the empty string), when [current] is absent, empty or made of whitespace
    only, [improveWithAI] makes no remote call, no sleep and no retry (it
    leaves the world as it was) and throws: "Please provide content to
    improve" when the database knows the user, "User not found" when it does
    not, since the lookup of the user precedes the validation of the
    content. *)
Theorem improveWithAI_validates_input :
  forall env w current type userId,
    auth_userId env = Some userId ->
    userId <> [] ->
    (current = None \/ exists s, current = Some s /\ all_whitespace s) ->
    Resume.improveWithAI current type env w
    = (Throw (match db_user env with
              | Some _ => new_Error "Please provide content to improve"
              | None => new_Error "User not found"
              end), w).
Proof.
  intros env w current type userId Ha _ Hc.
  unfold Resume.improveWithAI, bind, ask. rewrite Ha.
  destruct (db_user env) as [user|]; [|reflexivity].
  destruct Hc as [-> | [s [-> Hs]]]; [reflexivity|].
  rewrite (trim_all_whitespace Hs). cbn [is_nil].
  rewrite orb_true_r. reflexivity.
Qed.

Lemma improveWithAI_validates_input_witness :
  Resume.improveWithAI (Some (js "  ")) (Some (js "experience"))
    env_third_time_lucky (init 0)
  = (Throw (new_Error "Please provide content to improve"), init 0).
Proof.
  apply (@improveWithAI_validates_input env_third_time_lucky (init 0)
           (Some (js "  ")) (Some (js "experience")) (js "user_1") eq_refl).
  - discriminate.
  - right. exists (js "  "). split; [reflexivity|].
    repeat constructor.
Defined.

(** A signed-in visitor of whom the database has no row submits blank
    content: the error is "User not found", not "Please provide content to
    improve". *)
Lemma improveWithAI_unknown_user_blank_content :
  auth_userId env_unknown_user = Some (js "user_2")
  /\ all_whitespace (js "  ")
  /\ fst (Resume.improveWithAI (Some (js "  ")) (Some (js "experience"))
            env_unknown_user (init 0))
     = Throw (new_Error "User not found")
  /\ fst (Resume.improveWithAI (Some (js "  ")) (Some (js "experience"))
            env_unknown_user (init 0))
     <> Throw (new_Error "Please provide content to improve").
Proof.
  split; [reflexivity|]. split; [repeat constructor|].
  split; [reflexivity|]. vm_compute. discriminate.
Qed.

(** The equations of the loop of [improveWithAI]. *)

Lemma improve_loop_return fuel p maxRetries attempt lastError env w c w1 :
  (attempt <= maxRetries)%Z ->
  Resume.improve_attempt p attempt env w = (Return c, w1) ->
  Resume.improve_loop (S fuel) p maxRetries attempt lastError env w
  = (Return (Resume.Returned c), w1).
Proof.
  intros H Hfn. cbn [Resume.improve_loop].
  destruct (Z.leb_spec attempt maxRetries); [|lia].
  unfold try_catch, bind. rewrite Hfn. reflexivity.
Qed.

Lemma improve_loop_last fuel p maxRetries attempt lastError env w e w1 :
  (attempt = maxRetries)%Z ->
  Resume.improve_attempt p attempt env w = (Throw e, w1) ->
  Resume.improve_loop (S fuel) p maxRetries attempt lastError env w
  = (Return (Resume.Left (Some e)),
     logged (LogAttemptFailed attempt (message e)) w1).
Proof.
  intros H Hfn. cbn [Resume.improve_loop].
  destruct (Z.leb_spec attempt maxRetries); [|lia].
  unfold try_catch at 1. unfold bind at 1. rewrite Hfn.
  unfold bind, console_log.
  destruct (Z.eqb_spec attempt maxRetries); [reflexivity | lia].
Qed.

Lemma improve_loop_retry fuel p maxRetries attempt lastError env w e w1 :
  (attempt < maxRetries)%Z ->
  Resume.improve_attempt p attempt env w = (Throw e, w1) ->
  Resume.improve_loop (S fuel) p maxRetries attempt lastError env w
  = Resume.improve_loop fuel p maxRetries (attempt + 1) (Some e) env
      (slept (1000 * attempt)
         (logged (LogAttemptFailed attempt (message e)) w1)).
Proof.
  intros H Hfn. cbn [Resume.improve_loop].
  destruct (Z.leb_spec attempt maxRetries); [|lia].
  unfold try_catch at 1. unfold bind at 1. rewrite Hfn.
  unfold bind at 1. unfold console_log at 1.
  destruct (Z.eqb_spec attempt maxRetries); [lia | reflexivity].
Qed.

Lemma improve_attempt_blocked p attempt env w r resp :
  remote env (calls w) = Resolves r ->
  response r = Some resp ->
  Resume.safety_blocked resp = true ->
  Resume.improve_attempt p attempt env w
  = (Throw Resume.blocked_error, called p (logged (LogAttempt attempt) w)).
Proof.
  intros R Hr Hb. unfold Resume.improve_attempt, bind, console_log.
  rewrite (@generateContent_resolves p env (logged (LogAttempt attempt) w) r R).
  rewrite Hr, Hb. reflexivity.
Qed.

(** One attempt is one remote call, whatever comes of it. *)
Lemma improve_attempt_trace p attempt env w :
  trace (snd (Resume.improve_attempt p attempt env w)) = trace w ++ [EvCall p].
Proof.
  unfold Resume.improve_attempt, bind, console_log, generateContent.
  cbn [calls logged].
  destruct (remote env (calls w)) as [e|r]; [reflexivity|].
  destruct (response r) as [resp|]; [|reflexivity].
  destruct (Resume.safety_blocked resp); [reflexivity|].
  destruct (text resp) as [e|[t|]]; try reflexivity.
  cbn [option_map]. destruct (trim t); reflexivity.
Qed.

Lemma improve_loop_trace fuel p maxRetries :
  forall attempt lastError env w,
  exists rest,
    trace (snd (Resume.improve_loop fuel p maxRetries attempt lastError env w))
    = trace w ++ rest.
Proof.
  induction fuel as [|fuel IH]; intros attempt lastError env w.
  - exists []. rewrite app_nil_r. reflexivity.
  - cbn [Resume.improve_loop].
    destruct (Z.leb_spec attempt maxRetries);
      [|exists []; rewrite app_nil_r; reflexivity].
    unfold try_catch at 1. unfold bind at 1.
    pose proof (improve_attempt_trace p attempt env w) as Ht.
    destruct (Resume.improve_attempt p attempt env w) as [[c|e|] w1];
      cbn [snd] in Ht.
    + exists [EvCall p]. exact Ht.
    + unfold bind at 1. unfold console_log at 1.
      destruct (Z.eqb_spec attempt maxRetries).
      * exists [EvCall p]. exact Ht.
      * unfold bind at 1. unfold sleep at 1.
        destruct (IH (attempt + 1)%Z (Some e) env
                    (slept (1000 * attempt)
                       (logged (LogAttemptFailed attempt (message e)) w1)))
          as [rest Hrest].
        exists (EvCall p :: EvSleep (1000 * attempt) :: rest).
        rewrite Hrest. cbn [trace slept logged]. rewrite Ht.
        rewrite <- !app_assoc. reflexivity.
    + exists [EvCall p]. exact Ht.
Qed.

Lemma improve_attempt_ends p attempt env w :
  fst (Resume.improve_attempt p attempt env w) <> OutOfFuel.
Proof.
  unfold Resume.improve_attempt, bind, console_log, generateContent.
  cbn [calls logged].
  destruct (remote env (calls w)) as [e|r]; [discriminate|].
  destruct (response r) as [resp|]; [|discriminate].
  destruct (Resume.safety_blocked resp); [discriminate|].
  destruct (text resp) as [e|[t|]]; try discriminate.
  cbn [option_map]. destruct (trim t); discriminate.
Qed.

(** The loop is given enough fuel for the attempts that are left. *)
Lemma improve_loop_ends p maxRetries :
  forall fuel attempt lastError env w,
    (Z.to_nat (maxRetries - attempt + 1) < fuel)%nat ->
    fst (Resume.improve_loop fuel p maxRetries attempt lastError env w)
    <> OutOfFuel.
Proof.
  induction fuel as [|fuel IH]; intros attempt lastError env w Hfuel; [lia|].
  cbn [Resume.improve_loop].
  destruct (Z.leb_spec attempt maxRetries); [|discriminate].
  unfold try_catch at 1. unfold bind at 1.
  pose proof (improve_attempt_ends p attempt env w) as He.
  destruct (Resume.improve_attempt p attempt env w) as [[c|e|] w1];
    [discriminate | | contradiction He; reflexivity].
  unfold bind at 1. unfold console_log at 1.
  destruct (Z.eqb_spec attempt maxRetries); [discriminate|].
  unfold bind at 1. unfold sleep at 1. apply IH. lia.
Qed.

Lemma fail_with_outcome lastError env w :
  trace (snd (Resume.fail_with lastError env w)) = trace w
  /\ exists e, fst (Resume.fail_with lastError env w) = Throw e.
Proof.
  unfold Resume.fail_with, bind, console_log.
  repeat match goal with
         | |- context [if ?b then _ else _] => destruct b
         end; (split; [reflexivity | eexists; reflexivity]).
Qed.

Lemma improve_loop_calls_first fuel p maxRetries attempt lastError env w :
  (attempt <= maxRetries)%Z ->
  exists rest,
    trace (snd (Resume.improve_loop (S fuel) p maxRetries attempt lastError env w))
    = trace w ++ EvCall p :: rest.
Proof.
  intros H. pose proof (improve_attempt_trace p attempt env w) as Ht.
  destruct (Resume.improve_attempt p attempt env w) as [[c|e|] w1] eqn:Hfn;
    cbn [snd] in Ht.
  - erewrite improve_loop_return; [| exact H | exact Hfn].
    exists []. exact Ht.
  - destruct (Z.eq_dec attempt maxRetries) as [Heq|Hne].
    + erewrite improve_loop_last; [| exact Heq | exact Hfn].
      exists []. exact Ht.
    + rewrite (@improve_loop_retry fuel p maxRetries attempt lastError env w e w1);
        [| lia | exact Hfn].
      destruct (improve_loop_trace fuel p maxRetries (attempt + 1) (Some e) env
                  (slept (1000 * attempt)
                     (logged (LogAttemptFailed attempt (message e)) w1)))
        as [rest Hrest].
      exists (EvSleep (1000 * attempt) :: rest).
      rewrite Hrest. cbn [trace slept logged]. rewrite Ht.
      rewrite <- !app_assoc. reflexivity.
  - cbn [Resume.improve_loop].
    destruct (Z.leb_spec attempt maxRetries); [|lia].
    unfold try_catch, bind. rewrite Hfn. exists []. exact Ht.
Qed.

Lemma after_loop_trace (m : M Resume.LoopExit) env w :
  trace (snd (bind m Resume.after_loop env w)) = trace (snd (m env w)).
Proof.
  unfold bind. destruct (m env w) as [[[c|lastError]|e|] w1]; try reflexivity.
  apply fail_with_outcome.
Qed.

Lemma improveWithAI_valid env w current type userId user :
  auth_userId env = Some userId ->
  db_user env = Some user ->
  trim current <> [] ->
  Resume.improveWithAI (Some current) type env w
  = bind (Resume.improve_loop 4
            (ImprovePrompt type (user_industry user) current) 3 1 None)
      Resume.after_loop env w.
Proof.
  intros Ha Hu Hc. unfold Resume.improveWithAI. unfold bind at 1. unfold ask.
  rewrite Ha, Hu.
  destruct current as [|c current]; [contradiction Hc; reflexivity|].
  destruct (trim (c :: current)); [contradiction Hc; reflexivity|].
  reflexivity.
Qed.

(** C4, amended: [improveWithAI] retries a safety block like any other
    failure. After a first attempt that the safety policy blocked it sleeps
    1000 ms and calls the model again; when the second and the third attempt
    are blocked too it has made exactly three remote calls, with sleeps of
    1000 and 2000 ms in between, and throws "Content was flagged by safety
    filters. Please rephrase your description.". *)
Theorem safety_block_is_retried :
  forall env w current type userId user r resp,
    auth_userId env = Some userId ->
    db_user env = Some user ->
    trim current <> [] ->
    remote env (calls w) = Resolves r ->
    response r = Some resp ->
    Resume.safety_blocked resp = true ->
    let p := ImprovePrompt type (user_industry user) current in
    let out := Resume.improveWithAI (Some current) type env w in
    (exists rest,
        trace (snd out) = trace w ++ EvCall p :: EvSleep 1000 :: EvCall p :: rest)
    /\ (forall r2 resp2 r3 resp3,
          remote env (S (calls w)) = Resolves r2 ->
          response r2 = Some resp2 ->
          Resume.safety_blocked resp2 = true ->
          remote env (S (S (calls w))) = Resolves r3 ->
          response r3 = Some resp3 ->
          Resume.safety_blocked resp3 = true ->
          fst out = Throw (new_Error "Content was flagged by safety filters. Please rephrase your description.")
          /\ trace (snd out)
             = trace w ++ [EvCall p; EvSleep 1000; EvCall p; EvSleep 2000;
                           EvCall p]).
Proof.
  intros env w current type userId user r resp Ha Hu Hc R1 Hr1 Hb1 p out.
  subst out. rewrite (@improveWithAI_valid env w current type userId user Ha Hu Hc).
  fold p.
  pose proof (@improve_attempt_blocked p 1 env w r resp R1 Hr1 Hb1) as A1.
  split.
  - rewrite after_loop_trace.
    rewrite (@improve_loop_retry 3 p 3 1 None env w _ _ ltac:(lia) A1).
    match goal with
    | |- context [Resume.improve_loop 3 p 3 (1 + 1) ?le env ?w2] =>
        destruct (@improve_loop_calls_first 2 p 3 (1 + 1) le env w2 ltac:(lia))
          as [rest Hrest]
    end.
    exists rest. rewrite Hrest. cbn [trace slept logged called].
    rewrite <- !app_assoc. reflexivity.
  - intros r2 resp2 r3 resp3 R2 Hr2 Hb2 R3 Hr3 Hb3.
    unfold bind.
    rewrite (@improve_loop_retry 3 p 3 1 None env w _ _ ltac:(lia) A1).
    erewrite (@improve_loop_retry 2 p 3 (1 + 1));
      [| lia | apply (@improve_attempt_blocked p (1 + 1) env _ r2 resp2);
               [exact R2 | exact Hr2 | exact Hb2] ].
    erewrite (@improve_loop_last 1 p 3 (1 + 1 + 1));
      [| reflexivity
       | apply (@improve_attempt_blocked p (1 + 1 + 1) env _ r3 resp3);
         [exact R3 | exact Hr3 | exact Hb3] ].
    split; [reflexivity|].
    cbn. rewrite <- !app_assoc. reflexivity.
Qed.

Lemma safety_block_is_retried_witness :
  (exists rest,
      trace (snd (Resume.improveWithAI (Some (js "Did things."))
                    (Some (js "experience")) env_always_blocked (init 0)))
      = EvCall (ImprovePrompt (Some (js "experience")) (Some tech)
                  (js "Did things."))
        :: EvSleep 1000
        :: EvCall (ImprovePrompt (Some (js "experience")) (Some tech)
                     (js "Did things."))
        :: rest)
  /\ fst (Resume.improveWithAI (Some (js "Did things."))
            (Some (js "experience")) env_always_blocked (init 0))
     = Throw (new_Error "Content was flagged by safety filters. Please rephrase your description.").
Proof.
  assert (Hc : trim (js "Did things.") <> []) by (vm_compute; discriminate).
  destruct (@safety_block_is_retried env_always_blocked (init 0)
              (js "Did things.") (Some (js "experience")) (js "user_1") a_user
              blocked _ eq_refl eq_refl Hc eq_refl eq_refl eq_refl)
    as [H1 H2].
  split; [exact H1|].
  exact (proj1 (H2 blocked _ blocked _ eq_refl eq_refl eq_refl
                  eq_refl eq_refl eq_refl)).
Defined.

(** Every response is blocked by the safety policy: after the first blocked
    attempt two more remote attempts are made. *)
Lemma safety_block_further_attempts :
  (forall k, remote env_always_blocked k = Resolves blocked)
  /\ calls (snd (Resume.improveWithAI (Some (js "Did things."))
                  (Some (js "experience")) env_always_blocked (init 0)))
     = 3%nat
  /\ trace (snd (Resume.improveWithAI (Some (js "Did things."))
                  (Some (js "experience")) env_always_blocked (init 0)))
     <> [EvCall (ImprovePrompt (Some (js "experience")) (Some tech)
                   (js "Did things."))].
Proof.
  split; [reflexivity|]. split; [reflexivity|]. vm_compute. discriminate.
Qed.

End ResumeFacts.

(** ** Persistence *)

Section RefreshFacts.

Import Scenarios.

Lemma keeps_ret A (a : A) : keeps_refresh (ret a).
Proof. intros env w H. exact H. Qed.

Lemma keeps_throw A e : keeps_refresh (@throw A e).
Proof. intros env w H. exact H. Qed.

Lemma keeps_bind A B (m : M A) (k : A -> M B) :
  keeps_refresh m -> (forall a, keeps_refresh (k a)) -> keeps_refresh (bind m k).
Proof.
  intros Hm Hk env w H. unfold bind. specialize (Hm env w H).
  destruct (m env w) as [[a|e|] w1]; cbn [snd] in *;
    [apply Hk; exact Hm | exact Hm | exact Hm].
Qed.

Lemma keeps_try_catch A (m : M A) (h : JsError -> M A) :
  keeps_refresh m -> (forall e, keeps_refresh (h e)) ->
  keeps_refresh (try_catch m h).
Proof.
  intros Hm Hh env w H. unfold try_catch. specialize (Hm env w H).
  destruct (m env w) as [[a|e|] w1]; cbn [snd] in *;
    [exact Hm | apply Hh; exact Hm | exact Hm].
Qed.

Lemma keeps_event A (a : A) (f : World -> World) ev :
  (forall w, trace (f w) = trace w ++ [ev]) -> refresh_ok ev ->
  keeps_refresh (fun _ w => (Return a, f w)).
Proof.
  intros Hf Hev env w H. cbn [snd]. rewrite Hf.
  apply Forall_app. split; [exact H | constructor; [exact Hev | constructor]].
Qed.

Lemma keeps_console_log l : keeps_refresh (console_log l).
Proof. intros env w H. exact H. Qed.

Lemma keeps_sleep ms : keeps_refresh (sleep ms).
Proof. apply keeps_event with (ev := EvSleep ms); [reflexivity | exact I]. Qed.

Lemma keeps_generateContent p : keeps_refresh (generateContent p).
Proof.
  intros env w H. unfold generateContent.
  destruct (remote env (calls w)); cbn [snd called trace];
    (apply Forall_app; split; [exact H | repeat constructor]).
Qed.

Lemma keeps_JSON_parse_M t : keeps_refresh (JSON_parse_M t).
Proof.
  intros env w H. unfold JSON_parse_M. destruct (JSON_parse t); exact H.
Qed.

Lemma keeps_response_text_of res : keeps_refresh (Batch.response_text_of res).
Proof.
  intros env w H. unfold Batch.response_text_of, Batch.undefined_at, throw, ret.
  repeat match goal with
         | |- context [match ?x with _ => _ end] => destruct x
         end; exact H.
Qed.

Create HintDb refresh.

#[local] Hint Resolve keeps_ret keeps_throw keeps_bind keeps_try_catch
  keeps_console_log keeps_sleep keeps_generateContent keeps_JSON_parse_M
  keeps_response_text_of : refresh.

Lemma keeps_batch_retry_loop A (fn : M A) maxRetries d :
  keeps_refresh fn ->
  forall fuel i, keeps_refresh (Batch.retry_loop fuel fn maxRetries d i).
Proof.
  intros Hfn. induction fuel as [|fuel IH]; intros i.
  - intros env w H. exact H.
  - cbn [Batch.retry_loop]. destruct (i <? maxRetries)%Z; auto with refresh.
    apply keeps_try_catch; [auto with refresh|].
    intros e. destruct (i =? maxRetries - 1)%Z; auto with refresh.
    destruct (status e) as [s|]; auto with refresh.
    destruct ((s =? 503) || (s =? 429))%bool%Z; auto 6 with refresh.
Qed.

Lemma keeps_dashboard_retry_loop A (fn : M A) maxRetries d :
  keeps_refresh fn ->
  forall fuel i, keeps_refresh (Dashboard.retry_loop fuel fn maxRetries d i).
Proof.
  intros Hfn. induction fuel as [|fuel IH]; intros i.
  - intros env w H. exact H.
  - cbn [Dashboard.retry_loop]. destruct (i <? maxRetries)%Z; auto with refresh.
    apply keeps_try_catch; [auto with refresh|].
    intros e. cbv zeta.
    match goal with
    | |- context [if ?b then _ else _] => destruct b
    end; auto 6 with refresh.
Qed.

(** The two writes: the object handed to the database has [nextUpdate]
    defined last, from the clock read for it. *)

Lemma keeps_update A (a : A) industry lastUpdated (o : obj field) :
  keeps_refresh
    (now <- Date_now ;;
     db_industryInsight_update industry
       (obj_set (js "nextUpdate") (FDate (now + refresh_interval))
          (obj_set (js "lastUpdated") (FDate lastUpdated) o)) ;;;
     ret a).
Proof.
  intros env w H. cbn. apply Forall_app. split; [exact H|].
  constructor; [|constructor]. cbn [refresh_ok]. apply obj_get_set.
Qed.

Lemma keeps_create (o : obj field) :
  keeps_refresh
    (now <- Date_now ;;
     db_industryInsight_create
       (obj_set (js "nextUpdate") (FDate (now + refresh_interval)) o)).
Proof.
  intros env w H. cbn. apply Forall_app. split; [exact H|].
  constructor; [|constructor]. cbn [refresh_ok]. apply obj_get_set.
Qed.

Lemma keeps_generate_insights_step industry :
  keeps_refresh (Batch.generate_insights_step industry).
Proof.
  unfold Batch.generate_insights_step, Batch.retryWithBackoff.
  apply keeps_bind; [apply keeps_batch_retry_loop; auto with refresh|].
  intros res. apply keeps_bind; [auto with refresh|].
  intros t. apply keeps_bind; [auto with refresh|].
  intros insights. apply keeps_bind; [intros env w H; exact H|].
  intros lastUpdated. apply keeps_update.
Qed.

Lemma keeps_generateIndustryInsights :
  keeps_refresh Batch.generateIndustryInsights.
Proof.
  unfold Batch.generateIndustryInsights, Batch.step_run.
  apply keeps_bind.
  - apply keeps_bind; [intros env w H; exact H | auto with refresh].
  - intros industries. apply keeps_bind; [|auto with refresh].
    induction industries as [|industry rest IH]; cbn [Batch.for_each].
    + auto with refresh.
    + apply keeps_bind; [apply keeps_generate_insights_step | intros _; exact IH].
Qed.

Lemma keeps_generateAIInsights industry :
  keeps_refresh (Dashboard.generateAIInsights industry).
Proof.
  unfold Dashboard.generateAIInsights, Dashboard.retryWithBackoff.
  apply keeps_try_catch; [|auto 6 with refresh].
  apply keeps_dashboard_retry_loop. unfold Dashboard.generate_once.
  apply keeps_bind; [auto with refresh|]. intros result.
  destruct (response result) as [resp|]; auto with refresh.
  destruct (text resp) as [e|[t|]]; auto with refresh.
Qed.

Lemma keeps_getIndustryInsights : keeps_refresh Dashboard.getIndustryInsights.
Proof.
  unfold Dashboard.getIndustryInsights.
  apply keeps_bind; [intros env w H; exact H|]. intros env0.
  destruct (auth_userId env0); auto with refresh.
  destruct (db_user env0) as [user|]; auto with refresh.
  destruct (industryInsight user); auto with refresh.
  apply keeps_bind; [apply keeps_generateAIInsights|].
  intros insights. apply keeps_create.
Qed.

(** C8: every record that the create-if-absent path ([getIndustryInsights])
    or the weekly update path ([generateIndustryInsights]) hands to the
    database carries a [nextUpdate] equal to the clock at that write plus
    7 * 24 * 60 * 60 * 1000 milliseconds, whatever the generated insights
    contain. *)
Theorem persisted_next_update_is_seven_days_ahead :
  forall env w,
    Forall refresh_ok (trace w) ->
    Forall refresh_ok (trace (snd (Dashboard.getIndustryInsights env w)))
    /\ Forall refresh_ok (trace (snd (Batch.generateIndustryInsights env w))).
Proof.
  intros env w H. split.
  - apply keeps_getIndustryInsights. exact H.
  - apply keeps_generateIndustryInsights. exact H.
Qed.

Lemma persisted_next_update_is_seven_days_ahead_witness :
  Forall refresh_ok
    (trace (snd (Dashboard.getIndustryInsights env_third_time_lucky (init 5))))
  /\ Forall refresh_ok
       (trace (snd (Batch.generateIndustryInsights env_third_time_lucky (init 5)))).
Proof.
  apply (@persisted_next_update_is_seven_days_ahead env_third_time_lucky (init 5)).
  constructor.
Defined.

(** Both paths do write in that run, seven days (604800000 ms) ahead of the
    clock, which the sleeps of the retries have advanced. *)
Example create_path_run :
  trace (snd (Dashboard.getIndustryInsights env_third_time_lucky (init 5)))
  = [EvCall tech_prompt; EvSleep 1000; EvCall tech_prompt; EvSleep 2000;
     EvCall tech_prompt;
     EvDbCreate 3005 [(js "industry", FJson (JStr tech));
                      (js "nextUpdate", FDate (3005 + 604800000))]].
Proof. reflexivity. Qed.

Example update_path_run :
  trace (snd (Batch.generateIndustryInsights env_third_time_lucky (init 5)))
  = [EvCall tech_prompt; EvSleep 2000; EvCall tech_prompt; EvSleep 4000;
     EvCall tech_prompt;
     EvDbUpdate 6005 tech [(js "lastUpdated", FDate 6005);
                           (js "nextUpdate", FDate (6005 + 604800000))]].
Proof. reflexivity. Qed.

End RefreshFacts.

(** ** Fenced responses *)

Section FenceFacts.

Import Scenarios.

(** C7, amended: for every JSON text t that does not contain three
    consecutive backticks, stripping the fences from t wrapped in a
    [```json] fence and trimming the result yields a text that parses to the
    value that t itself parses to. *)
Theorem fenced_json_parses_alike :
  forall t v,
    has_fence t = false ->
    JSON_parse t = Some v ->
    JSON_parse (cleanText (fenced t)) = Some v.
Proof.
  intros t v Hf Hp. rewrite (cleanText_fenced _ Hf).
  apply JSON_parse_trim. exact Hp.
Qed.

Lemma fenced_json_parses_alike_witness :
  JSON_parse (cleanText (fenced empty_object)) = Some (JObj []).
Proof.
  apply (@fenced_json_parses_alike empty_object (JObj [])); reflexivity.
Defined.

(** The JSON text of a string of three backticks parses to that string;
    inside a fence it parses to the empty string, because the global
    replacement removes the backticks of the string as well. *)
Lemma fenced_string_of_backticks :
  JSON_parse quoted_fence = Some (JStr fence)
  /\ JSON_parse (cleanText (fenced quoted_fence)) = Some (JStr [])
  /\ JSON_parse (cleanText (fenced quoted_fence)) <> JSON_parse quoted_fence.
Proof.
  split; [reflexivity|]. split; [reflexivity|]. vm_compute. discriminate.
Qed.

End FenceFacts.

(** ** Cleaning a response text *)

Section CleanFacts.

Local Open Scope N_scope.

Lemma trim_start_idempotent s : trim_start (trim_start s) = trim_start s.
Proof.
  induction s as [|c s IH]; [reflexivity|].
  simpl. destruct (is_whitespace c) eqn:Hc; [exact IH|].
  simpl. rewrite Hc. reflexivity.
Qed.

Lemma trim_start_snoc l c :
  trim_start (l ++ [c])
  = match trim_start l with
    | [] => if is_whitespace c then [] else [c]
    | y => y ++ [c]
    end.
Proof.
  induction l as [|a l IH]; [reflexivity|].
  simpl. destruct (is_whitespace a); [exact IH | reflexivity].
Qed.

Lemma trim_end_cons c x :
  trim_end (c :: x)
  = match trim_end x with
    | [] => if is_whitespace c then [] else [c]
    | y => c :: y
    end.
Proof.
  unfold trim_end. cbn [rev]. rewrite trim_start_snoc.
  destruct (trim_start (rev x)) as [|a l] eqn:E.
  - cbn [rev]. destruct (is_whitespace c); reflexivity.
  - rewrite rev_app_distr. cbn [rev app].
    destruct (rev l ++ [a]) eqn:E2; [|reflexivity].
    destruct (rev l); discriminate.
Qed.

Lemma trim_end_idempotent s : trim_end (trim_end s) = trim_end s.
Proof.
  unfold trim_end. rewrite rev_involutive, trim_start_idempotent. reflexivity.
Qed.

Lemma trim_commutes x : trim_end (trim_start x) = trim_start (trim_end x).
Proof.
  induction x as [|c x IH]; [reflexivity|].
  rewrite trim_end_cons. cbn [trim_start].
  destruct (is_whitespace c) eqn:Hc.
  - rewrite IH. destruct (trim_end x) as [|a y]; [reflexivity|].
    cbn [trim_start]. rewrite Hc. reflexivity.
  - rewrite trim_end_cons.
    destruct (trim_end x) as [|a y]; rewrite ?Hc; cbn [trim_start];
      rewrite ?Hc; reflexivity.
Qed.

Lemma trim_idempotent s : trim (trim s) = trim s.
Proof.
  unfold trim. rewrite (trim_commutes (trim_end s)).
  rewrite trim_end_idempotent, trim_start_idempotent. reflexivity.
Qed.

(** Where the scan is at a code unit that is no backtick, it keeps it. *)
Lemma strip_keeps_head (c : code_unit) (s : jsstring) :
  N.eqb backtick c = false ->
  strip_fences_from 0 (c :: s) = c :: strip_fences_from 0 s.
Proof.
  intros H. cbn [strip_fences_from]. unfold fence_match_length.
  cbn [starts_with fence]. rewrite H. reflexivity.
Qed.

Lemma fence_match_length_positive s n :
  fence_match_length s = Some n -> exists k, n = S k.
Proof.
  unfold fence_match_length. destruct (starts_with fence s); [|discriminate].
  intros H. inversion H. eexists. reflexivity.
Qed.

Lemma fence_match_none s :
  fence_match_length s = None <-> starts_with fence s = false.
Proof.
  unfold fence_match_length. destruct (starts_with fence s); split;
    intros H; try reflexivity; discriminate.
Qed.

Lemma strip_keeps_unmatched (c : code_unit) (s : jsstring) :
  fence_match_length (c :: s) = None ->
  strip_fences_from 0 (c :: s) = c :: strip_fences_from 0 s.
Proof. intros H. cbn [strip_fences_from]. rewrite H. reflexivity. Qed.

(** Where no fence starts, none starts after the head has been kept and the
    rest has been stripped. *)
Lemma strip_head_no_fence (c : code_unit) (s : jsstring) :
  starts_with fence (c :: s) = false ->
  starts_with fence (c :: strip_fences_from 0 s) = false.
Proof.
  intros H. cbn [starts_with fence] in H |- *.
  destruct (N.eqb backtick c); [|reflexivity].
  cbn [andb] in H |- *.
  destruct s as [|a s]; [reflexivity|].
  destruct (N.eqb backtick a) eqn:Ha.
  - cbn [andb] in H.
    assert (Hb : match s with [] => True | b :: _ => N.eqb backtick b = false end).
    { destruct s as [|b s]; [exact I|]. cbn [starts_with] in H.
      rewrite andb_true_r in H. exact H. }
    assert (Hs : fence_match_length (a :: s) = None).
    { apply fence_match_none. cbn [starts_with fence]. rewrite Ha. cbn [andb].
      destruct s as [|b s]; [reflexivity|].
      cbn [starts_with]. rewrite Hb. reflexivity. }
    rewrite (strip_keeps_unmatched _ _ Hs).
    cbn [starts_with]. rewrite Ha. cbn [andb].
    destruct s as [|b s]; [reflexivity|].
    rewrite (@strip_keeps_head b s Hb). cbn [starts_with]. rewrite Hb.
    reflexivity.
  - rewrite (@strip_keeps_head a s Ha). cbn [starts_with]. rewrite Ha.
    reflexivity.
Qed.

Lemma strip_fences_from_no_fence s :
  forall skip, has_fence (strip_fences_from skip s) = false.
Proof.
  induction s as [|c s IH]; intros skip; [reflexivity|].
  cbn [strip_fences_from]. destruct skip as [|k]; [|apply IH].
  destruct (fence_match_length (c :: s)) as [[|k]|] eqn:E.
  - apply fence_match_length_positive in E. destruct E; discriminate.
  - apply IH.
  - change (has_fence (c :: strip_fences_from 0 s))
      with (starts_with fence (c :: strip_fences_from 0 s)
            || has_fence (strip_fences_from 0 s))%bool.
    rewrite IH, orb_false_r. apply strip_head_no_fence.
    apply fence_match_none. exact E.
Qed.

Lemma strip_fences_without_fence s :
  has_fence s = false -> strip_fences s = s.
Proof.
  unfold strip_fences. induction s as [|c s IH]; intros H; [reflexivity|].
  change (has_fence (c :: s))
    with (starts_with fence (c :: s) || has_fence s)%bool in H.
  apply orb_false_iff in H. destruct H as [Hc Hs].
  cbn [strip_fences_from].
  rewrite (proj2 (fence_match_none (c :: s)) Hc), (IH Hs). reflexivity.
Qed.

Lemma has_fence_tail c s : has_fence (c :: s) = false -> has_fence s = false.
Proof.
  change (has_fence (c :: s))
    with (starts_with fence (c :: s) || has_fence s)%bool.
  intros H. apply orb_false_iff in H. apply H.
Qed.

Lemma has_fence_trim_start s :
  has_fence s = false -> has_fence (trim_start s) = false.
Proof.
  induction s as [|c s IH]; intros H; [reflexivity|].
  cbn [trim_start]. destruct (is_whitespace c); [|exact H].
  apply IH. exact (@has_fence_tail _ _ H).
Qed.

Lemma starts_with_app p a b :
  starts_with p a = true -> starts_with p (a ++ b) = true.
Proof.
  revert a. induction p as [|x p IH]; intros a H; [reflexivity|].
  destruct a as [|y a]; [discriminate|].
  cbn [starts_with app] in H |- *. apply andb_true_iff in H.
  destruct H as [H1 H2]. rewrite H1, (IH _ H2). reflexivity.
Qed.

Lemma has_fence_prefix a b : has_fence (a ++ b) = false -> has_fence a = false.
Proof.
  induction a as [|c a IH]; intros H; [reflexivity|].
  change (has_fence ((c :: a) ++ b))
    with (starts_with fence ((c :: a) ++ b) || has_fence (a ++ b))%bool in H.
  apply orb_false_iff in H. destruct H as [Hc Hs].
  change (has_fence (c :: a))
    with (starts_with fence (c :: a) || has_fence a)%bool.
  rewrite (IH Hs), orb_false_r.
  destruct (starts_with fence (c :: a)) eqn:E; [|reflexivity].
  rewrite (@starts_with_app _ _ b E) in Hc. discriminate.
Qed.

Lemma has_fence_trim s : has_fence s = false -> has_fence (trim s) = false.
Proof.
  intros H. unfold trim. apply has_fence_trim_start.
  destruct (trim_end_split s) as [w [_ Hs]].
  rewrite Hs in H. exact (@has_fence_prefix _ _ H).
Qed.

(** X11: what [cleanText] returns holds no three consecutive backticks
    and neither starts nor ends with whitespace, so cleaning it again
    changes nothing. *)
Theorem cleanText_idempotent :
  forall t,
    has_fence (cleanText t) = false
    /\ trim (cleanText t) = cleanText t
    /\ cleanText (cleanText t) = cleanText t.
Proof.
  intros t.
  assert (Hf : has_fence (cleanText t) = false).
  { unfold cleanText. apply has_fence_trim. apply strip_fences_from_no_fence. }
  assert (Ht : trim (cleanText t) = cleanText t).
  { unfold cleanText. apply trim_idempotent. }
  repeat split; [exact Hf | exact Ht|].
  unfold cleanText at 1. rewrite (@strip_fences_without_fence _ Hf). exact Ht.
Qed.

(** X12: a text without three consecutive backticks is only trimmed,
    and so is such a text between an untagged fence. *)
Theorem cleanText_without_fence :
  forall t,
    has_fence t = false ->
    cleanText t = trim t
    /\ cleanText (fence ++ [LF] ++ t ++ [LF] ++ fence) = trim t.
Proof.
  intros t H. split.
  - unfold cleanText. rewrite (@strip_fences_without_fence _ H). reflexivity.
  - unfold cleanText, strip_fences.
    change (strip_fences_from 0 (fence ++ [LF] ++ t ++ [LF] ++ fence))
      with (strip_fences_from 0 (t ++ LF :: fence)).
    rewrite strip_fences_closing by assumption. apply trim_LF.
Qed.

Lemma cleanText_without_fence_witness :
  cleanText (js "  [1, 2] ") = js "[1, 2]"
  /\ cleanText (fence ++ [LF] ++ js "  [1, 2] " ++ [LF] ++ fence) = js "[1, 2]".
Proof.
  apply (@cleanText_without_fence (js "  [1, 2] ")). reflexivity.
Defined.

End CleanFacts.
(** ** The retry helpers in general *)

Section BackoffFacts.

Lemma batch_loop_generic A fuel (fn : M A) maxRetries d :
  forall i env w,
    Batch.retry_loop fuel fn maxRetries d i env w
    = Backoff.retry_loop status_retryable fuel fn maxRetries d i env w.
Proof.
  induction fuel as [|fuel IH]; intros i env w; [reflexivity|].
  cbn [Batch.retry_loop Backoff.retry_loop].
  destruct (i <? maxRetries)%Z; [|reflexivity].
  unfold try_catch. destruct (bind fn _ env w) as [[a|e|] w1]; try reflexivity.
  unfold status_retryable.
  destruct (i =? maxRetries - 1)%Z; [reflexivity|]. cbn [orb].
  destruct (status e) as [s|]; [|reflexivity].
  destruct ((s =? 503) || (s =? 429))%bool%Z; [|reflexivity].
  cbn [negb]. unfold bind, console_log, sleep. apply IH.
Qed.

Lemma dashboard_loop_generic A fuel (fn : M A) maxRetries d :
  forall i env w,
    Dashboard.retry_loop fuel fn maxRetries d i env w
    = Backoff.retry_loop message_retryable fuel fn maxRetries d i env w.
Proof.
  induction fuel as [|fuel IH]; intros i env w; [reflexivity|].
  cbn [Dashboard.retry_loop Backoff.retry_loop].
  destruct (i <? maxRetries)%Z; [|reflexivity].
  unfold try_catch. destruct (bind fn _ env w) as [[a|e|] w1]; try reflexivity.
  fold (message_retryable e).
  destruct ((i =? maxRetries - 1) || negb (message_retryable e))%bool%Z;
    [reflexivity|].
  unfold bind, console_log, sleep. apply IH.
Qed.

Lemma generateContent_calls_once p env :
  calls_once (generateContent p) env p (remote_outcome env).
Proof.
  intros w. unfold generateContent, remote_outcome.
  destruct (remote env (calls w)); reflexivity.
Qed.

Lemma remote_outcome_ends env k : remote_outcome env k <> OutOfFuel.
Proof. unfold remote_outcome. destruct (remote env k); discriminate. Qed.

Lemma attempts_snoc_first p delay i n :
  (1 <= n)%nat ->
  EvCall p :: EvSleep (delay i) :: attempts p delay (i + 1) n
  = attempts p delay i (S n).
Proof. intros H. destruct n as [|n]; [lia | reflexivity]. Qed.

(** Whatever the function does, the loop makes at most maxRetries calls,
    separated by the exponential sleeps, and ends by itself. *)
Lemma loop_shape A retryable (fn : M A) env p outcome maxRetries d :
  calls_once fn env p outcome ->
  (forall k, outcome k <> OutOfFuel) ->
  forall fuel i w,
    (Z.to_nat (maxRetries - i) < fuel)%nat ->
    exists n,
      (n <= Z.to_nat (maxRetries - i))%nat
      /\ ((i < maxRetries)%Z -> (1 <= n)%nat)
      /\ fst (Backoff.retry_loop retryable fuel fn maxRetries d i env w)
         <> OutOfFuel
      /\ trace (snd (Backoff.retry_loop retryable fuel fn maxRetries d i env w))
         = trace w ++ attempts p (exponential d) i n
      /\ calls (snd (Backoff.retry_loop retryable fuel fn maxRetries d i env w))
         = (calls w + n)%nat
      /\ clock (snd (Backoff.retry_loop retryable fuel fn maxRetries d i env w))
         = (clock w + total_sleep (attempts p (exponential d) i n))%Z.
Proof.
  intros Hfn Hends. induction fuel as [|fuel IH]; intros i w Hfuel; [lia|].
  cbn [Backoff.retry_loop].
  destruct (Z.ltb_spec i maxRetries) as [Hi|Hi].
  - unfold try_catch, bind. rewrite (Hfn w).
    pose proof (Hends (calls w)) as He.
    destruct (outcome (calls w)) as [a|e|]; [| |contradiction He; reflexivity].
    + exists 1%nat. cbn. repeat split; try lia; try discriminate.
    + destruct (Z.eqb_spec i (maxRetries - 1)) as [Hlast|Hlast]; cbn [orb].
      { exists 1%nat. cbn. repeat split; try lia; try discriminate. }
      destruct (retryable e); cbn [negb].
      * unfold console_log, sleep.
        destruct (IH (i + 1)%Z
                    (slept (d * 2 ^ i)
                       (logged (LogRetry (i + 1) maxRetries (d * 2 ^ i))
                          (called p w))))
          as [n [Hn [H1 [Ho [Ht [Hc Hk]]]]]]; [lia|].
        specialize (H1 ltac:(lia)).
        exists (S n). repeat split; try lia; try exact Ho.
        -- rewrite Ht. cbn [trace slept logged called].
           rewrite <- !app_assoc. cbn [app].
           rewrite <- (attempts_snoc_first p (exponential d) i H1).
           reflexivity.
        -- rewrite Hc. cbn [calls slept logged called]. lia.
        -- rewrite Hk. cbn [clock slept logged called].
           rewrite <- (attempts_snoc_first p (exponential d) i H1).
           cbn [total_sleep]. change (exponential d i) with (d * 2 ^ i)%Z. ring.
      * exists 1%nat. cbn. repeat split; try lia; try discriminate.
  - exists 0%nat. cbn. repeat split; try lia; try discriminate.
    rewrite app_nil_r. reflexivity.
Qed.

(** After [n] retried failures the next outcome decides: a result is
    returned. *)
Lemma loop_succeeds A retryable (fn : M A) env p outcome maxRetries d :
  calls_once fn env p outcome ->
  forall n fuel i w a,
    (n < fuel)%nat ->
    (i + Z.of_nat n < maxRetries)%Z ->
    (forall k, (k < n)%nat ->
               exists e, outcome (calls w + k)%nat = Throw e /\ retryable e = true) ->
    outcome (calls w + n)%nat = Return a ->
    fst (Backoff.retry_loop retryable fuel fn maxRetries d i env w)
    = Return (Some a)
    /\ trace (snd (Backoff.retry_loop retryable fuel fn maxRetries d i env w))
       = trace w ++ attempts p (exponential d) i (S n).
Proof.
  intros Hfn. induction n as [|n IH]; intros fuel i w a Hfuel Hi Hfail Hok;
    (destruct fuel as [|fuel]; [lia|]); cbn [Backoff.retry_loop];
    (destruct (Z.ltb_spec i maxRetries); [|lia]);
    unfold try_catch, bind; rewrite (Hfn w).
  - rewrite Nat.add_0_r in Hok. rewrite Hok. split; reflexivity.
  - destruct (Hfail 0%nat ltac:(lia)) as [e [He Hr]].
    rewrite Nat.add_0_r in He. rewrite He, Hr.
    destruct (Z.eqb_spec i (maxRetries - 1)); [lia|]. cbn [orb negb].
    unfold console_log, sleep.
    match goal with
    | |- context [Backoff.retry_loop retryable fuel fn maxRetries d (i + 1) env ?w2] =>
        destruct (IH fuel (i + 1)%Z w2 a) as [Hv Ht]
    end; [lia | lia | | |].
    + intros k Hk. cbn [calls slept logged called].
      destruct (Hfail (S k) ltac:(lia)) as [e' He'].
      exists e'. rewrite Nat.add_succ_comm. exact He'.
    + cbn [calls slept logged called]. rewrite Nat.add_succ_comm. exact Hok.
    + split; [exact Hv|]. rewrite Ht. cbn [trace slept logged called].
      rewrite <- !app_assoc. reflexivity.
Qed.

(** After [n] retried failures a failure that is not retried, or that is
    the last attempt, is thrown. *)
Lemma loop_gives_up A retryable (fn : M A) env p outcome maxRetries d :
  calls_once fn env p outcome ->
  forall n fuel i w e,
    (n < fuel)%nat ->
    (i + Z.of_nat n < maxRetries)%Z ->
    (forall k, (k < n)%nat ->
               exists e, outcome (calls w + k)%nat = Throw e /\ retryable e = true) ->
    outcome (calls w + n)%nat = Throw e ->
    retryable e = false \/ (i + Z.of_nat n = maxRetries - 1)%Z ->
    fst (Backoff.retry_loop retryable fuel fn maxRetries d i env w) = Throw e
    /\ trace (snd (Backoff.retry_loop retryable fuel fn maxRetries d i env w))
       = trace w ++ attempts p (exponential d) i (S n).
Proof.
  intros Hfn. induction n as [|n IH]; intros fuel i w e Hfuel Hi Hfail Hko Hwhy;
    (destruct fuel as [|fuel]; [lia|]); cbn [Backoff.retry_loop];
    (destruct (Z.ltb_spec i maxRetries); [|lia]);
    unfold try_catch, bind; rewrite (Hfn w).
  - rewrite Nat.add_0_r in Hko. rewrite Hko.
    assert (Hc : ((i =? maxRetries - 1) || negb (retryable e))%bool%Z = true).
    { apply orb_true_iff. destruct Hwhy as [Hr|Hl].
      - right. rewrite Hr. reflexivity.
      - left. apply Z.eqb_eq. lia. }
    rewrite Hc. split; reflexivity.
  - destruct (Hfail 0%nat ltac:(lia)) as [e0 [He0 Hr0]].
    rewrite Nat.add_0_r in He0. rewrite He0, Hr0.
    destruct (Z.eqb_spec i (maxRetries - 1)); [lia|]. cbn [orb negb].
    unfold console_log, sleep.
    match goal with
    | |- context [Backoff.retry_loop retryable fuel fn maxRetries d (i + 1) env ?w2] =>
        destruct (IH fuel (i + 1)%Z w2 e) as [Hv Ht]
    end; [lia | lia | | | |].
    + intros k Hk. cbn [calls slept logged called].
      destruct (Hfail (S k) ltac:(lia)) as [e' He'].
      exists e'. rewrite Nat.add_succ_comm. exact He'.
    + cbn [calls slept logged called]. rewrite Nat.add_succ_comm. exact Hko.
    + destruct Hwhy as [Hr|Hl]; [left; exact Hr | right; lia].
    + split; [exact Hv|]. rewrite Ht. cbn [trace slept logged called].
      rewrite <- !app_assoc. reflexivity.
Qed.

Lemma generate_once_calls_once industry env :
  calls_once (Dashboard.generate_once industry) env (InsightsPrompt industry)
    (generate_outcome env).
Proof.
  intros w. unfold Dashboard.generate_once, bind, generateContent,
    generate_outcome, JSON_parse_M, throw.
  destruct (remote env (calls w)) as [e|r]; [reflexivity|].
  destruct (response r) as [resp|]; [|reflexivity].
  destruct (text resp) as [e|[t|]]; try reflexivity.
  destruct (JSON_parse (cleanText t)); reflexivity.
Qed.

Lemma generate_outcome_ends env k : generate_outcome env k <> OutOfFuel.
Proof.
  unfold generate_outcome.
  destruct (remote env k) as [e|r]; [discriminate|].
  destruct (response r) as [resp|]; [|discriminate].
  destruct (text resp) as [e|[t|]]; try discriminate.
  destruct (JSON_parse (cleanText t)); discriminate.
Qed.

(** The sleeps of [n] attempts add up to baseDelay * (2^(n-1) - 1). *)
Lemma total_sleep_exponential p d n :
  forall i,
    (0 <= i)%Z ->
    total_sleep (attempts p (exponential d) i (S n))
    = (d * 2 ^ i * (2 ^ Z.of_nat n - 1))%Z.
Proof.
  induction n as [|n IH]; intros i Hi.
  - cbn. ring.
  - change (attempts p (exponential d) i (S (S n)))
      with (EvCall p :: EvSleep (exponential d i)
              :: attempts p (exponential d) (i + 1) (S n)).
    cbn [total_sleep]. rewrite IH by lia. unfold exponential.
    rewrite Nat2Z.inj_succ, !Z.pow_succ_r by lia.
    replace (i + 1)%Z with (Z.succ i) by lia. rewrite Z.pow_succ_r by lia.
    ring.
Qed.

(** X1: whatever the remote calls do and for every maxRetries, the batch
    helper makes at most maxRetries remote calls (at least one when
    maxRetries is positive) and asks for a sleep of initialDelay * 2^i after
    the i-th failed attempt and at no other time. The delays asked for in n
    attempts add up to initialDelay * (2^(n-1) - 1) ms; that is the time the
    helper has waited when each of them is within the range of the timer,
    1 to 2^31 - 1 ms. *)
Theorem batch_retry_bounded :
  forall p maxRetries d env w,
  exists n,
    (n <= Z.to_nat maxRetries)%nat
    /\ ((0 < maxRetries)%Z -> (1 <= n)%nat)
    /\ trace (snd (Batch.retryWithBackoff (generateContent p) maxRetries d env w))
       = trace w ++ attempts p (exponential d) 0 n
    /\ ((1 <= n)%nat ->
        total_sleep (attempts p (exponential d) 0 n)
        = (d * (2 ^ (Z.of_nat n - 1) - 1))%Z)
    /\ ((1 <= n)%nat ->
        Forall within_timer (attempts p (exponential d) 0 n) ->
        clock (snd (Batch.retryWithBackoff (generateContent p) maxRetries d env w))
        = (clock w + d * (2 ^ (Z.of_nat n - 1) - 1))%Z).
Proof.
  intros p maxRetries d env w. unfold Batch.retryWithBackoff.
  rewrite batch_loop_generic.
  destruct (@loop_shape _ status_retryable (generateContent p) env p
              (remote_outcome env) maxRetries d
              (generateContent_calls_once p env) (remote_outcome_ends env)
              (S (Z.to_nat maxRetries)) 0%Z w)
    as [n [Hn [H1 [_ [Ht [_ Hk]]]]]].
  { rewrite Z.sub_0_r. lia. }
  exists n. rewrite Z.sub_0_r in Hn.
  assert (Hsum : (1 <= n)%nat ->
                 total_sleep (attempts p (exponential d) 0 n)
                 = (d * (2 ^ (Z.of_nat n - 1) - 1))%Z).
  { intros Hpos. destruct n as [|n]; [lia|].
    rewrite total_sleep_exponential by lia.
    replace (Z.of_nat (S n) - 1)%Z with (Z.of_nat n) by lia.
    rewrite Z.pow_0_r. ring. }
  repeat split; try assumption.
  intros Hpos _. rewrite Hk, Hsum by exact Hpos. reflexivity.
Qed.

(** X2: for every maxRetries, when the first n remote calls
    (n < maxRetries) fail with status 503 or 429 and the next one
    resolves, the batch helper returns that result after exactly n + 1
    calls and the n sleeps initialDelay * 2^0, ..., initialDelay * 2^(n-1). *)
Theorem batch_retry_returns_first_success :
  forall p maxRetries d env w n r,
    (Z.of_nat n < maxRetries)%Z ->
    (forall k, (k < n)%nat ->
               exists e, remote env (calls w + k)%nat = Rejects e
                         /\ Batch.rate_or_overload e) ->
    remote env (calls w + n)%nat = Resolves r ->
    fst (Batch.retryWithBackoff (generateContent p) maxRetries d env w)
    = Return (Some r)
    /\ trace (snd (Batch.retryWithBackoff (generateContent p) maxRetries d env w))
       = trace w ++ attempts p (exponential d) 0 (S n).
Proof.
  intros p maxRetries d env w n r Hn Hfail Hok.
  unfold Batch.retryWithBackoff. rewrite batch_loop_generic.
  apply (@loop_succeeds _ status_retryable (generateContent p) env p
           (remote_outcome env) maxRetries d (generateContent_calls_once p env)
           n (S (Z.to_nat maxRetries)) 0%Z w r); try lia.
  - intros k Hk. destruct (Hfail k Hk) as [e [He Hr]]. exists e.
    unfold remote_outcome, status_retryable. rewrite He. split; [reflexivity|].
    destruct Hr as [-> | ->]; reflexivity.
  - unfold remote_outcome. rewrite Hok. reflexivity.
Qed.

(** X3: for every maxRetries, after n failures of status 503
    or 429 (n < maxRetries) a failure of another kind is thrown at once,
    although attempts remain, and so is any failure of the last attempt;
    the error thrown is that last one, after exactly n + 1 calls. *)
Theorem batch_retry_gives_up :
  forall p maxRetries d env w n e,
    (Z.of_nat n < maxRetries)%Z ->
    (forall k, (k < n)%nat ->
               exists e', remote env (calls w + k)%nat = Rejects e'
                          /\ Batch.rate_or_overload e') ->
    remote env (calls w + n)%nat = Rejects e ->
    ~ Batch.rate_or_overload e \/ (Z.of_nat n = maxRetries - 1)%Z ->
    fst (Batch.retryWithBackoff (generateContent p) maxRetries d env w)
    = Throw e
    /\ trace (snd (Batch.retryWithBackoff (generateContent p) maxRetries d env w))
       = trace w ++ attempts p (exponential d) 0 (S n).
Proof.
  intros p maxRetries d env w n e Hn Hfail Hko Hwhy.
  unfold Batch.retryWithBackoff. rewrite batch_loop_generic.
  apply (@loop_gives_up _ status_retryable (generateContent p) env p
           (remote_outcome env) maxRetries d (generateContent_calls_once p env)
           n (S (Z.to_nat maxRetries)) 0%Z w e); try lia.
  - intros k Hk. destruct (Hfail k Hk) as [e' [He Hr]]. exists e'.
    unfold remote_outcome, status_retryable. rewrite He. split; [reflexivity|].
    destruct Hr as [-> | ->]; reflexivity.
  - unfold remote_outcome. rewrite Hko. reflexivity.
  - destruct Hwhy as [Hr|Hl]; [left | right; lia].
    unfold status_retryable, Batch.rate_or_overload in *.
    destruct (status e) as [s|]; [|reflexivity].
    destruct (Z.eqb_spec s 503); [subst; tauto|].
    destruct (Z.eqb_spec s 429); [subst; tauto|]. reflexivity.
Qed.

Lemma loop_retryable_ext A (r1 r2 : JsError -> bool) (fn : M A) env maxRetries d :
  (forall w e w1, fn env w = (Throw e, w1) -> r1 e = r2 e) ->
  forall fuel i w,
    Backoff.retry_loop r1 fuel fn maxRetries d i env w
    = Backoff.retry_loop r2 fuel fn maxRetries d i env w.
Proof.
  intros H. induction fuel as [|fuel IH]; intros i w; [reflexivity|].
  cbn [Backoff.retry_loop]. destruct (i <? maxRetries)%Z; [|reflexivity].
  unfold try_catch, bind. destruct (fn env w) as [[a|e|] w1] eqn:E;
    try reflexivity.
  rewrite (H w e w1 E).
  destruct ((i =? maxRetries - 1) || negb (r2 e))%bool%Z; [reflexivity|].
  unfold console_log, sleep. apply IH.
Qed.

(** X6: the two retry helpers are the same loop up to the test that
    decides what is retried. For a function whose errors both tests class
    alike (status 503 or 429 exactly when the message mentions "overloaded"
    or "503"), they give the same result and leave the same world, for every
    maxRetries and delay. *)
Theorem retry_helpers_agree :
  forall A (fn : M A) maxRetries d env w,
    (forall w0 e w1,
        fn env w0 = (Throw e, w1) ->
        status_retryable e = message_retryable e) ->
    Batch.retryWithBackoff fn maxRetries d env w
    = Dashboard.retryWithBackoff fn maxRetries d env w.
Proof.
  intros A fn maxRetries d env w H.
  unfold Batch.retryWithBackoff, Dashboard.retryWithBackoff.
  rewrite batch_loop_generic, dashboard_loop_generic.
  apply loop_retryable_ext. exact H.
Qed.

(** What [generateAIInsights] adds to its retry helper leaves the trace
    and the clock alone. *)
Lemma generateAIInsights_world industry env w :
  trace (snd (Dashboard.generateAIInsights industry env w))
  = trace (snd (Dashboard.retryWithBackoff (Dashboard.generate_once industry)
                  3 1000 env w))
  /\ clock (snd (Dashboard.generateAIInsights industry env w))
     = clock (snd (Dashboard.retryWithBackoff (Dashboard.generate_once industry)
                     3 1000 env w)).
Proof.
  unfold Dashboard.generateAIInsights, try_catch.
  destruct (Dashboard.retryWithBackoff (Dashboard.generate_once industry)
              3 1000 env w) as [[a|e|] w1]; split; reflexivity.
Qed.

(** The calls and the sleeps of [generateAIInsights], whatever happens. *)
Lemma generateAIInsights_attempts :
  forall industry env w,
  exists n,
    (1 <= n <= 3)%nat
    /\ trace (snd (Dashboard.generateAIInsights industry env w))
       = trace w ++ attempts (InsightsPrompt industry) (exponential 1000) 0 n
    /\ clock (snd (Dashboard.generateAIInsights industry env w))
       = (clock w + 1000 * (2 ^ (Z.of_nat n - 1) - 1))%Z.
Proof.
  intros industry env w.
  destruct (generateAIInsights_world industry env w) as [Ht Hc].
  rewrite Ht, Hc. unfold Dashboard.retryWithBackoff.
  rewrite dashboard_loop_generic.
  destruct (@loop_shape _ message_retryable (Dashboard.generate_once industry)
              env (InsightsPrompt industry) (generate_outcome env) 3 1000
              (generate_once_calls_once industry env) (generate_outcome_ends env)
              (S (Z.to_nat 3)) 0%Z w)
    as [n [Hn [H1 [_ [Ht' [_ Hk]]]]]].
  { simpl. lia. }
  exists n. specialize (H1 ltac:(lia)). change (Z.to_nat (3 - 0)) with 3%nat in Hn.
  repeat split; try lia; try assumption.
  rewrite Hk. destruct n as [|n]; [lia|].
  rewrite total_sleep_exponential by lia.
  replace (Z.of_nat (S n) - 1)%Z with (Z.of_nat n) by lia.
  rewrite Z.pow_0_r. ring.
Qed.

(** X4: whatever the remote calls do, [generateAIInsights]
    makes one, two or three remote calls, sleeps 1000 ms after the first
    and 2000 ms after the second failed attempt that it retries, writes
    nothing to the database, and has slept 0, 1000 or 3000 ms in all. *)
Theorem generateAIInsights_bounded :
  forall industry env w,
  exists n,
    (1 <= n <= 3)%nat
    /\ trace (snd (Dashboard.generateAIInsights industry env w))
       = trace w ++ attempts (InsightsPrompt industry) (exponential 1000) 0 n
    /\ clock (snd (Dashboard.generateAIInsights industry env w))
       = (clock w + 1000 * (2 ^ (Z.of_nat n - 1) - 1))%Z.
Proof. exact generateAIInsights_attempts. Qed.

(** [generateAIInsights] returns a value. *)
Lemma generateAIInsights_value industry env w :
  exists v, fst (Dashboard.generateAIInsights industry env w) = Return (Some v).
Proof.
  pose proof (@dashboard_loop_outcome _ (Dashboard.generate_once industry)
                (fun _ => True) env 3 1000) as H.
  specialize (fun Hfn => H Hfn 4%nat 0%Z w).
  unfold Dashboard.generateAIInsights, try_catch, Dashboard.retryWithBackoff.
  change (S (Z.to_nat 3)) with 4%nat.
  destruct (Dashboard.retry_loop 4 (Dashboard.generate_once industry) 3 1000 0
              env w) as [[[v|]|e|] w1].
  - exists v. reflexivity.
  - exfalso. assert (3 <= 0)%Z; [|lia]. apply H; [|simpl; lia].
    intros w0. pose proof (generate_once_outcome industry env w0) as K.
    destruct (Dashboard.generate_once industry env w0) as [[a|e|] w2]; auto.
  - eexists. reflexivity.
  - exfalso. apply H; [|simpl; lia].
    intros w0. pose proof (generate_once_outcome industry env w0) as K.
    destruct (Dashboard.generate_once industry env w0) as [[a|e|] w2]; auto.
Qed.

Lemma overloaded_retryable e :
  Dashboard.overloaded e -> message_retryable e = true.
Proof. intros H. apply orb_true_iff. exact H. Qed.

(** X5: after n < 3 failures whose message mentions the
    overload or 503, [generateAIInsights] returns what the next response
    parses to, after n + 1 calls; and it returns the fallback when the next
    call fails and is the third or is not such an overload. *)
Theorem generateAIInsights_after_overload :
  forall industry env w n,
    (n < 3)%nat ->
    (forall k, (k < n)%nat ->
               exists e, remote env (calls w + k)%nat = Rejects e
                         /\ Dashboard.overloaded e) ->
    (forall r resp t v,
        remote env (calls w + n)%nat = Resolves r ->
        response r = Some resp ->
        text resp = inr (Some t) ->
        JSON_parse (cleanText t) = Some v ->
        fst (Dashboard.generateAIInsights industry env w) = Return (Some v)
        /\ trace (snd (Dashboard.generateAIInsights industry env w))
           = trace w ++ attempts (InsightsPrompt industry) (exponential 1000) 0
                          (S n))
    /\ (forall e,
          remote env (calls w + n)%nat = Rejects e ->
          ~ Dashboard.overloaded e \/ n = 2%nat ->
          fst (Dashboard.generateAIInsights industry env w)
          = Return (Some (Dashboard.getFallbackInsights industry))
          /\ trace (snd (Dashboard.generateAIInsights industry env w))
             = trace w ++ attempts (InsightsPrompt industry) (exponential 1000) 0
                            (S n)).
Proof.
  intros industry env w n Hn Hfail.
  assert (Hfail' : forall k, (k < n)%nat ->
            exists e, generate_outcome env (calls w + k) = Throw e
                      /\ message_retryable e = true).
  { intros k Hk. destruct (Hfail k Hk) as [e [He Hr]]. exists e.
    unfold generate_outcome. rewrite He.
    split; [reflexivity | apply overloaded_retryable; exact Hr]. }
  split.
  - intros r resp t v R Hr Ht Hp.
    destruct (@loop_succeeds _ message_retryable
                (Dashboard.generate_once industry) env (InsightsPrompt industry)
                (generate_outcome env) 3 1000
                (generate_once_calls_once industry env)
                n (S (Z.to_nat 3)) 0%Z w v) as [Hv Htr];
      [simpl; lia | lia | exact Hfail'
       | unfold generate_outcome; rewrite R, Hr, Ht, Hp; reflexivity |].
    rewrite <- dashboard_loop_generic in Hv, Htr.
    fold (Dashboard.retryWithBackoff (Dashboard.generate_once industry) 3 1000
            env w) in Hv, Htr.
    destruct (generateAIInsights_world industry env w) as [Hw _].
    rewrite Hw. split; [|exact Htr].
    destruct (Dashboard.retryWithBackoff (Dashboard.generate_once industry)
                3 1000 env w) as [o w1] eqn:E.
    cbn [fst] in Hv. subst o.
    rewrite (generateAIInsights_returns _ _ _ E). reflexivity.
  - intros e R Hwhy.
    destruct (@loop_gives_up _ message_retryable
                (Dashboard.generate_once industry) env (InsightsPrompt industry)
                (generate_outcome env) 3 1000
                (generate_once_calls_once industry env)
                n (S (Z.to_nat 3)) 0%Z w e) as [Hv Htr];
      [simpl; lia | lia | exact Hfail'
       | unfold generate_outcome; rewrite R; reflexivity | |].
    { destruct Hwhy as [Hr|Hl]; [left | right; lia].
      destruct (message_retryable e) eqn:E; [|reflexivity].
      exfalso. apply Hr. apply orb_true_iff. exact E. }
    rewrite <- dashboard_loop_generic in Hv, Htr.
    fold (Dashboard.retryWithBackoff (Dashboard.generate_once industry) 3 1000
            env w) in Hv, Htr.
    destruct (generateAIInsights_world industry env w) as [Hw _].
    rewrite Hw. split; [|exact Htr].
    destruct (Dashboard.retryWithBackoff (Dashboard.generate_once industry)
                3 1000 env w) as [o w1] eqn:E.
    cbn [fst] in Hv. subst o.
    apply (generateAIInsights_falls_back _ _ _ E).
Qed.

End BackoffFacts.
(** ** The resume action in general *)

Section ImproveFacts.

Lemma improve_attempt_outcome p attempt env w :
  fst (Resume.improve_attempt p attempt env w) = improve_outcome env (calls w)
  /\ trace (snd (Resume.improve_attempt p attempt env w)) = trace w ++ [EvCall p]
  /\ calls (snd (Resume.improve_attempt p attempt env w)) = S (calls w)
  /\ clock (snd (Resume.improve_attempt p attempt env w)) = clock w.
Proof.
  unfold Resume.improve_attempt, bind, console_log, generateContent,
    improve_outcome, throw.
  cbn [calls logged].
  destruct (remote env (calls w)) as [e|r]; [repeat split|].
  destruct (response r) as [resp|]; [|repeat split].
  destruct (Resume.safety_blocked resp); [repeat split|].
  destruct (text resp) as [e|[t|]]; try (repeat split; fail).
  cbn [option_map]. destruct (trim t); repeat split.
Qed.

Lemma improve_outcome_good env k c :
  improve_outcome env k = Return c -> improved_from_remote env c.
Proof.
  unfold improve_outcome, improved_from_remote.
  destruct (remote env k) as [e|r] eqn:R; [discriminate|].
  destruct (response r) as [resp|] eqn:Hr; [|discriminate].
  destruct (Resume.safety_blocked resp) eqn:Hb; [discriminate|].
  destruct (text resp) as [e|[t|]] eqn:Ht; try discriminate.
  cbn [option_map]. destruct (trim t) as [|a l] eqn:E; [discriminate|].
  intros H. inversion H; subst. split; [discriminate|].
  exists k, r, resp, t. rewrite E. auto.
Qed.

Lemma improve_outcome_ends env k : improve_outcome env k <> OutOfFuel.
Proof.
  unfold improve_outcome.
  destruct (remote env k) as [e|r]; [discriminate|].
  destruct (response r) as [resp|]; [|discriminate].
  destruct (Resume.safety_blocked resp); [discriminate|].
  destruct (text resp) as [e|[t|]]; try discriminate.
  cbn [option_map]. destruct (trim t); discriminate.
Qed.

(** The loop never throws: it returns a result or is left with the last
    error. It makes at most one call per attempt that is left, with the
    linear sleeps in between. *)
Lemma improve_loop_shape p maxRetries env :
  forall fuel attempt lastError w,
    (Z.to_nat (maxRetries - attempt + 1) < fuel)%nat ->
    exists n,
      (n <= Z.to_nat (maxRetries - attempt + 1))%nat
      /\ ((attempt <= maxRetries)%Z -> (1 <= n)%nat)
      /\ match fst (Resume.improve_loop fuel p maxRetries attempt lastError env w) with
         | Return (Resume.Returned c) => improved_from_remote env c
         | Return (Resume.Left _) => True
         | _ => False
         end
      /\ trace (snd (Resume.improve_loop fuel p maxRetries attempt lastError env w))
         = trace w ++ attempts p linear attempt n
      /\ clock (snd (Resume.improve_loop fuel p maxRetries attempt lastError env w))
         = (clock w + total_sleep (attempts p linear attempt n))%Z.
Proof.
  induction fuel as [|fuel IH]; intros attempt lastError w Hfuel; [lia|].
  cbn [Resume.improve_loop].
  destruct (Z.leb_spec attempt maxRetries) as [Hi|Hi].
  - unfold try_catch, bind.
    destruct (improve_attempt_outcome p attempt env w) as [Ho [Ht [Hc Hk]]].
    pose proof (improve_outcome_ends env (calls w)) as He.
    pose proof (@improve_outcome_good env (calls w)) as Hg.
    destruct (Resume.improve_attempt p attempt env w) as [o w1].
    cbn [fst snd] in Ho, Ht, Hc, Hk. rewrite <- Ho in He, Hg.
    destruct o as [c|e|]; [| |contradiction He; reflexivity].
    + exists 1%nat. cbn. repeat split; try lia; try assumption.
      * apply Hg. reflexivity.
      * apply Hg. reflexivity.
    + unfold console_log, ret, sleep.
      destruct (Z.eqb_spec attempt maxRetries) as [Hlast|Hlast].
      { exists 1%nat. cbn. repeat split; try lia; assumption. }
      destruct (IH (attempt + 1)%Z (Some e)
                  (slept (1000 * attempt)
                     (logged (LogAttemptFailed attempt (message e)) w1)))
        as [n [Hn [H1 [Hv [Htr Hcl]]]]]; [lia|].
      specialize (H1 ltac:(lia)).
      exists (S n). repeat split; try lia; try exact Hv.
      * rewrite Htr. cbn [trace slept logged]. rewrite Ht.
        rewrite <- !app_assoc. cbn [app].
        rewrite <- (@attempts_snoc_first p linear attempt n H1). reflexivity.
      * rewrite Hcl. cbn [clock slept logged]. rewrite Hk.
        rewrite <- (@attempts_snoc_first p linear attempt n H1).
        cbn [total_sleep]. change (linear attempt) with (1000 * attempt)%Z. ring.
  - exists 0%nat. cbn. repeat split; try lia.
    rewrite app_nil_r. reflexivity.
Qed.

Lemma fail_with_in lastError env w :
  exists e, fst (Resume.fail_with lastError env w) = Throw e /\ In e improve_errors.
Proof.
  unfold Resume.fail_with, bind, console_log, throw.
  repeat match goal with
         | |- context [if ?b then _ else _] => destruct b
         end;
    (eexists; split; [reflexivity | cbn; tauto]).
Qed.

(** X7: once the session check and the lookup of the user have resolved
    (with a user or with none) and [current] is a string or absent, whatever
    the remote model does, [improveWithAI] either returns the trimmed,
    non-empty text of a remote response that was not blocked, or throws one
    of its own seven errors; an error of the remote model never reaches the
    caller. *)
Theorem improveWithAI_outcomes :
  forall current type env w,
    match fst (Resume.improveWithAI current type env w) with
    | Return c => improved_from_remote env c /\ trim c = c
    | Throw e => In e improve_errors
    | OutOfFuel => False
    end.
Proof.
  intros current type env w. unfold Resume.improveWithAI.
  unfold bind at 1. unfold ask.
  destruct (auth_userId env) as [userId|]; [|cbn; tauto].
  destruct (db_user env) as [user|]; [|cbn; tauto].
  destruct current as [current|]; [|cbn; tauto].
  destruct (is_nil current || is_nil (trim current))%bool; [cbn; tauto|].
  unfold bind.
  destruct (@improve_loop_shape
              (ImprovePrompt type (user_industry user) current) 3 env
              (S (Z.to_nat 3)) 1%Z None w) as [n [_ [_ [Hv _]]]];
    [simpl; lia|].
  destruct (Resume.improve_loop (S (Z.to_nat 3)) _ 3 1 None env w)
    as [[[c|lastError]|e|] w1]; cbn [fst] in Hv; try contradiction.
  - cbn. split; [exact Hv|].
    destruct Hv as [_ [k [r [resp [t [_ [_ [_ [_ ->]]]]]]]]].
    apply trim_idempotent.
  - cbn [Resume.after_loop].
    destruct (fail_with_in lastError env w1) as [e [He Hin]].
    rewrite He. exact Hin.
Qed.

(** X8: for a signed-in user that the database knows and content that is
    not blank, [improveWithAI] makes one, two or three remote calls and
    sleeps 1000 * attempt ms after a failed attempt that is not the last:
    1000 ms after the first, 2000 ms after the second, so 0, 1000 or 3000 ms
    in all. *)
Theorem improveWithAI_bounded :
  forall env w current type userId user,
    auth_userId env = Some userId ->
    db_user env = Some user ->
    trim current <> [] ->
    exists n,
      (1 <= n <= 3)%nat
      /\ trace (snd (Resume.improveWithAI (Some current) type env w))
         = trace w
           ++ attempts (ImprovePrompt type (user_industry user) current) linear 1 n
      /\ clock (snd (Resume.improveWithAI (Some current) type env w))
         = (clock w + 1000 * Z.of_nat (n * (n - 1) / 2))%Z.
Proof.
  intros env w current type userId user Ha Hu Hc.
  rewrite (@improveWithAI_valid env w current type userId user Ha Hu Hc).
  set (p := ImprovePrompt type (user_industry user) current).
  destruct (@improve_loop_shape p 3 env 4%nat 1%Z None w)
    as [n [Hn [H1 [Hv [Ht Hk]]]]]; [simpl; lia|].
  specialize (H1 ltac:(lia)). change (Z.to_nat (3 - 1 + 1)) with 3%nat in Hn.
  exists n. split; [lia|].
  rewrite after_loop_trace. split; [exact Ht|].
  assert (Hclock :
    clock (snd (bind (Resume.improve_loop 4 p 3 1 None) Resume.after_loop env w))
    = clock (snd (Resume.improve_loop 4 p 3 1 None env w))).
  { unfold bind.
    destruct (Resume.improve_loop 4 p 3 1 None env w)
      as [[[c|lastError]|e|] w1]; try reflexivity.
    cbn [Resume.after_loop]. unfold Resume.fail_with, bind, console_log, throw.
    repeat match goal with
           | |- context [if ?b then _ else _] => destruct b
           end; reflexivity. }
  rewrite Hclock, Hk.
  destruct n as [|[|[|[|n]]]]; try lia; reflexivity.
Qed.

(** After [n] failed attempts the next one decides, if it returns or is
    the last. *)
Lemma improve_loop_run p maxRetries env :
  forall n fuel attempt lastError w,
    (n < fuel)%nat ->
    (attempt + Z.of_nat n <= maxRetries)%Z ->
    (forall k, (k < n)%nat ->
               exists e, improve_outcome env (calls w + k)%nat = Throw e) ->
    trace (snd (Resume.improve_loop fuel p maxRetries attempt lastError env w))
    = trace w ++ attempts p linear attempt (S n)
    /\ match improve_outcome env (calls w + n)%nat with
       | Return c =>
           fst (Resume.improve_loop fuel p maxRetries attempt lastError env w)
           = Return (Resume.Returned c)
       | Throw e =>
           (attempt + Z.of_nat n = maxRetries)%Z ->
           fst (Resume.improve_loop fuel p maxRetries attempt lastError env w)
           = Return (Resume.Left (Some e))
       | OutOfFuel => True
       end
    \/ (exists e, improve_outcome env (calls w + n)%nat = Throw e)
       /\ (attempt + Z.of_nat n < maxRetries)%Z.
Proof.
  induction n as [|n IH]; intros fuel attempt lastError w Hfuel Hi Hfail;
    (destruct fuel as [|fuel]; [lia|]); cbn [Resume.improve_loop];
    (destruct (Z.leb_spec attempt maxRetries); [|lia]);
    unfold try_catch, bind;
    destruct (improve_attempt_outcome p attempt env w) as [Ho [Ht [Hc Hk]]];
    destruct (Resume.improve_attempt p attempt env w) as [o w1];
    cbn [fst snd] in Ho, Ht, Hc, Hk.
  - rewrite Nat.add_0_r. rewrite <- Ho.
    destruct o as [c|e|].
    + left. split; [exact Ht | reflexivity].
    + unfold console_log, ret, sleep.
      destruct (Z.eqb_spec attempt maxRetries) as [Hlast|Hlast].
      * left. split; [exact Ht | intros _; reflexivity].
      * right. split; [exists e; reflexivity | lia].
    + left. split; [exact Ht | exact I].
  - destruct (Hfail 0%nat ltac:(lia)) as [e0 He0].
    rewrite Nat.add_0_r in He0. rewrite He0 in Ho. subst o.
    unfold console_log, ret, sleep.
    destruct (Z.eqb_spec attempt maxRetries); [lia|].
    match goal with
    | |- context [Resume.improve_loop fuel p maxRetries (attempt + 1) ?le env ?w2] =>
        destruct (IH fuel (attempt + 1)%Z le w2) as [[Htr Hv]|[Hv Hlt]]
    end; [lia | lia | | |].
    + intros k Hk'. cbn [calls slept logged]. rewrite Hc.
      destruct (Hfail (S k) ltac:(lia)) as [e' He'].
      exists e'. rewrite Nat.add_succ_comm. exact He'.
    + left. cbn [calls slept logged] in Hv. rewrite Hc in Hv.
      rewrite Nat.add_succ_comm in Hv. split.
      * rewrite Htr. cbn [trace slept logged]. rewrite Ht.
        rewrite <- !app_assoc. reflexivity.
      * destruct (improve_outcome env (calls w + S n)); try exact Hv.
        intros Hl. apply Hv. lia.
    + right. cbn [calls slept logged] in Hv. rewrite Hc in Hv.
      rewrite Nat.add_succ_comm in Hv. split; [exact Hv | lia].
Qed.

(** X9: [improveWithAI] retries every failure of the remote
    call, whatever its status or message: when the first n < 3 calls are
    rejected and the next response is not blocked and has text, it returns
    that text trimmed, after n + 1 calls and the sleeps 1000, 2000. *)
Theorem improveWithAI_retries_any_failure :
  forall env w current type userId user n r resp t,
    auth_userId env = Some userId ->
    db_user env = Some user ->
    trim current <> [] ->
    (n < 3)%nat ->
    (forall k, (k < n)%nat -> exists e, remote env (calls w + k)%nat = Rejects e) ->
    remote env (calls w + n)%nat = Resolves r ->
    response r = Some resp ->
    Resume.safety_blocked resp = false ->
    text resp = inr (Some t) ->
    trim t <> [] ->
    fst (Resume.improveWithAI (Some current) type env w) = Return (trim t)
    /\ trace (snd (Resume.improveWithAI (Some current) type env w))
       = trace w
         ++ attempts (ImprovePrompt type (user_industry user) current) linear 1
              (S n).
Proof.
  intros env w current type userId user n r resp t Ha Hu Hc Hn Hfail R Hr Hb Ht Hne.
  rewrite (@improveWithAI_valid env w current type userId user Ha Hu Hc).
  set (p := ImprovePrompt type (user_industry user) current).
  assert (Hout : improve_outcome env (calls w + n) = Return (trim t)).
  { unfold improve_outcome. rewrite R, Hr, Hb, Ht. cbn [option_map].
    destruct (trim t); [contradiction Hne; reflexivity | reflexivity]. }
  destruct (@improve_loop_run p 3 env n 4%nat 1%Z None w) as [[Htr Hv]|[[e He] _]];
    [lia | lia | | | rewrite Hout in He; discriminate].
  { intros k Hk. destruct (Hfail k Hk) as [e He]. exists e.
    unfold improve_outcome. rewrite He. reflexivity. }
  rewrite Hout in Hv. rewrite after_loop_trace. split; [|exact Htr].
  unfold bind.
  destruct (Resume.improve_loop 4 p 3 1 None env w) as [o w1].
  cbn [fst] in Hv. subst o. reflexivity.
Qed.

(** X10: when all three remote calls are rejected,
    [improveWithAI] has made three calls with sleeps of 1000 and 2000 ms, and
    the error it throws is decided by the message of the third rejection
    alone: "safety filters" in it gives the safety error; otherwise "quota"
    or "rate limit" gives the rate limit error. *)
Theorem improveWithAI_last_error_decides :
  forall env w current type userId user e1 e2 e3 m,
    auth_userId env = Some userId ->
    db_user env = Some user ->
    trim current <> [] ->
    remote env (calls w) = Rejects e1 ->
    remote env (S (calls w)) = Rejects e2 ->
    remote env (S (S (calls w))) = Rejects e3 ->
    message e3 = Some m -> m <> [] ->
    trace (snd (Resume.improveWithAI (Some current) type env w))
    = trace w
      ++ attempts (ImprovePrompt type (user_industry user) current) linear 1 3
    /\ (includes m (js "safety filters") = true ->
        fst (Resume.improveWithAI (Some current) type env w)
        = Throw (new_Error "Content was flagged by safety filters. Please rephrase your description."))
    /\ (includes m (js "safety filters") = false ->
        (includes m (js "quota") || includes m (js "rate limit"))%bool = true ->
        fst (Resume.improveWithAI (Some current) type env w)
        = Throw (new_Error "API rate limit reached. Please wait a moment and try again.")).
Proof.
  intros env w current type userId user e1 e2 e3 m Ha Hu Hc R1 R2 R3 Hm Hne.
  rewrite (@improveWithAI_valid env w current type userId user Ha Hu Hc).
  set (p := ImprovePrompt type (user_industry user) current).
  assert (Hout : improve_outcome env (calls w + 2) = Throw e3).
  { unfold improve_outcome. replace (calls w + 2)%nat with (S (S (calls w))) by lia.
    rewrite R3. reflexivity. }
  destruct (@improve_loop_run p 3 env 2%nat 4%nat 1%Z None w) as [[Htr Hv]|[_ Hlt]];
    [lia | lia | | | lia].
  { intros k Hk. unfold improve_outcome.
    destruct k as [|[|k]]; [| |lia].
    - rewrite Nat.add_0_r, R1. eexists; reflexivity.
    - replace (calls w + 1)%nat with (S (calls w)) by lia. rewrite R2.
      eexists; reflexivity. }
  rewrite Hout in Hv. specialize (Hv eq_refl).
  rewrite after_loop_trace. split; [exact Htr|].
  unfold bind.
  destruct (Resume.improve_loop 4 p 3 1 None env w) as [o w1].
  cbn [fst] in Hv. subst o. cbn [Resume.after_loop].
  unfold Resume.fail_with, Resume.errorMessage_of. rewrite Hm.
  destruct m as [|c m]; [contradiction Hne; reflexivity|].
  unfold bind, console_log, throw. split.
  - intros Hs. rewrite Hs. reflexivity.
  - intros Hs Hq. rewrite Hs, Hq. reflexivity.
Qed.

End ImproveFacts.
(** ** The records that are written *)

Section RecordFacts.

Lemma jsstring_eqb_eq a : forall b, jsstring_eqb a b = true -> a = b.
Proof.
  induction a as [|x a IH]; intros [|y b] H; try discriminate; [reflexivity|].
  cbn [jsstring_eqb] in H. apply andb_true_iff in H. destruct H as [Hx Ha].
  apply N.eqb_eq in Hx. subst. f_equal. apply IH. exact Ha.
Qed.

Lemma obj_get_set_other V k1 k (v : V) o :
  jsstring_eqb k1 k = false -> obj_get k (obj_set k1 v o) = obj_get k o.
Proof.
  intros H. induction o as [|[k' v'] o IH]; cbn [obj_set obj_get].
  - rewrite H. reflexivity.
  - destruct (jsstring_eqb k' k1) eqn:E1; cbn [obj_get].
    + apply jsstring_eqb_eq in E1. subst k'. rewrite H. reflexivity.
    + rewrite IH. reflexivity.
Qed.

(** A property of [{...o, ...more}] is the one that [more] defines, if it
    defines one, and the one of [o] otherwise. *)
Lemma obj_get_assign V (more : obj V) k :
  forall o,
    obj_get k (obj_assign o more)
    = match obj_get k (obj_assign [] more) with
      | Some v => Some v
      | None => obj_get k o
      end.
Proof.
  unfold obj_assign. induction more as [|[k1 v1] more IH]; intros o.
  - reflexivity.
  - cbn [fold_left fst snd]. rewrite (IH (obj_set k1 v1 o)).
    rewrite (IH (obj_set k1 v1 [])).
    match goal with
    | |- context [obj_get k (fold_left ?f more [])] =>
        destruct (obj_get k (fold_left f more [])) as [v|]
    end; [reflexivity|].
    destruct (jsstring_eqb k1 k) eqn:E.
    + apply jsstring_eqb_eq in E. subst k1. rewrite !obj_get_set. reflexivity.
    + rewrite !(@obj_get_set_other _ _ _ _ _ E). reflexivity.
Qed.

Lemma step_succeeds industry env w r t v :
  remote env (calls w) = Resolves r ->
  (forall w', Batch.response_text_of (Some r) env w' = (Return t, w')) ->
  JSON_parse (cleanText t) = Some v ->
  Batch.generate_insights_step industry env w
  = (Return (industry, js "updated"),
     recorded
       (EvDbUpdate (clock w) industry
          (obj_set (js "nextUpdate") (FDate (clock w + refresh_interval))
             (obj_set (js "lastUpdated") (FDate (clock w))
                (obj_assign [] (spread (Some v))))))
       (called (InsightsPrompt (Some industry)) w)).
Proof.
  intros R Ht Hp.
  unfold Batch.generate_insights_step. unfold bind at 1.
  unfold Batch.retryWithBackoff. change (S (Z.to_nat 3)) with 4%nat.
  erewrite batch_loop_return;
    [| lia | apply generateContent_resolves; exact R].
  unfold bind at 1. rewrite Ht.
  unfold bind at 1. unfold JSON_parse_M. rewrite Hp. reflexivity.
Qed.

(** X13: when the first response for a subject parses, the batch step
    makes that one remote call and one update, of the record of that
    subject. In the record [lastUpdated] is the clock, [nextUpdate] the clock
    plus seven days, and every other property is the one of the parsed
    insights: the insights cannot set those two. *)
Theorem batch_step_updates_subject :
  forall industry env w r t v,
    remote env (calls w) = Resolves r ->
    (forall w', Batch.response_text_of (Some r) env w' = (Return t, w')) ->
    JSON_parse (cleanText t) = Some v ->
    exists data,
      fst (Batch.generate_insights_step industry env w)
      = Return (industry, js "updated")
      /\ trace (snd (Batch.generate_insights_step industry env w))
         = trace w ++ [EvCall (InsightsPrompt (Some industry));
                       EvDbUpdate (clock w) industry data]
      /\ obj_get (js "lastUpdated") data = Some (FDate (clock w))
      /\ obj_get (js "nextUpdate") data
         = Some (FDate (clock w + 7 * 24 * 60 * 60 * 1000))
      /\ (forall k,
            jsstring_eqb (js "lastUpdated") k = false ->
            jsstring_eqb (js "nextUpdate") k = false ->
            obj_get k data = own_property (Some v) k).
Proof.
  intros industry env w r t v R Ht Hp.
  rewrite (@step_succeeds industry env w r t v R Ht Hp).
  eexists. split; [reflexivity|]. split.
  - cbn [snd trace recorded called]. rewrite <- app_assoc. reflexivity.
  - split; [|split].
    + rewrite obj_get_set_other by reflexivity. apply obj_get_set.
    + apply obj_get_set.
    + intros k H1 H2. rewrite !obj_get_set_other by assumption. reflexivity.
Qed.

Lemma updated_industries_app t1 t2 :
  updated_industries (t1 ++ t2) = updated_industries t1 ++ updated_industries t2.
Proof.
  induction t1 as [|ev t1 IH]; [reflexivity|].
  destruct ev; cbn [app updated_industries]; rewrite IH; reflexivity.
Qed.

(** The job over a database whose calls can fail. With the database of the
    earlier sections it is the job of those sections. *)

Lemma reliable_step industry env w :
  WithDatabase.generate_insights_step (WithDatabase.reliable env) industry env w
  = Batch.generate_insights_step industry env w.
Proof.
  unfold WithDatabase.generate_insights_step, Batch.generate_insights_step.
  unfold bind.
  destruct (Batch.retryWithBackoff _ 3 2000 env w) as [[res|e|] w1];
    reflexivity.
Qed.

Lemma for_each_ext (body1 body2 : jsstring -> M (jsstring * jsstring)) env :
  (forall industry w, body1 industry env w = body2 industry env w) ->
  forall industries w,
    Batch.for_each industries body1 env w = Batch.for_each industries body2 env w.
Proof.
  intros H. induction industries as [|industry rest IH]; intros w;
    [reflexivity|].
  cbn [Batch.for_each]. unfold bind. rewrite H.
  destruct (body2 industry env w) as [[a|e|] w1]; try reflexivity.
  apply IH.
Qed.

Lemma reliable_job env w :
  WithDatabase.generateIndustryInsights (WithDatabase.reliable env) env w
  = Batch.generateIndustryInsights env w.
Proof.
  unfold WithDatabase.generateIndustryInsights, Batch.generateIndustryInsights.
  unfold Batch.step_run. unfold bind at 1 3.
  cbn [WithDatabase.findMany_result WithDatabase.reliable WithDatabase.settle].
  unfold bind at 3. unfold ask, ret. unfold bind at 1 2.
  rewrite (@for_each_ext _ Batch.generate_insights_step env
             (fun industry w' => reliable_step industry env w')).
  reflexivity.
Qed.

(** What a step does when the first response parses: one remote call, one
    update issued, and the outcome of that update. *)
Lemma step_updates db industry env w r t v :
  remote env (calls w) = Resolves r ->
  (forall w', Batch.response_text_of (Some r) env w' = (Return t, w')) ->
  JSON_parse (cleanText t) = Some v ->
  WithDatabase.generate_insights_step db industry env w
  = (match WithDatabase.update_result db industry
             (obj_set (js "nextUpdate") (FDate (clock w + refresh_interval))
                (obj_set (js "lastUpdated") (FDate (clock w))
                   (obj_assign [] (spread (Some v))))) with
     | inl e => Throw e
     | inr _ => Return (industry, js "updated")
     end,
     recorded
       (EvDbUpdate (clock w) industry
          (obj_set (js "nextUpdate") (FDate (clock w + refresh_interval))
             (obj_set (js "lastUpdated") (FDate (clock w))
                (obj_assign [] (spread (Some v))))))
       (called (InsightsPrompt (Some industry)) w)).
Proof.
  intros R Ht Hp.
  unfold WithDatabase.generate_insights_step. unfold bind at 1.
  unfold Batch.retryWithBackoff. change (S (Z.to_nat 3)) with 4%nat.
  erewrite batch_loop_return;
    [| lia | apply generateContent_resolves; exact R].
  unfold bind at 1. rewrite Ht.
  unfold bind at 1. unfold JSON_parse_M. rewrite Hp.
  unfold WithDatabase.db_industryInsight_update, bind, Date_now, emit, ret.
  cbn [clock called recorded].
  destruct (WithDatabase.update_result db industry _); reflexivity.
Qed.

Lemma for_each_app (body : jsstring -> M (jsstring * jsstring)) env :
  forall done rest w,
    Batch.for_each (done ++ rest) body env w
    = match Batch.for_each done body env w with
      | (Return _, w1) => Batch.for_each rest body env w1
      | (Throw e, w1) => (Throw e, w1)
      | (OutOfFuel, w1) => (OutOfFuel, w1)
      end.
Proof.
  induction done as [|industry done IH]; intros rest w; [reflexivity|].
  cbn [app Batch.for_each]. unfold bind.
  destruct (body industry env w) as [[a|e|] w1]; try reflexivity.
  apply IH.
Qed.

Lemma for_each_succeeds db env :
  forall industries w,
    (forall k, (calls w <= k < calls w + List.length industries)%nat ->
               parsable_response env k) ->
    (forall industry data,
        In industry industries ->
        WithDatabase.update_result db industry data = inr tt) ->
    exists w',
      Batch.for_each industries (WithDatabase.generate_insights_step db) env w
      = (Return tt, w')
      /\ updated_industries (trace w')
         = updated_industries (trace w) ++ industries
      /\ calls w' = (calls w + List.length industries)%nat
      /\ clock w' = clock w.
Proof.
  induction industries as [|industry rest IH]; intros w H Hup.
  - exists w. cbn. rewrite app_nil_r. repeat split; lia.
  - destruct (H (calls w)) as [r [t [v [R [Ht Hp]]]]]; [cbn; lia|].
    cbn [Batch.for_each]. unfold bind at 1.
    rewrite (@step_updates db industry env w r t v R Ht Hp).
    rewrite Hup by (left; reflexivity).
    match goal with
    | |- context [Batch.for_each rest _ env ?w1] =>
        destruct (IH w1) as [w' [Hrun [Hu [Hc Hk]]]]
    end.
    { intros k Hk. apply H. cbn [calls recorded called List.length] in Hk |- *. lia. }
    { intros i data Hi. apply Hup. right. exact Hi. }
    exists w'. split; [exact Hrun|]. split; [|split].
    + rewrite Hu. cbn [trace recorded called].
      rewrite !updated_industries_app. cbn [updated_industries].
      rewrite <- !app_assoc. reflexivity.
    + rewrite Hc. cbn [calls recorded called List.length]. lia.
    + rewrite Hk. reflexivity.
Qed.

Lemma job_runs db env w industries :
  WithDatabase.findMany_result db = inr industries ->
  WithDatabase.generateIndustryInsights db env w
  = match Batch.for_each industries (WithDatabase.generate_insights_step db)
            env w with
    | (Return _, w1) =>
        (Return (js "Industry insights generated successfully",
                 Z.of_nat (List.length industries)), w1)
    | (Throw e, w1) => (Throw e, w1)
    | (OutOfFuel, w1) => (OutOfFuel, w1)
    end.
Proof.
  intros Hf. unfold WithDatabase.generateIndustryInsights, Batch.step_run.
  unfold bind at 1. rewrite Hf. cbn [WithDatabase.settle]. unfold ret at 1.
  unfold bind.
  change (fun industry : jsstring =>
            WithDatabase.generate_insights_step db industry)
    with (WithDatabase.generate_insights_step db).
  destruct (Batch.for_each industries _ env w) as [[a|e|] w1]; reflexivity.
Qed.

(** X14: the job and its database. When the listing of the subjects
    rejects, the job throws that error and does nothing else. When it
    resolves and every response parses at the first attempt: if the update of
    every subject resolves, the job makes one remote call per subject and no
    sleep, issues one update per subject, in the order of the listing, and
    returns their count (0 and no effect for an empty listing); if the update
    of a subject rejects after those of the subjects before it resolved, the
    job throws that error, having issued the updates up to that one, and
    makes no remote call for the subjects after it. *)
Theorem job_updates_every_subject :
  forall db env w,
    match WithDatabase.findMany_result db with
    | inl e => WithDatabase.generateIndustryInsights db env w = (Throw e, w)
    | inr industries =>
        (forall k, (calls w <= k < calls w + List.length industries)%nat ->
                   parsable_response env k) ->
        ((forall industry data,
             In industry industries ->
             WithDatabase.update_result db industry data = inr tt) ->
         fst (WithDatabase.generateIndustryInsights db env w)
         = Return (js "Industry insights generated successfully",
                   Z.of_nat (List.length industries))
         /\ updated_industries
              (trace (snd (WithDatabase.generateIndustryInsights db env w)))
            = updated_industries (trace w) ++ industries
         /\ calls (snd (WithDatabase.generateIndustryInsights db env w))
            = (calls w + List.length industries)%nat
         /\ clock (snd (WithDatabase.generateIndustryInsights db env w))
            = clock w)
        /\ (forall done industry rest e,
              industries = done ++ industry :: rest ->
              (forall i data,
                  In i done -> WithDatabase.update_result db i data = inr tt) ->
              (forall data,
                  WithDatabase.update_result db industry data = inl e) ->
              fst (WithDatabase.generateIndustryInsights db env w) = Throw e
              /\ updated_industries
                   (trace (snd (WithDatabase.generateIndustryInsights db env w)))
                 = updated_industries (trace w) ++ done ++ [industry]
              /\ calls (snd (WithDatabase.generateIndustryInsights db env w))
                 = (calls w + List.length done + 1)%nat
              /\ clock (snd (WithDatabase.generateIndustryInsights db env w))
                 = clock w)
    end.
Proof.
  intros db env w.
  destruct (WithDatabase.findMany_result db) as [e|industries] eqn:Hf.
  { unfold WithDatabase.generateIndustryInsights, Batch.step_run.
    unfold bind at 1. rewrite Hf. reflexivity. }
  intros H. rewrite (@job_runs db env w industries Hf). split.
  - intros Hup.
    destruct (@for_each_succeeds db env industries w H Hup)
      as [w' [Hrun [Hu [Hc Hk]]]].
    rewrite Hrun. cbn [fst snd]. auto.
  - intros done industry rest e -> Hdone Hfail.
    destruct (@for_each_succeeds db env done w) as [w' [Hrun [Hu [Hc Hk]]]].
    { intros k Hk. apply H. rewrite length_app. cbn [List.length]. lia. }
    { exact Hdone. }
    rewrite for_each_app, Hrun.
    destruct (H (calls w')) as [r [t [v [R [Ht Hp]]]]].
    { rewrite Hc, length_app. cbn [List.length]. lia. }
    cbn [Batch.for_each]. unfold bind.
    rewrite (@step_updates db industry env w' r t v R Ht Hp), Hfail.
    cbn [fst snd trace calls clock recorded called].
    rewrite !updated_industries_app, Hu. cbn [updated_industries app].
    rewrite <- !app_assoc. repeat split; [lia | exact Hk].
Qed.

End RecordFacts.
(** ** The dashboard action and the page *)

Section DashboardFacts.

Lemma getIndustryInsights_creates env w userId user :
  auth_userId env = Some userId ->
  db_user env = Some user ->
  industryInsight user = None ->
  Dashboard.getIndustryInsights env w
  = bind (Dashboard.generateAIInsights (user_industry user))
      (fun insights =>
         now <- Date_now ;;
         db_industryInsight_create
           (obj_set (js "nextUpdate") (FDate (now + refresh_interval))
              (obj_assign [(js "industry", industry_field (user_industry user))]
                 (spread insights)))) env w.
Proof.
  intros Ha Hu Hi. unfold Dashboard.getIndustryInsights. unfold bind at 1.
  unfold ask. rewrite Ha, Hu, Hi. reflexivity.
Qed.

(** The action over a database whose calls can fail. With the database of
    the earlier sections it is the action of those sections, for every
    session but one whose id is the empty string. *)
Lemma reliable_getIndustryInsights env w :
  auth_userId env <> Some [] ->
  WithDatabase.getIndustryInsights (WithDatabase.reliable env) env w
  = Dashboard.getIndustryInsights env w.
Proof.
  intros Ha.
  unfold WithDatabase.getIndustryInsights, Dashboard.getIndustryInsights.
  unfold bind, ask.
  destruct (auth_userId env) as [[|c userId]|];
    [contradiction | | reflexivity].
  cbn [WithDatabase.findUnique_result WithDatabase.reliable WithDatabase.settle].
  unfold ret.
  destruct (db_user env) as [user|]; [|reflexivity].
  destruct (industryInsight user) as [insight|]; [reflexivity|].
  destruct (Dashboard.generateAIInsights (user_industry user) env w)
    as [[insights|e|] w1]; reflexivity.
Qed.

Lemma getIndustryInsights_found db env w userId user :
  auth_userId env = Some userId ->
  userId <> [] ->
  WithDatabase.findUnique_result db userId = inr (Some user) ->
  WithDatabase.getIndustryInsights db env w
  = match industryInsight user with
    | None =>
        bind (Dashboard.generateAIInsights (user_industry user))
          (fun insights =>
             now <- Date_now ;;
             WithDatabase.db_industryInsight_create db
               (obj_set (js "nextUpdate") (FDate (now + refresh_interval))
                  (obj_assign
                     [(js "industry", industry_field (user_industry user))]
                     (spread insights)))) env w
    | Some insight => (Return insight, w)
    end.
Proof.
  intros Ha Hne Hu. unfold WithDatabase.getIndustryInsights.
  unfold bind at 1. unfold ask. rewrite Ha.
  destruct userId as [|c userId]; [contradiction|].
  unfold bind at 1. rewrite Hu. cbn [WithDatabase.settle]. unfold ret at 1.
  destruct (industryInsight user); reflexivity.
Qed.

Lemma create_issued db data env w :
  WithDatabase.db_industryInsight_create db data env w
  = (match WithDatabase.create_result db data with
     | inl e => Throw e
     | inr row => Return row
     end,
     recorded (EvDbCreate (clock w) data) w).
Proof.
  unfold WithDatabase.db_industryInsight_create, bind, Date_now, emit, ret.
  destruct (WithDatabase.create_result db data); reflexivity.
Qed.

(** The two ways through [getIndustryInsights] for a known user. *)
Lemma getIndustryInsights_cases :
  forall db env w userId user,
    auth_userId env = Some userId ->
    userId <> [] ->
    WithDatabase.findUnique_result db userId = inr (Some user) ->
    match industryInsight user with
    | Some insight =>
        WithDatabase.getIndustryInsights db env w = (Return insight, w)
    | None =>
        exists n data,
          (1 <= n <= 3)%nat
          /\ trace (snd (WithDatabase.getIndustryInsights db env w))
             = trace w
               ++ attempts (InsightsPrompt (user_industry user))
                    (exponential 1000) 0 n
               ++ [EvDbCreate
                     (clock (snd (WithDatabase.getIndustryInsights db env w)))
                     data]
          /\ fst (WithDatabase.getIndustryInsights db env w)
             = match WithDatabase.create_result db data with
               | inl e => Throw e
               | inr row => Return row
               end
    end.
Proof.
  intros db env w userId user Ha Hne Hu.
  rewrite (@getIndustryInsights_found db env w userId user Ha Hne Hu).
  destruct (industryInsight user) as [insight|]; [reflexivity|].
  destruct (generateAIInsights_attempts (user_industry user) env w)
    as [n [Hn [Ht _]]].
  destruct (generateAIInsights_value (user_industry user) env w) as [v Hv].
  unfold bind, Date_now.
  destruct (Dashboard.generateAIInsights (user_industry user) env w)
    as [o w1]. cbn [fst snd] in Ht, Hv. subst o.
  exists n.
  exists (obj_set (js "nextUpdate") (FDate (clock w1 + refresh_interval))
            (obj_assign [(js "industry", industry_field (user_industry user))]
               (spread (Some v)))).
  split; [exact Hn|].
  rewrite create_issued. cbn [fst snd trace clock recorded].
  rewrite Ht, <- app_assoc. split; reflexivity.
Qed.

(** X15: for a signed-in user whose row the database returns,
    [getIndustryInsights] returns the stored insight as it is, without a
    remote call or a write. When none is stored it makes one to three remote
    calls and then issues exactly one create: it returns the row that the
    create resolves to and throws the error that the create rejects with.
    No failure of the remote model makes it throw. *)
Theorem getIndustryInsights_known_user :
  forall db env w userId user,
    auth_userId env = Some userId ->
    userId <> [] ->
    WithDatabase.findUnique_result db userId = inr (Some user) ->
    match industryInsight user with
    | Some insight =>
        WithDatabase.getIndustryInsights db env w = (Return insight, w)
    | None =>
        exists n data,
          (1 <= n <= 3)%nat
          /\ trace (snd (WithDatabase.getIndustryInsights db env w))
             = trace w
               ++ attempts (InsightsPrompt (user_industry user))
                    (exponential 1000) 0 n
               ++ [EvDbCreate
                     (clock (snd (WithDatabase.getIndustryInsights db env w)))
                     data]
          /\ fst (WithDatabase.getIndustryInsights db env w)
             = match WithDatabase.create_result db data with
               | inl e => Throw e
               | inr row => Return row
               end
    end.
Proof. exact getIndustryInsights_cases. Qed.

(** X16: in the record that [getIndustryInsights] creates, every
    property other than [nextUpdate] is the one of the generated insights
    when they have it, [industry] included; only where they have no
    [industry] is it the industry of the user. *)
Theorem created_record_fields :
  forall env w userId user,
    auth_userId env = Some userId ->
    db_user env = Some user ->
    industryInsight user = None ->
    exists insights data,
      fst (Dashboard.generateAIInsights (user_industry user) env w)
      = Return insights
      /\ fst (Dashboard.getIndustryInsights env w) = Return data
      /\ forall k,
          jsstring_eqb (js "nextUpdate") k = false ->
          obj_get k data
          = match own_property insights k with
            | Some v => Some v
            | None =>
                obj_get k [(js "industry", industry_field (user_industry user))]
            end.
Proof.
  intros env w userId user Ha Hu Hi.
  rewrite (@getIndustryInsights_creates env w userId user Ha Hu Hi).
  destruct (generateAIInsights_value (user_industry user) env w) as [v Hv].
  unfold bind at 1.
  destruct (Dashboard.generateAIInsights (user_industry user) env w)
    as [o w1]. cbn [fst] in Hv. subst o.
  exists (Some v). eexists. split; [reflexivity|]. split; [reflexivity|].
  intros k Hk. rewrite (@obj_get_set_other _ _ _ _ _ Hk).
  apply obj_get_assign.
Qed.

(** X17: the dashboard page sends a visitor without a session to
    /sign-in before anything else runs, and a signed-in visitor who is not
    onboarded to /onboarding without generating insights. For an onboarded
    user whose row the database returns it shows the stored insight, with no
    further effect; when none is stored it makes one to three remote calls
    and one create, shows the row that the create resolves to and throws the
    error that the create rejects with. *)
Theorem DashboardPage_outcomes :
  forall db (getUserOnboardingStatus : M bool) env w,
    ((auth_userId env = None \/ auth_userId env = Some []) ->
     Page.DashboardPage db getUserOnboardingStatus env w
     = (Throw (mkJsError Error_ None (Some (js "NEXT_REDIRECT;/sign-in"))), w))
    /\ (forall userId w1,
          auth_userId env = Some userId ->
          userId <> [] ->
          getUserOnboardingStatus env w = (Return false, w1) ->
          Page.DashboardPage db getUserOnboardingStatus env w
          = (Throw (mkJsError Error_ None (Some (js "NEXT_REDIRECT;/onboarding"))),
             w1))
    /\ (forall userId user w1,
          auth_userId env = Some userId ->
          userId <> [] ->
          WithDatabase.findUnique_result db userId = inr (Some user) ->
          getUserOnboardingStatus env w = (Return true, w1) ->
          match industryInsight user with
          | Some stored =>
              Page.DashboardPage db getUserOnboardingStatus env w
              = (Return (Page.DashboardView stored), w1)
          | None =>
              exists n data,
                (1 <= n <= 3)%nat
                /\ trace (snd (Page.DashboardPage db getUserOnboardingStatus
                                 env w))
                   = trace w1
                     ++ attempts (InsightsPrompt (user_industry user))
                          (exponential 1000) 0 n
                     ++ [EvDbCreate
                           (clock (snd (Page.DashboardPage db
                                          getUserOnboardingStatus env w)))
                           data]
                /\ fst (Page.DashboardPage db getUserOnboardingStatus env w)
                   = match WithDatabase.create_result db data with
                     | inl e => Throw e
                     | inr row => Return (Page.DashboardView row)
                     end
          end).
Proof.
  intros db status env w.
  split; [|split].
  - intros H. unfold Page.DashboardPage. unfold bind at 1. unfold ask.
    destruct H as [H|H]; rewrite H; reflexivity.
  - intros userId w1 Ha Hne Hs.
    unfold Page.DashboardPage. unfold bind at 1. unfold ask. rewrite Ha.
    destruct userId as [|c userId]; [contradiction|].
    unfold bind. rewrite Hs. reflexivity.
  - intros userId user w1 Ha Hne Hu Hs.
    assert (Hpage :
      Page.DashboardPage db status env w
      = match WithDatabase.getIndustryInsights db env w1 with
        | (Return insights, w2) => (Return (Page.DashboardView insights), w2)
        | (Throw e, w2) => (Throw e, w2)
        | (OutOfFuel, w2) => (OutOfFuel, w2)
        end).
    { unfold Page.DashboardPage. unfold bind at 1. unfold ask. rewrite Ha.
      destruct userId as [|c userId]; [contradiction|].
      unfold bind at 1. rewrite Hs. reflexivity. }
    rewrite Hpage.
    pose proof (@getIndustryInsights_cases db env w1 userId user Ha Hne Hu) as K.
    destruct (industryInsight user) as [stored|].
    + rewrite K. reflexivity.
    + destruct K as [n [data [Hn [Ht Hv]]]].
      destruct (WithDatabase.getIndustryInsights db env w1) as [o w2].
      cbn [fst snd] in Hv, Ht. exists n, data.
      split; [exact Hn|].
      destruct (WithDatabase.create_result db data) as [e|row]; subst o;
        split; solve [exact Ht | reflexivity].
Qed.

End DashboardFacts.

(** ** The resume store *)

Section StoreFacts.

Import ResumeStore.

Lemma find_resume_upsert userId content rows :
  find_resume userId (upsert userId content rows)
  = Some (mkResumeRow userId content).
Proof.
  unfold find_resume. induction rows as [|r rows IH]; cbn [upsert find].
  - cbn. rewrite jsstring_eqb_refl. reflexivity.
  - destruct (jsstring_eqb (resume_userId r) userId) eqn:E; cbn [find].
    + cbn. rewrite E. apply jsstring_eqb_eq in E. rewrite E. reflexivity.
    + rewrite E. exact IH.
Qed.

Lemma find_resume_upsert_other userId other content rows :
  jsstring_eqb userId other = false ->
  find_resume other (upsert userId content rows) = find_resume other rows.
Proof.
  intros H. unfold find_resume.
  induction rows as [|r rows IH]; cbn [upsert find].
  - cbn. rewrite H. reflexivity.
  - destruct (jsstring_eqb (resume_userId r) userId) eqn:E; cbn [find].
    + cbn. apply jsstring_eqb_eq in E. rewrite E, H. reflexivity.
    + rewrite IH. reflexivity.
Qed.

Lemma upsert_unique userId content rows :
  unique_users rows -> unique_users (upsert userId content rows).
Proof.
  induction rows as [|r rows IH]; intros H; cbn [upsert].
  - cbn. auto.
  - destruct H as [Hr Hrows].
    destruct (jsstring_eqb (resume_userId r) userId) eqn:E.
    + cbn. split; assumption.
    + cbn [unique_users]. split; [|apply IH; exact Hrows].
      rewrite find_resume_upsert_other; [exact Hr|].
      destruct (jsstring_eqb userId (resume_userId r)) eqn:E2; [|reflexivity].
      apply jsstring_eqb_eq in E2. subst userId.
      rewrite jsstring_eqb_refl in E. discriminate.
Qed.

(** X18: a resume that [saveResume] returns is the one that
    [getResume] of the same user returns next, with the content that was
    given; whatever was stored for that user before is replaced, and the
    page /resume has been revalidated. *)
Theorem save_then_get :
  forall content ctx s resume s',
    saveResume content ctx s = (Return resume, s') ->
    resume_content resume = content
    /\ getResume ctx s' = (Return (Some resume), s')
    /\ revalidated s' = revalidated s ++ [js "/resume"].
Proof.
  intros content ctx s resume s'. unfold saveResume, getResume, save_failed.
  destruct (session ctx) as [userId|]; [|discriminate].
  destruct (find_user userId (users ctx)) as [user|]; [|discriminate].
  destruct (upsert_fails ctx); [discriminate|].
  destruct (revalidate_fails ctx); [discriminate|].
  intros H. inversion H; subst. cbn [resume_content resumes revalidated].
  rewrite find_resume_upsert. auto.
Qed.

(** X19: saving keeps one resume per user, and the resume of
    every other user is what it was, whether the save succeeds or not. *)
Theorem save_keeps_other_resumes :
  forall content ctx s,
    unique_users (resumes s) ->
    unique_users (resumes (snd (saveResume content ctx s)))
    /\ forall userId user other,
        session ctx = Some userId ->
        find_user userId (users ctx) = Some user ->
        jsstring_eqb (row_id user) other = false ->
        find_resume other (resumes (snd (saveResume content ctx s)))
        = find_resume other (resumes s).
Proof.
  intros content ctx s Hu. unfold saveResume, save_failed. split.
  - destruct (session ctx) as [userId|]; [|exact Hu].
    destruct (find_user userId (users ctx)) as [user|]; [|exact Hu].
    destruct (upsert_fails ctx); [exact Hu|].
    destruct (revalidate_fails ctx); cbn [snd resumes];
      apply upsert_unique; exact Hu.
  - intros userId user other Hs Hf Hne. rewrite Hs, Hf.
    destruct (upsert_fails ctx); [reflexivity|].
    destruct (revalidate_fails ctx); cbn [snd resumes];
      apply find_resume_upsert_other; exact Hne.
Qed.

(** X20: when the database rejects the upsert, [saveResume] throws
    "Failed to save resume" and the table is as before. When only the
    revalidation of the page throws, it throws the same error although the
    resume has been stored: [getResume] returns the new content. The
    original error is logged and not passed on. *)
Theorem save_failure_modes :
  forall content ctx s userId user,
    session ctx = Some userId ->
    find_user userId (users ctx) = Some user ->
    (forall error,
        upsert_fails ctx = Some error ->
        fst (saveResume content ctx s) = Throw (new_Error "Failed to save resume")
        /\ resumes (snd (saveResume content ctx s)) = resumes s
        /\ logged_errors (snd (saveResume content ctx s))
           = logged_errors s ++ [error])
    /\ (forall error,
          upsert_fails ctx = None ->
          revalidate_fails ctx = Some error ->
          fst (saveResume content ctx s) = Throw (new_Error "Failed to save resume")
          /\ fst (getResume ctx (snd (saveResume content ctx s)))
             = Return (Some (mkResumeRow (row_id user) content))).
Proof.
  intros content ctx s userId user Hs Hf. unfold saveResume, getResume, save_failed.
  rewrite Hs, Hf. split.
  - intros error Hu. rewrite Hu. repeat split.
  - intros error Hu Hr. rewrite Hu, Hr. cbn [fst snd resumes].
    rewrite find_resume_upsert. split; reflexivity.
Qed.

End StoreFacts.
(** ** Runs *)

Section RunFacts.

Import Scenarios ResumeStore Runs.

Lemma batch_retry_bounded_witness :
  exists n,
    (n <= Z.to_nat 3)%nat
    /\ ((0 < 3)%Z -> (1 <= n)%nat)
    /\ trace (snd (Batch.retryWithBackoff (generateContent tech_prompt) 3 2000
                     env_overloaded (init 0)))
       = [] ++ attempts tech_prompt (exponential 2000) 0 n
    /\ ((1 <= n)%nat ->
        total_sleep (attempts tech_prompt (exponential 2000) 0 n)
        = (2000 * (2 ^ (Z.of_nat n - 1) - 1))%Z)
    /\ ((1 <= n)%nat ->
        Forall within_timer (attempts tech_prompt (exponential 2000) 0 n) ->
        clock (snd (Batch.retryWithBackoff (generateContent tech_prompt) 3 2000
                      env_overloaded (init 0)))
        = (0 + 2000 * (2 ^ (Z.of_nat n - 1) - 1))%Z).
Proof.
  exact (@batch_retry_bounded tech_prompt 3 2000 env_overloaded (init 0)).
Defined.

Lemma batch_retry_returns_first_success_witness :
  fst (Batch.retryWithBackoff (generateContent tech_prompt) 5 100 env_flaky
         (init 0))
  = Return (Some (completed empty_object))
  /\ trace (snd (Batch.retryWithBackoff (generateContent tech_prompt) 5 100
                   env_flaky (init 0)))
     = [EvCall tech_prompt; EvSleep 100; EvCall tech_prompt; EvSleep 200;
        EvCall tech_prompt; EvSleep 400; EvCall tech_prompt].
Proof.
  apply (@batch_retry_returns_first_success tech_prompt 5 100 env_flaky (init 0)
           3 (completed empty_object)); [lia | | reflexivity].
  intros k Hk. destruct k as [|[|[|k]]]; [| | |lia].
  - exists e503. split; [reflexivity | left; reflexivity].
  - exists e429. split; [reflexivity | right; reflexivity].
  - exists e503. split; [reflexivity | left; reflexivity].
Defined.

Lemma batch_retry_gives_up_witness :
  fst (Batch.retryWithBackoff (generateContent tech_prompt) 5 100
         env_forbidden_second (init 0))
  = Throw e403
  /\ trace (snd (Batch.retryWithBackoff (generateContent tech_prompt) 5 100
                   env_forbidden_second (init 0)))
     = [EvCall tech_prompt; EvSleep 100; EvCall tech_prompt].
Proof.
  apply (@batch_retry_gives_up tech_prompt 5 100 env_forbidden_second (init 0)
           1 e403); [lia | | reflexivity |].
  - intros k Hk. destruct k as [|k]; [|lia].
    exists e503. split; [reflexivity | left; reflexivity].
  - left. intros [H|H]; discriminate.
Defined.

Lemma generateAIInsights_after_overload_witness :
  (fst (Dashboard.generateAIInsights (Some tech) env_third_time_lucky (init 0))
   = Return (Some (JObj []))
   /\ trace (snd (Dashboard.generateAIInsights (Some tech) env_third_time_lucky
                    (init 0)))
      = [EvCall tech_prompt; EvSleep 1000; EvCall tech_prompt; EvSleep 2000;
         EvCall tech_prompt])
  /\ (fst (Dashboard.generateAIInsights (Some tech) env_overloaded (init 0))
      = Return (Some (Dashboard.getFallbackInsights (Some tech)))
      /\ trace (snd (Dashboard.generateAIInsights (Some tech) env_overloaded
                       (init 0)))
         = [EvCall tech_prompt; EvSleep 1000; EvCall tech_prompt; EvSleep 2000;
            EvCall tech_prompt]).
Proof.
  assert (H503 : Dashboard.overloaded e503) by (left; reflexivity).
  split.
  - refine (proj1 (@generateAIInsights_after_overload (Some tech)
                     env_third_time_lucky (init 0) 2 ltac:(lia) _)
              (completed empty_object) _ empty_object (JObj [])
              eq_refl eq_refl eq_refl eq_refl).
    intros k Hk. destruct k as [|[|k]]; [| |lia];
      (exists e503; split; [reflexivity | exact H503]).
  - refine (proj2 (@generateAIInsights_after_overload (Some tech)
                     env_overloaded (init 0) 2 ltac:(lia) _)
              e503 eq_refl (or_intror eq_refl)).
    intros k Hk. exists e503. split; [reflexivity | exact H503].
Defined.

Lemma retry_helpers_agree_witness :
  Batch.retryWithBackoff (generateContent tech_prompt) 3 2000
    env_third_time_lucky (init 0)
  = Dashboard.retryWithBackoff (generateContent tech_prompt) 3 2000
      env_third_time_lucky (init 0).
Proof.
  apply (@retry_helpers_agree _ (generateContent tech_prompt) 3 2000
           env_third_time_lucky (init 0)).
  intros w0 e w1. unfold generateContent.
  destruct (calls w0) as [|[|[|k]]]; cbn; intros H; inversion H; reflexivity.
Defined.

Lemma improveWithAI_bounded_witness :
  exists n,
    (1 <= n <= 3)%nat
    /\ trace (snd (Resume.improveWithAI (Some draft) (Some (js "experience"))
                     env_always_blocked (init 0)))
       = attempts draft_prompt linear 1 n
    /\ clock (snd (Resume.improveWithAI (Some draft) (Some (js "experience"))
                     env_always_blocked (init 0)))
       = (0 + 1000 * Z.of_nat (n * (n - 1) / 2))%Z.
Proof.
  apply (@improveWithAI_bounded env_always_blocked (init 0) draft
           (Some (js "experience")) (js "user_1") a_user eq_refl eq_refl).
  vm_compute. discriminate.
Defined.

Lemma improveWithAI_retries_any_failure_witness :
  fst (Resume.improveWithAI (Some draft) (Some (js "experience"))
         env_improves_third (init 0))
  = Return (js "Led a team of five.")
  /\ trace (snd (Resume.improveWithAI (Some draft) (Some (js "experience"))
                   env_improves_third (init 0)))
     = [EvCall draft_prompt; EvSleep 1000; EvCall draft_prompt; EvSleep 2000;
        EvCall draft_prompt].
Proof.
  assert (Hc : trim draft <> []) by (vm_compute; discriminate).
  assert (Ht : trim improved_text <> []) by (vm_compute; discriminate).
  refine (@improveWithAI_retries_any_failure env_improves_third (init 0) draft
            (Some (js "experience")) (js "user_1") a_user 2
            (completed improved_text) _ improved_text
            eq_refl eq_refl Hc ltac:(lia) _ eq_refl eq_refl eq_refl eq_refl Ht).
  intros k Hk. destruct k as [|[|k]]; [| |lia]; eexists; reflexivity.
Defined.

Lemma improveWithAI_last_error_decides_witness :
  fst (Resume.improveWithAI (Some draft) (Some (js "experience"))
         env_rate_limited (init 0))
  = Throw (new_Error "API rate limit reached. Please wait a moment and try again.")
  /\ trace (snd (Resume.improveWithAI (Some draft) (Some (js "experience"))
                   env_rate_limited (init 0)))
     = [EvCall draft_prompt; EvSleep 1000; EvCall draft_prompt; EvSleep 2000;
        EvCall draft_prompt].
Proof.
  assert (Hc : trim draft <> []) by (vm_compute; discriminate).
  assert (Hm : js "[429 Too Many Requests] Resource has been exhausted (e.g. check quota)."
               <> []) by (vm_compute; discriminate).
  destruct (@improveWithAI_last_error_decides env_rate_limited (init 0) draft
              (Some (js "experience")) (js "user_1") a_user e429 e429 e429 _
              eq_refl eq_refl Hc eq_refl eq_refl eq_refl eq_refl Hm)
    as [Ht [_ Hrate]].
  split; [apply Hrate; reflexivity | exact Ht].
Defined.

Lemma batch_step_updates_subject_witness :
  exists data,
    fst (Batch.generate_insights_step tech env_two_subjects (init 7))
    = Return (tech, js "updated")
    /\ trace (snd (Batch.generate_insights_step tech env_two_subjects (init 7)))
       = [EvCall tech_prompt; EvDbUpdate 7 tech data]
    /\ obj_get (js "lastUpdated") data = Some (FDate 7)
    /\ obj_get (js "nextUpdate") data = Some (FDate (7 + 604800000))
    /\ (forall k,
          jsstring_eqb (js "lastUpdated") k = false ->
          jsstring_eqb (js "nextUpdate") k = false ->
          obj_get k data = own_property (Some (JObj [])) k).
Proof.
  apply (@batch_step_updates_subject tech env_two_subjects (init 7)
           (completed empty_object) empty_object (JObj []));
    solve [reflexivity | intros; reflexivity].
Defined.

Lemma job_updates_every_subject_witness :
  (fst (WithDatabase.generateIndustryInsights db_up env_parsable (init 7))
   = Return (js "Industry insights generated successfully", 2%Z)
   /\ updated_industries
        (trace (snd (WithDatabase.generateIndustryInsights db_up env_parsable
                       (init 7))))
      = [tech; finance]
   /\ calls (snd (WithDatabase.generateIndustryInsights db_up env_parsable
                    (init 7)))
      = 2%nat
   /\ clock (snd (WithDatabase.generateIndustryInsights db_up env_parsable
                    (init 7)))
      = 7%Z)
  /\ (fst (WithDatabase.generateIndustryInsights db_finance_deleted
             env_parsable (init 7))
      = Throw record_not_found
      /\ updated_industries
           (trace (snd (WithDatabase.generateIndustryInsights db_finance_deleted
                          env_parsable (init 7))))
         = [tech; finance]
      /\ calls (snd (WithDatabase.generateIndustryInsights db_finance_deleted
                       env_parsable (init 7)))
         = 2%nat
      /\ clock (snd (WithDatabase.generateIndustryInsights db_finance_deleted
                       env_parsable (init 7)))
         = 7%Z).
Proof.
  assert (Hp : forall k, parsable_response env_parsable k).
  { intros k. exists (completed empty_object), empty_object, (JObj []).
    repeat split. }
  split.
  - apply (@job_updates_every_subject db_up env_parsable (init 7)).
    + intros k _. apply Hp.
    + intros industry data _. reflexivity.
  - apply (proj2 (@job_updates_every_subject db_finance_deleted env_parsable
                    (init 7) (fun k _ => Hp k))
             [tech] finance [js "health"] record_not_found eq_refl).
    + intros i data [<-|[]]. reflexivity.
    + intros data. reflexivity.
Defined.

Lemma getIndustryInsights_known_user_witness :
  WithDatabase.getIndustryInsights db_stored env_parsable (init 0)
  = (Return stored_insight, init 0)
  /\ (exists n data,
        (1 <= n <= 3)%nat
        /\ trace (snd (WithDatabase.getIndustryInsights db_up
                         env_third_time_lucky (init 0)))
           = attempts tech_prompt (exponential 1000) 0 n
             ++ [EvDbCreate
                   (clock (snd (WithDatabase.getIndustryInsights db_up
                                  env_third_time_lucky (init 0))))
                   data]
        /\ fst (WithDatabase.getIndustryInsights db_up env_third_time_lucky
                  (init 0))
           = Return (obj_set (js "id") (FJson (JStr (js "insight_1"))) data))
  /\ (exists n data,
        (1 <= n <= 3)%nat
        /\ trace (snd (WithDatabase.getIndustryInsights db_industry_taken
                         env_parsable (init 0)))
           = attempts tech_prompt (exponential 1000) 0 n
             ++ [EvDbCreate
                   (clock (snd (WithDatabase.getIndustryInsights
                                  db_industry_taken env_parsable (init 0))))
                   data]
        /\ fst (WithDatabase.getIndustryInsights db_industry_taken env_parsable
                  (init 0))
           = Throw unique_constraint).
Proof.
  assert (Hne : js "user_1" <> []) by discriminate.
  split; [|split].
  - exact (@getIndustryInsights_known_user db_stored env_parsable (init 0)
             (js "user_1") (mkUser (Some tech) (Some stored_insight))
             eq_refl Hne eq_refl).
  - exact (@getIndustryInsights_known_user db_up env_third_time_lucky (init 0)
             (js "user_1") a_user eq_refl Hne eq_refl).
  - exact (@getIndustryInsights_known_user db_industry_taken env_parsable
             (init 0) (js "user_1") a_user eq_refl Hne eq_refl).
Defined.

Lemma created_record_fields_witness :
  exists insights data,
    fst (Dashboard.generateAIInsights (Some tech) env_third_time_lucky (init 0))
    = Return insights
    /\ fst (Dashboard.getIndustryInsights env_third_time_lucky (init 0))
       = Return data
    /\ forall k,
        jsstring_eqb (js "nextUpdate") k = false ->
        obj_get k data
        = match own_property insights k with
          | Some v => Some v
          | None => obj_get k [(js "industry", industry_field (Some tech))]
          end.
Proof.
  exact (@created_record_fields env_third_time_lucky (init 0) (js "user_1")
           a_user eq_refl eq_refl eq_refl).
Defined.

Lemma DashboardPage_outcomes_witness :
  Page.DashboardPage db_up (ret true) env_signed_out (init 0)
  = (Throw (mkJsError Error_ None (Some (js "NEXT_REDIRECT;/sign-in"))), init 0)
  /\ Page.DashboardPage db_up (ret false) env_parsable (init 0)
     = (Throw (mkJsError Error_ None (Some (js "NEXT_REDIRECT;/onboarding"))),
        init 0)
  /\ Page.DashboardPage db_stored (ret true) env_parsable (init 0)
     = (Return (Page.DashboardView stored_insight), init 0)
  /\ (exists n data,
        (1 <= n <= 3)%nat
        /\ trace (snd (Page.DashboardPage db_industry_taken (ret true)
                         env_parsable (init 0)))
           = attempts tech_prompt (exponential 1000) 0 n
             ++ [EvDbCreate
                   (clock (snd (Page.DashboardPage db_industry_taken (ret true)
                                  env_parsable (init 0))))
                   data]
        /\ fst (Page.DashboardPage db_industry_taken (ret true) env_parsable
                  (init 0))
           = Throw unique_constraint).
Proof.
  assert (Hne : js "user_1" <> []) by discriminate.
  split; [|split; [|split]].
  - apply (proj1 (@DashboardPage_outcomes db_up (ret true) env_signed_out
                    (init 0))).
    left. reflexivity.
  - exact (proj1 (proj2 (@DashboardPage_outcomes db_up (ret false) env_parsable
                           (init 0)))
             (js "user_1") (init 0) eq_refl Hne eq_refl).
  - exact (proj2 (proj2 (@DashboardPage_outcomes db_stored (ret true)
                           env_parsable (init 0)))
             (js "user_1") (mkUser (Some tech) (Some stored_insight)) (init 0)
             eq_refl Hne eq_refl eq_refl).
  - exact (proj2 (proj2 (@DashboardPage_outcomes db_industry_taken (ret true)
                           env_parsable (init 0)))
             (js "user_1") a_user (init 0) eq_refl Hne eq_refl eq_refl).
Defined.

Lemma save_then_get_witness :
  resume_content (mkResumeRow (js "u1") draft) = draft
  /\ getResume ctx_alice
       (mkStore [mkResumeRow (js "u2") (js "Bob's resume");
                 mkResumeRow (js "u1") draft] [js "/resume"] [])
     = (Return (Some (mkResumeRow (js "u1") draft)),
        mkStore [mkResumeRow (js "u2") (js "Bob's resume");
                 mkResumeRow (js "u1") draft] [js "/resume"] [])
  /\ [js "/resume"] = revalidated store_bob ++ [js "/resume"].
Proof.
  apply (@save_then_get draft ctx_alice store_bob). reflexivity.
Defined.

Lemma save_keeps_other_resumes_witness :
  unique_users (resumes (snd (saveResume draft ctx_alice store_bob)))
  /\ find_resume (js "u2") (resumes (snd (saveResume draft ctx_alice store_bob)))
     = Some (mkResumeRow (js "u2") (js "Bob's resume")).
Proof.
  assert (Hu : unique_users (resumes store_bob)) by (cbn; auto).
  destruct (@save_keeps_other_resumes draft ctx_alice store_bob Hu) as [H1 H2].
  split; [exact H1|].
  exact (H2 (js "clerk_a") alice (js "u2") eq_refl eq_refl eq_refl).
Defined.

Lemma save_failure_modes_witness :
  (fst (saveResume draft ctx_alice_db_down store_bob)
   = Throw (new_Error "Failed to save resume")
   /\ resumes (snd (saveResume draft ctx_alice_db_down store_bob))
      = resumes store_bob)
  /\ (fst (saveResume draft ctx_alice_revalidation_down store_bob)
      = Throw (new_Error "Failed to save resume")
      /\ fst (getResume ctx_alice_revalidation_down
                (snd (saveResume draft ctx_alice_revalidation_down store_bob)))
         = Return (Some (mkResumeRow (js "u1") draft))).
Proof.
  split.
  - destruct (proj1 (@save_failure_modes draft ctx_alice_db_down store_bob
                       (js "clerk_a") alice eq_refl eq_refl)
                _ eq_refl) as [H1 [H2 _]].
    split; [exact H1 | exact H2].
  - exact (proj2 (@save_failure_modes draft ctx_alice_revalidation_down store_bob
                    (js "clerk_a") alice eq_refl eq_refl)
             _ eq_refl eq_refl).
Defined.

End RunFacts.
